(** * XianyuAgentBot: the realtime session layer

    A shallow embedding of [src/core/heartbeat.py], [src/core/message_handler.py]
    and [src/core/websocket_client.py], and the properties of the session
    layer checked against it.

    Values coming out of [json.loads] are modelled by [pyval]; Python
    exceptions by the error type [exc]; a float by an IEEE 754 binary64
    number with the arithmetic of [SpecFloat]; the set and the dict of the
    manual-mode registry by stdpp's [gset] and [gmap]. A reading of the
    wall clock ([time.time()]) that is only subtracted from another
    reading and compared is a rational, the difference of two readings of
    the epoch clock being exact; one that is scaled (the expiry test, the
    sync frame, the latency of a call) is a float, the product being
    rounded. *)

From Stdlib Require Import ZArith QArith Lqa String Ascii List Bool SpecFloat.
From stdpp Require Import base gmap strings list.

Local Open Scope string_scope.
Local Open Scope list_scope.

(** ** Python values and exceptions *)

Module Py.

(** The values [json.loads] can return. A [str] is a string of UTF-8 code
    units: equality, containment and splitting on valid UTF-8 agree with
    the same operations on code points. A dict keeps its entries as an
    association list, the first entry of a key being the live one. *)
#[warnings="-register-all"]
Inductive pyval : Type :=
| PNone
| PBool (b : bool)
| PInt (z : Z)
| PFloat (x : spec_float)
| PStr (s : string)
| PList (l : list pyval)
| PDict (d : list (string * pyval)).

Inductive pyexc : Type :=
| KeyError (k : string)
| IndexError
| TypeError
| AttributeError
| ValueError
| OverflowError
| ConnectionClosed
| ExternalError (what : string).

(** A computation that returns or raises. *)
Inductive exc (A : Type) : Type :=
| Ok (a : A)
| Raise (e : pyexc).
Arguments Ok {A} a.
Arguments Raise {A} e.

Definition ebind {A B} (m : exc A) (k : A -> exc B) : exc B :=
  match m with
  | Ok a => k a
  | Raise e => Raise e
  end.

#[global] Instance exc_ret : MRet exc := fun _ a => Ok a.
#[global] Instance exc_bind : MBind exc := fun _ _ k m => ebind m k.

(** [try: m except Exception: d] *)
Definition try_except {A} (m : exc A) (d : A) : A :=
  match m with
  | Ok a => a
  | Raise _ => d
  end.

Definition raised {A} (m : exc A) : bool :=
  match m with Ok _ => false | Raise _ => true end.

(** *** Floats

    A float is a binary64 number: 53 bits of precision, results rounded to
    the nearest, ties to even. *)

Definition float : Type := spec_float.
Definition prec : Z := 53.
Definition emax : Z := 1024.

(** The float nearest to an int; beyond the largest float it is an
    infinity. *)
Definition float_of_Z (n : Z) : float := binary_normalize prec emax n 0 false.

(** The conversion of an int operand of a float operation: an int too
    large for a float raises. *)
Definition float_of_int (n : Z) : exc float :=
  match float_of_Z n with
  | S754_infinity _ => Raise OverflowError
  | x => Ok x
  end.

(** [x * n] and [x - n] for a float [x] and an int [n]. *)
Definition float_mul_int (x : float) (n : Z) : exc float :=
  y ← float_of_int n; mret (SFmul prec emax x y).

Definition float_sub_int (x : float) (n : Z) : exc float :=
  y ← float_of_int n; mret (SFsub prec emax x y).

(** A float against an int: Python compares the two numbers exactly, and
    a NaN compares with nothing. *)
Definition float_compare_int (x : float) (n : Z) : option comparison :=
  match x with
  | S754_nan => None
  | S754_infinity s => Some (if s then Lt else Gt)
  | S754_zero _ => Some (0 ?= n)%Z
  | S754_finite s m e =>
      let mz := if s then Zneg m else Zpos m in
      Some (match e with
            | Zneg k => (mz ?= n * 2 ^ Zpos k)%Z
            | _ => (mz * 2 ^ e ?= n)%Z
            end)
  end.

Definition float_gt_int (x : float) (n : Z) : bool :=
  match float_compare_int x n with Some Gt => true | _ => false end.

Definition float_eq_int (x : float) (n : Z) : bool :=
  match float_compare_int x n with Some Eq => true | _ => false end.

(** [int(x)]: toward zero. *)
Definition int_of_float (x : float) : exc Z :=
  match x with
  | S754_nan => Raise ValueError
  | S754_infinity _ => Raise OverflowError
  | S754_zero _ => Ok 0%Z
  | S754_finite s m e =>
      let mz := if s then Zneg m else Zpos m in
      Ok (match e with
          | Zneg k => Z.quot mz (2 ^ Zpos k)
          | _ => mz * 2 ^ e
          end)%Z
  end.

(** *** Strings *)

Fixpoint str_prefix (p s : string) : bool :=
  match p, s with
  | EmptyString, _ => true
  | String a p', String b s' => if Ascii.eqb a b then str_prefix p' s' else false
  | String _ _, EmptyString => false
  end.

(** [needle in hay] on two strs. *)
Fixpoint str_contains (needle hay : string) : bool :=
  if str_prefix needle hay then true
  else match hay with
       | EmptyString => false
       | String _ hay' => str_contains needle hay'
       end.

Fixpoint str_rev_onto (s acc : string) : string :=
  match s with
  | EmptyString => acc
  | String c s' => str_rev_onto s' (String c acc)
  end.

Definition str_rev (s : string) : string := str_rev_onto s EmptyString.

(** [s.split(sep)] for a non-empty [sep]: [skip] counts the characters of a
    separator just matched that are still to be passed over, [cur] is the
    piece being read, reversed. *)
Fixpoint split_go (sep : string) (skip : nat) (cur : string) (s : string)
  : list string :=
  match s with
  | EmptyString => [str_rev cur]
  | String c s' =>
      match skip with
      | S n => split_go sep n cur s'
      | O =>
          if str_prefix sep s
          then str_rev cur :: split_go sep (String.length sep - 1) EmptyString s'
          else split_go sep O (String c cur) s'
      end
  end.

Definition str_split (sep s : string) : list string :=
  split_go sep O EmptyString s.

(** The characters [str.strip()] removes, as UTF-8 sequences: the ASCII
    white space, the separators 0x1c-0x1f, and the Unicode spaces. *)
Definition whitespace : list string :=
  let b (n : nat) := String (ascii_of_nat n) EmptyString in
  let b2 (m n : nat) := String (ascii_of_nat m) (b n) in
  let b3 (l m n : nat) := String (ascii_of_nat l) (b2 m n) in
  [ b 32; b 9; b 10; b 11; b 12; b 13; b 28; b 29; b 30; b 31;
    b2 194 133; b2 194 160; b3 225 154 128;
    b3 226 128 128; b3 226 128 129; b3 226 128 130; b3 226 128 131;
    b3 226 128 132; b3 226 128 133; b3 226 128 134; b3 226 128 135;
    b3 226 128 136; b3 226 128 137; b3 226 128 138;
    b3 226 128 168; b3 226 128 169; b3 226 128 175;
    b3 226 129 159; b3 227 128 128 ].

Definition starts_with_space (ws : list string) (s : string) : option nat :=
  String.length <$> List.find (fun w => str_prefix w s) ws.

Fixpoint lstrip_go (ws : list string) (skip : nat) (s : string) : string :=
  match s with
  | EmptyString => EmptyString
  | String _ s' =>
      match skip with
      | S n => lstrip_go ws n s'
      | O =>
          match starts_with_space ws s with
          | Some n => lstrip_go ws (n - 1) s'
          | None => s
          end
      end
  end.

Definition str_lstrip (s : string) : string := lstrip_go whitespace O s.

Definition str_rstrip (s : string) : string :=
  str_rev (lstrip_go (List.map str_rev whitespace) O (str_rev s)).

Definition str_strip (s : string) : string := str_rstrip (str_lstrip s).

(** *** Operations on values *)

Fixpoint assoc (k : string) (d : list (string * pyval)) : option pyval :=
  match d with
  | [] => None
  | (k', v) :: d' => if String.eqb k k' then Some v else assoc k d'
  end.

(** [v == s] for a str constant [s]. *)
Definition eq_str (v : pyval) (s : string) : bool :=
  match v with
  | PStr t => String.eqb t s
  | _ => false
  end.

(** [v == n] for an int constant [n]; [bool] is a subtype of [int]. *)
Definition eq_int (v : pyval) (n : Z) : bool :=
  match v with
  | PInt z => Z.eqb z n
  | PBool b => Z.eqb (if b then 1 else 0)%Z n
  | PFloat x => float_eq_int x n
  | _ => false
  end.

Definition is_dict (v : pyval) : bool :=
  match v with PDict _ => true | _ => false end.

Definition is_list (v : pyval) : bool :=
  match v with PList _ => true | _ => false end.

(** [k in v] for a str [k]: a key of a dict, an element of a list, a
    substring of a str; anything else is not iterable. *)
Definition contains (k : string) (v : pyval) : exc bool :=
  match v with
  | PDict d => Ok (bool_decide (is_Some (assoc k d)))
  | PList l => Ok (existsb (fun x => eq_str x k) l)
  | PStr s => Ok (str_contains k s)
  | _ => Raise TypeError
  end.

(** [v[k]] for a str [k]. *)
Definition getitem (v : pyval) (k : string) : exc pyval :=
  match v with
  | PDict d => match assoc k d with
               | Some x => Ok x
               | None => Raise (KeyError k)
               end
  | _ => Raise TypeError
  end.

(** [v[0]]: the keys of a decoded dict are strs, so 0 is never one. *)
Definition getitem0 (v : pyval) : exc pyval :=
  match v with
  | PList (x :: _) => Ok x
  | PList [] => Raise IndexError
  | PStr (String c _) => Ok (PStr (String c EmptyString))
  | PStr EmptyString => Raise IndexError
  | PDict _ => Raise (KeyError "0")
  | _ => Raise TypeError
  end.

(** [v.get(k, dflt)]: only a dict has the method. *)
Definition get (v : pyval) (k : string) (dflt : pyval) : exc pyval :=
  match v with
  | PDict d => Ok (default dflt (assoc k d))
  | _ => Raise AttributeError
  end.

(** [len(v)] *)
Definition len (v : pyval) : exc nat :=
  match v with
  | PStr s => Ok (String.length s)
  | PList l => Ok (List.length l)
  | PDict d => Ok (List.length d)
  | _ => Raise TypeError
  end.

(** [v.split(sep)]: only a str has the method. *)
Definition split (v : pyval) (sep : string) : exc (list string) :=
  match v with
  | PStr s => Ok (str_split sep s)
  | _ => Raise AttributeError
  end.

(** [v.strip()] *)
Definition strip (v : pyval) : exc string :=
  match v with
  | PStr s => Ok (str_strip s)
  | _ => Raise AttributeError
  end.

(** [xs[i]] on a Python list of strs. *)
Definition nth_str (xs : list string) (i : nat) : exc string :=
  match xs !! i with
  | Some x => Ok x
  | None => Raise IndexError
  end.

(** Truth value of [v], as [if v] and [not v] take it. *)
Definition truthy (v : pyval) : bool :=
  match v with
  | PNone => false
  | PBool b => b
  | PInt z => negb (Z.eqb z 0)
  | PFloat x => negb (float_eq_int x 0)
  | PStr s => negb (String.eqb s EmptyString)
  | PList l => match l with [] => false | _ => true end
  | PDict d => match d with [] => false | _ => true end
  end.

(** *** [int] of a str

    [int(s)] reads the code points of [s]: white space around, an optional
    sign, then decimal digits, with single underscores between digits. *)

(** Stands for a code unit that is no part of a code point. *)
Definition NOT_A_CHAR : N := 0x110000.

(** The code points of a str, from its UTF-8 code units: [acc] holds the
    bits read of the code point under way, [pending] counts the code units
    it still takes. *)
Fixpoint code_points_go (acc : N) (pending : nat) (s : string) : list N :=
  match s with
  | EmptyString => match pending with O => [] | S _ => [NOT_A_CHAR] end
  | String c s' =>
      let b := N_of_ascii c in
      match pending with
      | O =>
          if (b <? 128)%N then b :: code_points_go 0 0 s'
          else if (b <? 192)%N then NOT_A_CHAR :: code_points_go 0 0 s'
          else if (b <? 224)%N then code_points_go (b - 192) 1 s'
          else if (b <? 240)%N then code_points_go (b - 224) 2 s'
          else code_points_go (b - 240) 3 s'
      | S O => (acc * 64 + (b - 128))%N :: code_points_go 0 0 s'
      | S n => code_points_go (acc * 64 + (b - 128)) n s'
      end
  end.

Definition code_points (s : string) : list N := code_points_go 0 0 s.

(** The decimal digits of the Unicode database (version 14.0, that of
    CPython 3.11) come in runs of ten, zero to nine: the first code point
    of each run. *)
Definition DECIMAL_RUNS : list N :=
  [
    0x30; 0x660; 0x6f0; 0x7c0; 0x966; 0x9e6; 0xa66; 0xae6; 0xb66; 0xbe6;
    0xc66; 0xce6; 0xd66; 0xde6; 0xe50; 0xed0; 0xf20; 0x1040; 0x1090;
    0x17e0; 0x1810; 0x1946; 0x19d0; 0x1a80; 0x1a90; 0x1b50; 0x1bb0; 0x1c40;
    0x1c50; 0xa620; 0xa8d0; 0xa900; 0xa9d0; 0xa9f0; 0xaa50; 0xabf0; 0xff10;
    0x104a0; 0x10d30; 0x11066; 0x110f0; 0x11136; 0x111d0; 0x112f0; 0x11450;
    0x114d0; 0x11650; 0x116c0; 0x11730; 0x118e0; 0x11950; 0x11c50; 0x11d50;
    0x11da0; 0x16a60; 0x16ac0; 0x16b50; 0x1d7ce; 0x1d7d8; 0x1d7e2; 0x1d7ec;
    0x1d7f6; 0x1e140; 0x1e2f0; 0x1e950; 0x1fbf0
  ]%N.

Definition decimal_of (cp : N) : option Z :=
  (fun start => Z.of_N (cp - start))
    <$> List.find (fun start => (start <=? cp)%N && (cp <? start + 10)%N)
          DECIMAL_RUNS.

(** What [int] takes for white space: the six ASCII blanks, and beyond
    ASCII the Unicode spaces. The separators 0x1c-0x1f, which
    [str.strip()] removes, are not among them. *)
Definition int_space (cp : N) : bool :=
  bool_decide (cp ∈ [9; 10; 11; 12; 13; 32; 0x85; 0xa0; 0x1680;
                     0x2000; 0x2001; 0x2002; 0x2003; 0x2004; 0x2005; 0x2006;
                     0x2007; 0x2008; 0x2009; 0x200a;
                     0x2028; 0x2029; 0x202f; 0x205f; 0x3000]%N).

(** A code point as [int] reads it. *)
Inductive int_char : Type :=
| IcSpace | IcPlus | IcMinus | IcUnderscore | IcDigit (d : Z) | IcOther.

Definition int_char_of (cp : N) : int_char :=
  if int_space cp then IcSpace
  else if (cp =? 43)%N then IcPlus
  else if (cp =? 45)%N then IcMinus
  else if (cp =? 95)%N then IcUnderscore
  else match decimal_of cp with
       | Some d => IcDigit d
       | None => IcOther
       end.

Fixpoint skip_spaces (l : list int_char) : list int_char :=
  match l with
  | IcSpace :: l' => skip_spaces l'
  | _ => l
  end.

(** The digits, up to the white space that ends the literal: the value
    and the number of digits. [after_digit] tells whether the character
    before was a digit. *)
Fixpoint digits_go (acc : Z) (count : Z) (after_digit : bool)
    (l : list int_char) : option (Z * Z) :=
  match l with
  | [] => if after_digit then Some (acc, count) else None
  | IcDigit d :: l' => digits_go (10 * acc + d)%Z (count + 1)%Z true l'
  | IcUnderscore :: l' =>
      if after_digit then digits_go acc count false l' else None
  | IcSpace :: l' =>
      if after_digit
      then match skip_spaces l' with
           | [] => Some (acc, count)
           | _ => None
           end
      else None
  | _ => None
  end.

(** The default of [sys.get_int_max_str_digits()]; the code does not
    change it. *)
Definition INT_MAX_STR_DIGITS : Z := 4300.

Definition parse_int (s : string) : option Z :=
  let '(negative, digits) :=
    match skip_spaces (int_char_of <$> code_points s) with
    | IcMinus :: r => (true, r)
    | IcPlus :: r => (false, r)
    | r => (false, r)
    end in
  match digits_go 0 0 false digits with
  | Some (z, count) =>
      if (INT_MAX_STR_DIGITS <? count)%Z then None
      else Some (if negative : bool then - z else z)%Z
  | None => None
  end.

(** [int(v)] *)
Definition int_of (v : pyval) : exc Z :=
  match v with
  | PInt z => Ok z
  | PBool b => Ok (if b then 1 else 0)%Z
  | PFloat x => int_of_float x
  | PStr s => match parse_int s with
              | Some z => Ok z
              | None => Raise ValueError
              end
  | _ => Raise TypeError
  end.

End Py.

Import Py.

(** ** Observable effects

    What the session layer does to the outside world, in the order it does
    it. A frame is the dict handed to [json.dumps]; a socket is named by the
    number of the connection that opened it. *)

Inductive loglevel : Type := Debug | Info | Warning | Error.

(** The card posted to the webhook by [_send_order_notification]: the
    values interpolated into its text. *)
Record order_card : Type := {
  card_user_id : string;
  card_user_url : string;
  card_price : pyval;
  card_item_title : pyval;
}.

(** The arguments of one [process_message] call handed to the executor. *)
Record reply_job : Type := {
  job_message : pyval;
  job_item_description : pyval * pyval;
  job_user_id : pyval;
  job_user_name : pyval;
  job_chat_id : string;
}.

Inductive event : Type :=
| EvSend (sock : nat) (frame : pyval)
    (* [ws.send(json.dumps(frame))] on an open socket *)
| EvSendFailed (sock : nat) (frame : pyval)
    (* [ws.send] on a closed socket; the call raises *)
| EvClose (sock : nat)
| EvLog (lvl : loglevel) (what : string)
| EvSleep (seconds : Z)
| EvRecord (chat_id : string) (user_id : pyval) (item_id : string)
    (role : string) (content : pyval)
    (* [context_manager.add_message_by_chat] *)
| EvSaveItem (item_id : string) (info : pyval)
| EvToggle (chat_id : string) (mode : string)
    (* [toggle_manual_mode(chat_id)] was called and answered [mode] *)
| EvSubmit (job : reply_job)
    (* [loop.run_in_executor(self.executor, process_message, ...)] *)
| EvNotify (url : string) (card : order_card).
    (* [requests.post(webhook_url, ...)] *)

(** An asyncio task, as far as the supervisor can tell. *)
Inductive task_state : Type := Running | Finished | Cancelled.

(** ** [core/heartbeat.py] *)

Module Heartbeat.

Record HeartbeatManager : Type := {
  interval : Z;
  timeout : Z;
  last_heartbeat_time : Q;
  last_heartbeat_response : Q;
  task : option task_state;
}.

Definition init (interval timeout : Z) : HeartbeatManager :=
  {| interval := interval; timeout := timeout;
     last_heartbeat_time := 0; last_heartbeat_response := 0;
     task := None |}.

Definition set_last_time (hb : HeartbeatManager) (t : Q) : HeartbeatManager :=
  {| interval := interval hb; timeout := timeout hb;
     last_heartbeat_time := t;
     last_heartbeat_response := last_heartbeat_response hb;
     task := task hb |}.

Definition set_last_response (hb : HeartbeatManager) (t : Q) : HeartbeatManager :=
  {| interval := interval hb; timeout := timeout hb;
     last_heartbeat_time := last_heartbeat_time hb;
     last_heartbeat_response := t;
     task := task hb |}.

Definition set_task (hb : HeartbeatManager) (t : option task_state)
  : HeartbeatManager :=
  {| interval := interval hb; timeout := timeout hb;
     last_heartbeat_time := last_heartbeat_time hb;
     last_heartbeat_response := last_heartbeat_response hb;
     task := t |}.

Definition heartbeat_frame (mid : string) : pyval :=
  PDict [("lwp", PStr "/!"); ("headers", PDict [("mid", PStr mid)])].

(** [x > y] and [x >= y] on clock values. *)
Definition Qgtb (x y : Q) : bool := negb (Qle_bool x y).
Definition Qgeb (x y : Q) : bool := Qle_bool y x.

(** [send]: [mid] is what [generate_mid()] returns, [ws_open] whether the
    socket accepts the frame, [now] the clock after the send. The returned
    correlation id is [mid]. *)
Definition send (hb : HeartbeatManager) (ws : nat) (ws_open : bool)
    (mid : string) (now : Q)
  : HeartbeatManager * list event * exc string :=
  if ws_open
  then (set_last_time hb now,
        [EvSend ws (heartbeat_frame mid); EvLog Debug "heartbeat sent"],
        Ok mid)
  else (hb, [EvSendFailed ws (heartbeat_frame mid)], Raise ConnectionClosed).

(** How one pass through the body of [loop] ends. *)
Inductive loop_exit : Type :=
| Sleep1      (* [await asyncio.sleep(1)], then the next pass *)
| BreakTimeout (* the response is overdue: warning, [break] *)
| BreakError.  (* a raise inside the body: error log, [break] *)

(** One pass through the body of [loop]. [current] is the clock read at the
    top of the pass, [sent_at] the clock read by [send]. The id [send]
    returns is dropped. *)
Definition loop_body (hb : HeartbeatManager) (ws : nat) (ws_open : bool)
    (mid : string) (current sent_at : Q)
  : HeartbeatManager * list event * loop_exit :=
  let '(hb1, ev1, r) :=
    if Qgeb (current - last_heartbeat_time hb) (inject_Z (interval hb))
    then send hb ws ws_open mid sent_at
    else (hb, [], Ok "") in
  match r with
  | Raise _ => (hb1, ev1 ++ [EvLog Error "heartbeat loop error"], BreakError)
  | Ok _ =>
      if Qgtb (current - last_heartbeat_response hb1)
              (inject_Z (interval hb1 + timeout hb1))
      then (hb1, ev1 ++ [EvLog Warning "heartbeat response timeout"],
            BreakTimeout)
      else (hb1, ev1 ++ [EvSleep 1], Sleep1)
  end.

(** [handle_response]: [now] is the clock when the frame is looked at. The
    boolean tells the receive loop whether the frame was a heartbeat
    response. *)
Definition handle_response (hb : HeartbeatManager) (message_data : pyval)
    (now : Q) : exc (HeartbeatManager * bool) :=
  if is_dict message_data then
    has_headers ← contains "headers" message_data;
    if has_headers : bool then
      headers ← getitem message_data "headers";
      has_mid ← contains "mid" headers;
      if has_mid : bool then
        code ← get message_data "code" PNone;
        if eq_int code 200
        then mret (set_last_response hb now, true)
        else mret (hb, false)
      else mret (hb, false)
    else mret (hb, false)
  else mret (hb, false).

(** [start]: both clock fields are set, and the loop task is created. *)
Definition start (hb : HeartbeatManager) (t1 t2 : Q) : HeartbeatManager :=
  set_task (set_last_response (set_last_time hb t1) t2) (Some Running).

(** [stop]: cancel the task, if there is one, and await it. A task that
    has already ended stays as it ended. *)
Definition stop (hb : HeartbeatManager) : HeartbeatManager :=
  match task hb with
  | Some Running => set_task hb (Some Cancelled)
  | _ => hb
  end.

End Heartbeat.

(** ** [core/message_handler.py] *)

Module Handler.

Import Heartbeat.

(** The fields of [MessageHandler] that its methods read and write; the
    four tunables come from the environment when the object is built. *)
Record MessageHandler : Type := {
  myid : string;
  manual_mode_conversations : gset string;
  manual_mode_timestamps : gmap string Q;
  manual_mode_timeout : Z;
  toggle_keywords : string;
  message_expire_time : Z;
}.

Definition init (myid : string) (manual_mode_timeout : Z)
    (toggle_keywords : string) (message_expire_time : Z) : MessageHandler :=
  {| myid := myid;
     manual_mode_conversations := ∅;
     manual_mode_timestamps := ∅;
     manual_mode_timeout := manual_mode_timeout;
     toggle_keywords := toggle_keywords;
     message_expire_time := message_expire_time |}.

Definition set_manual (h : MessageHandler) (c : gset string) (t : gmap string Q)
  : MessageHandler :=
  {| myid := myid h;
     manual_mode_conversations := c;
     manual_mode_timestamps := t;
     manual_mode_timeout := manual_mode_timeout h;
     toggle_keywords := toggle_keywords h;
     message_expire_time := message_expire_time h |}.

(** *** The manual-mode registry *)

Definition enter_manual_mode (h : MessageHandler) (chat_id : string) (now : Q)
  : MessageHandler :=
  set_manual h ({[chat_id]} ∪ manual_mode_conversations h)
               (<[chat_id := now]> (manual_mode_timestamps h)).

Definition exit_manual_mode (h : MessageHandler) (chat_id : string)
  : MessageHandler :=
  set_manual h (manual_mode_conversations h ∖ {[chat_id]})
               (delete chat_id (manual_mode_timestamps h)).

(** [is_manual_mode]: the answer, and the registry after the lazy expiry. *)
Definition is_manual_mode (h : MessageHandler) (chat_id : string) (now : Q)
  : MessageHandler * bool :=
  if bool_decide (chat_id ∈ manual_mode_conversations h) then
    match manual_mode_timestamps h !! chat_id with
    | Some entered =>
        if Qgtb (now - entered) (inject_Z (manual_mode_timeout h))
        then (exit_manual_mode h chat_id, false)
        else (h, true)
    | None => (h, true)
    end
  else (h, false).

(** [toggle_manual_mode]: [now] is the clock read by the check,
    [entered] the clock read when the conversation is entered. *)
Definition toggle_manual_mode (h : MessageHandler) (chat_id : string)
    (now entered : Q) : MessageHandler * string :=
  let '(h1, active) := is_manual_mode h chat_id now in
  if active
  then (exit_manual_mode h1 chat_id, "auto")
  else (enter_manual_mode h1 chat_id entered, "manual").

(** [check_toggle_keywords]: [toggle_keywords] is a str, so [in] is the
    substring test. *)
Definition check_toggle_keywords (h : MessageHandler) (message : pyval)
  : exc bool :=
  stripped ← strip message;
  mret (str_contains stripped (toggle_keywords h)).

(** *** Recognising the kind of a decoded payload *)

Definition is_chat_message (message : pyval) : bool :=
  try_except
    (if is_dict message then
       has1 ← contains "1" message;
       if has1 : bool then
         m1 ← getitem message "1";
         if is_dict m1 then
           has10 ← contains "10" m1;
           if has10 : bool then
             m10 ← getitem m1 "10";
             if is_dict m10 then contains "reminderContent" m10
             else mret false
           else mret false
         else mret false
       else mret false
     else mret false)
    false.

Definition is_sync_package (message_data : pyval) : bool :=
  try_except
    (if is_dict message_data then
       has_body ← contains "body" message_data;
       if has_body : bool then
         body ← getitem message_data "body";
         has_pkg ← contains "syncPushPackage" body;
         if has_pkg : bool then
           pkg ← getitem body "syncPushPackage";
           has_data ← contains "data" pkg;
           if has_data : bool then
             data ← getitem pkg "data";
             n ← len data;
             mret (bool_decide (0 < n))
           else mret false
         else mret false
       else mret false
     else mret false)
    false.

Definition is_typing_status (message : pyval) : bool :=
  try_except
    (if is_dict message then
       has1 ← contains "1" message;
       if has1 : bool then
         m1 ← getitem message "1";
         if is_list m1 then
           n ← len m1;
           if bool_decide (0 < n) then
             first ← getitem0 m1;
             if is_dict first then
               has ← contains "1" first;
               if has : bool then
                 who ← get first "1" (PStr "");
                 contains "@goofish" who
               else mret false
             else mret false
           else mret false
         else mret false
       else mret false
     else mret false)
    false.

Definition is_system_message (message : pyval) : bool :=
  try_except
    (if is_dict message then
       has3 ← contains "3" message;
       if has3 : bool then
         m3 ← getitem message "3";
         if is_dict m3 then
           need ← get m3 "needPush" PNone;
           mret (eq_str need "false")
         else mret false
       else mret false
     else mret false)
    false.

(** *** What a call of [handle] meets outside the handler

    The readings of the clock, the state of the socket when a frame is
    written to it, the values generated for it, and the collaborators'
    answers. [utils.xianyu_utils], the store, the marketplace API and the
    agent are not part of this module: their results are taken as given,
    each able to raise. *)
Record env : Type := {
  now_expire : float;   (* [time.time()] of the expiry test *)
  now_mode : Q;         (* [time.time()] inside [is_manual_mode] *)
  now_enter : Q;        (* [time.time()] inside [enter_manual_mode] *)
  ws_open_ack : bool;   (* the socket takes the acknowledgement *)
  ws_open_reply : bool; (* the socket takes the reply, once computed *)
  generate_mid : string;
  generate_uuid : string;
  str_of : pyval -> string;        (* [f"{v}"] for a [v] that is not a str *)
  b64_json : pyval -> string;      (* [base64.b64encode(json.dumps(v))] *)
  is_plain_json : pyval -> bool;   (* base64-decodes and parses as it is *)
  decrypt_json : pyval -> exc pyval;  (* [json.loads(decrypt(data))] *)
  webhook_url : string;            (* [FEISHU_WEBHOOK_URL], [""] when unset *)
  post_webhook : string -> order_card -> exc pyval; (* the status code *)
  add_message_by_chat :
    string -> pyval -> string -> string -> pyval -> exc unit;
  db_get_item_info : string -> exc pyval;
  db_save_item_info : string -> pyval -> exc unit;
  api_get_item_info : string -> exc pyval;
  process_message : reply_job -> exc pyval;
}.

(** [f"{v}"] *)
Definition fmt (e : env) (v : pyval) : string :=
  match v with
  | PStr s => s
  | _ => str_of e v
  end.

(** *** Order-status payloads *)

Definition WAIT_BUYER_PAY : string := "等待买家付款".
Definition TRADE_CLOSED : string := "交易关闭".
Definition WAIT_SELLER_SHIP : string := "等待卖家发货".
Definition UNKNOWN_ITEM : string := "未知商品".
Definition UNKNOWN_PRICE : string := "未知".

Definition send_order_notification (e : env) (user_id user_url : string)
    (message : pyval) : list event :=
  if String.eqb (webhook_url e) "" then []
  else
    let '(item_title, price) :=
      try_except
        (m3 ← get message "3" (PDict []);
         title ← get m3 "title" (PStr UNKNOWN_ITEM);
         m3' ← get message "3" (PDict []);
         price ← get m3' "price" (PStr UNKNOWN_PRICE);
         mret (title, price))
        (PStr UNKNOWN_ITEM, PStr UNKNOWN_PRICE) in
    let card := {| card_user_id := user_id; card_user_url := user_url;
                   card_price := price; card_item_title := item_title |} in
    EvNotify (webhook_url e) card ::
    match post_webhook e (webhook_url e) card with
    | Ok status =>
        if eq_int status 200 then [EvLog Info "order notification sent"]
        else []
    | Raise _ => [EvLog Error "order notification failed"]
    end.

(** [_handle_order_message]: what it does, and whether the payload was an
    order message it has dealt with. Only the reads at the top can raise. *)
Definition handle_order_message (e : env) (message : pyval)
  : list event * bool :=
  match
    (m3 ← get message "3" (PDict []);
     red_reminder ← get m3 "redReminder" (PStr "");
     if negb (truthy red_reminder) then mret None
     else
       m1 ← getitem message "1";
       parts ← split m1 "@";
       user_id ← nth_str parts 0;
       mret (Some (red_reminder, user_id)))
  with
  | Raise _ => ([EvLog Debug "order message parse"], false)
  | Ok None => ([], false)
  | Ok (Some (red_reminder, user_id)) =>
      let user_url :=
        String.append "https://www.goofish.com/personal?userId=" user_id in
      if eq_str red_reminder WAIT_BUYER_PAY
      then ([EvLog Info "order: waiting for payment"], true)
      else if eq_str red_reminder TRADE_CLOSED
      then ([EvLog Info "order: closed"], true)
      else if eq_str red_reminder WAIT_SELLER_SHIP
      then (EvLog Info "order: paid" ::
            send_order_notification e user_id user_url message, true)
      else ([], false)
  end.

(** *** The handler's computations

    A method of the handler reads and writes the handler, does things to
    the outside world, and returns or raises. What was done before a raise
    stays done. *)
Definition M (A : Type) : Type :=
  MessageHandler -> exc A * MessageHandler * list event.

Definition ret {A} (a : A) : M A := fun h => (Ok a, h, []).

Definition bind {A B} (m : M A) (k : A -> M B) : M B :=
  fun h =>
    let '(r, h1, t1) := m h in
    match r with
    | Ok a => let '(r2, h2, t2) := k a h1 in (r2, h2, t1 ++ t2)
    | Raise x => (Raise x, h1, t1)
    end.

#[global] Instance M_ret : MRet M := @ret.
#[global] Instance M_bind : MBind M := fun _ _ k m => bind m k.

Definition emit (evs : list event) : M unit := fun h => (Ok tt, h, evs).
Definition lift {A} (x : exc A) : M A := fun h => (x, h, []).
Definition ask : M MessageHandler := fun h => (Ok h, h, []).
Definition state {A} (f : MessageHandler -> MessageHandler * A) : M A :=
  fun h => let '(h', a) := f h in (Ok a, h', []).

Definition outcome {A} (r : exc A * MessageHandler * list event) : exc A :=
  r.1.1.
Definition handler_after {A} (r : exc A * MessageHandler * list event)
  : MessageHandler := r.1.2.
Definition trace {A} (r : exc A * MessageHandler * list event)
  : list event := r.2.

(** [await ws.send(json.dumps(frame))] *)
Definition ws_send (ws : nat) (ws_open : bool) (frame : pyval) : M unit :=
  if ws_open then emit [EvSend ws frame]
  else (emit [EvSendFailed ws frame];; lift (Raise ConnectionClosed)).

(** The frame built by [send_msg]. *)
Definition chat_frame (e : env) (h : MessageHandler) (cid : string)
    (toid text : pyval) : pyval :=
  let text_data :=
    PDict [("contentType", PInt 1); ("text", PDict [("text", text)])] in
  PDict [
    ("lwp", PStr "/r/MessageSend/sendByReceiverScope");
    ("headers", PDict [("mid", PStr (generate_mid e))]);
    ("body", PList [
       PDict [
         ("uuid", PStr (generate_uuid e));
         ("cid", PStr (String.append cid "@goofish"));
         ("conversationType", PInt 1);
         ("content", PDict [
            ("contentType", PInt 101);
            ("custom", PDict [("type", PInt 1);
                              ("data", PStr (b64_json e text_data))])]);
         ("redPointPolicy", PInt 0);
         ("extension", PDict [("extJson", PStr "{}")]);
         ("ctx", PDict [("appVersion", PStr "1.0"); ("platform", PStr "web")]);
         ("mtags", PDict []);
         ("msgReadStatusSetting", PInt 1)];
       PDict [
         ("actualReceivers", PList [
            PStr (String.append (fmt e toid) "@goofish");
            PStr (String.append (myid h) "@goofish")])]])].

Definition send_msg (e : env) (ws : nat) (cid : string) (toid text : pyval)
  : M unit :=
  h ← ask;
  ws_send ws (ws_open_reply e) (chat_frame e h cid toid text).

(** The acknowledgement built at the top of [handle], when the frame has
    headers. *)
Definition ack_frame (e : env) (message_data : pyval) : exc (option pyval) :=
  has ← contains "headers" message_data;
  if has : bool then
    headers ← getitem message_data "headers";
    mid ← get headers "mid" (PStr (generate_mid e));
    sid ← get headers "sid" (PStr "");
    let copied :=
      omap (fun key => match headers with
                       | PDict d => (fun v => (key, v)) <$> assoc key d
                       | _ => None
                       end) ["app-key"; "ua"; "dt"] in
    mret (Some (PDict [("code", PInt 200);
                       ("headers", PDict ([("mid", mid); ("sid", sid)]
                                          ++ copied))]))
  else mret None.

(** The acknowledgement is sent inside [try: ... except Exception: pass]. *)
Definition send_ack (e : env) (ws : nat) (message_data : pyval) : M unit :=
  match ack_frame e message_data with
  | Ok (Some frame) =>
      emit [if ws_open_ack e then EvSend ws frame else EvSendFailed ws frame]
  | _ => ret tt
  end.

(** The decoding [try] block: [None] when the data is plain JSON already
    and there is nothing to handle. *)
Definition decode (e : env) (sync_data : pyval) : exc (option pyval) :=
  data ← getitem sync_data "data";
  if is_plain_json e data then mret None
  else message ← decrypt_json e data; mret (Some message).

(** [message["1"]["10"][k]] *)
Definition reminder_field (message : pyval) (k : string) : exc pyval :=
  m1 ← getitem message "1";
  m10 ← getitem m1 "10";
  getitem m10 k.

(** [url_info.split("itemId=")[1].split("&")[0] if "itemId=" in url_info
    else None] *)
Definition item_id_of (url_info : pyval) : exc (option string) :=
  has ← contains "itemId=" url_info;
  if has : bool then
    parts ← split url_info "itemId=";
    tail ← nth_str parts 1;
    item ← nth_str (str_split "&" tail) 0;
    mret (Some item)
  else mret None.

(** [message["1"]["2"].split('@')[0]] *)
Definition chat_id_of (message : pyval) : exc string :=
  m1 ← getitem message "1";
  m2 ← getitem m1 "2";
  parts ← split m2 "@";
  nth_str parts 0.

(** The item description handed to the agent: the two values the f-string
    interpolates. *)
Definition item_description_of (item_info : pyval) : exc (pyval * pyval) :=
  desc ← getitem item_info "desc";
  price ← getitem item_info "soldPrice";
  mret (desc, price).

(** The item lookup: the store first, the marketplace API when the store
    has nothing. [None] is the "not found" outcome. *)
Definition lookup_item (e : env) (item_id : string) : M (option pyval) :=
  item_info ← lift (db_get_item_info e item_id);
  if truthy item_info then mret (Some item_info)
  else
    api_result ← lift (api_get_item_info e item_id);
    found ← lift (has_data ← contains "data" api_result;
                  if has_data : bool then
                    data ← getitem api_result "data";
                    contains "itemDO" data
                  else mret false);
    if found : bool then
      item_info ← lift (data ← getitem api_result "data";
                        getitem data "itemDO");
      emit [EvSaveItem item_id item_info];;
      lift (db_save_item_info e item_id item_info);;
      mret (Some item_info)
    else
      emit [EvLog Warning "item info unavailable"];;
      mret None.

(** [handle] from the seller-command test on, for a fresh chat message
    whose fields have been read. *)
Definition dispatch (e : env) (ws : nat) (message : pyval)
    (send_user_name send_user_id send_message : pyval)
    (item_id chat_id : string) : M unit :=
  h ← ask;
  if eq_str send_user_id (myid h) then
    is_toggle ← lift (check_toggle_keywords h send_message);
    if is_toggle : bool then
      mode ← state (fun h => toggle_manual_mode h chat_id
                               (now_mode e) (now_enter e));
      emit [EvToggle chat_id mode;
            EvLog Info (if String.eqb mode "manual"
                        then "manual mode entered"
                        else "automatic replies resumed")]
    else
      emit [EvRecord chat_id (PStr (myid h)) item_id "assistant" send_message];;
      lift (add_message_by_chat e chat_id (PStr (myid h)) item_id
              "assistant" send_message);;
      emit [EvLog Info "seller replied by hand"]
  else
    emit [EvLog Info "user message";
          EvRecord chat_id send_user_id item_id "user" send_message];;
    lift (add_message_by_chat e chat_id send_user_id item_id
            "user" send_message);;
    active ← state (fun h => is_manual_mode h chat_id (now_mode e));
    if active : bool then emit [EvLog Info "conversation in manual mode"]
    else if is_system_message message then mret tt
    else
      found ← lookup_item e item_id;
      match found with
      | None => mret tt
      | Some item_info =>
          item_description ← lift (item_description_of item_info);
          let job := {| job_message := send_message;
                        job_item_description := item_description;
                        job_user_id := send_user_id;
                        job_user_name := send_user_name;
                        job_chat_id := chat_id |} in
          emit [EvSubmit job];;
          bot_reply ← lift (process_message e job);
          emit [EvLog Info "bot reply"];;
          send_msg e ws chat_id send_user_id bot_reply
      end.

(** The four fields read before the expiry test: creation time, sender
    name, sender id, text. Nothing guards these reads. *)
Definition read_chat_fields (message : pyval)
  : exc (Z * pyval * pyval * pyval) :=
  create_time ← (m1 ← getitem message "1";
                 m5 ← getitem m1 "5";
                 int_of m5);
  send_user_name ← reminder_field message "reminderTitle";
  send_user_id ← reminder_field message "senderUserId";
  send_message ← reminder_field message "reminderContent";
  mret (create_time, send_user_name, send_user_id, send_message).

(** The two values read after the expiry test: the item id in the
    reminder URL, if any, and the conversation id. *)
Definition read_routing (message : pyval) : exc (option string * string) :=
  url_info ← reminder_field message "reminderUrl";
  item_id ← item_id_of url_info;
  chat_id ← chat_id_of message;
  mret (item_id, chat_id).

(** [(time.time() * 1000 - create_time) > self.message_expire_time]: the
    product and the difference are floats, each rounded; a [create_time]
    too large for a float raises. *)
Definition expired (e : env) (h : MessageHandler) (create_time : Z)
  : exc bool :=
  now_ms ← float_mul_int (now_expire e) 1000;
  age ← float_sub_int now_ms create_time;
  mret (float_gt_int age (message_expire_time h)).

(** [handle] from "# 处理订单消息" on: the decoded payload [message]. *)
Definition handle_decoded (e : env) (ws : nat) (message : pyval) : M unit :=
  let '(order_events, handled) := handle_order_message e message in
  emit order_events;;
  if handled : bool then mret tt
  else if is_typing_status message then mret tt
  else if negb (is_chat_message message)
  then emit [EvLog Debug "not a chat message"]
  else
    '(create_time, send_user_name, send_user_id, send_message) ←
      lift (read_chat_fields message);
    h ← ask;
    is_expired ← lift (expired e h create_time);
    if is_expired : bool
    then emit [EvLog Debug "expired message dropped"]
    else
      '(item_id, chat_id) ← lift (read_routing message);
      match item_id with
      | None | Some "" => emit [EvLog Warning "no item id"]
      | Some item_id =>
          dispatch e ws message send_user_name send_user_id send_message
                   item_id chat_id
      end.

(** [handle]: [message_data] is the frame as parsed by the receive loop,
    [ws] the socket it came from. *)
Definition handle (e : env) (ws : nat) (message_data : pyval) : M unit :=
  send_ack e ws message_data;;
  if negb (is_sync_package message_data) then mret tt
  else
    sync_data ← lift (body ← getitem message_data "body";
                      pkg ← getitem body "syncPushPackage";
                      data ← getitem pkg "data";
                      getitem0 data);
    has_data ← lift (contains "data" sync_data);
    if negb has_data then mret tt
    else
      match decode e sync_data with
      | Raise _ => emit [EvLog Error "decrypt failed"]
      | Ok None => mret tt
      | Ok (Some message) => handle_decoded e ws message
      end.

End Handler.

(** ** [core/websocket_client.py] *)

Module Client.

Import Heartbeat Handler.

(** The socket object [self.ws] refers to: which connection opened it, and
    whether it is still open. *)
Record socket : Type := {
  sock_id : nat;
  sock_open : bool;
}.

Record XianyuLive : Type := {
  ws : option socket;
  heartbeat : HeartbeatManager;
  token_refresh_interval : Z;
  token_retry_interval : Z;
  last_token_refresh_time : Q;
  current_token : pyval;            (* [None] until a token is issued *)
  token_refresh_task : option task_state;
  connection_restart_flag : bool;
  handler : MessageHandler;
}.

Definition set_ws (c : XianyuLive) (s : option socket) : XianyuLive :=
  {| ws := s; heartbeat := heartbeat c;
     token_refresh_interval := token_refresh_interval c;
     token_retry_interval := token_retry_interval c;
     last_token_refresh_time := last_token_refresh_time c;
     current_token := current_token c;
     token_refresh_task := token_refresh_task c;
     connection_restart_flag := connection_restart_flag c;
     handler := handler c |}.

Definition set_heartbeat (c : XianyuLive) (hb : HeartbeatManager) : XianyuLive :=
  {| ws := ws c; heartbeat := hb;
     token_refresh_interval := token_refresh_interval c;
     token_retry_interval := token_retry_interval c;
     last_token_refresh_time := last_token_refresh_time c;
     current_token := current_token c;
     token_refresh_task := token_refresh_task c;
     connection_restart_flag := connection_restart_flag c;
     handler := handler c |}.

Definition set_token (c : XianyuLive) (tok : pyval) (t : Q) : XianyuLive :=
  {| ws := ws c; heartbeat := heartbeat c;
     token_refresh_interval := token_refresh_interval c;
     token_retry_interval := token_retry_interval c;
     last_token_refresh_time := t;
     current_token := tok;
     token_refresh_task := token_refresh_task c;
     connection_restart_flag := connection_restart_flag c;
     handler := handler c |}.

Definition set_refresh_task (c : XianyuLive) (t : option task_state)
  : XianyuLive :=
  {| ws := ws c; heartbeat := heartbeat c;
     token_refresh_interval := token_refresh_interval c;
     token_retry_interval := token_retry_interval c;
     last_token_refresh_time := last_token_refresh_time c;
     current_token := current_token c;
     token_refresh_task := t;
     connection_restart_flag := connection_restart_flag c;
     handler := handler c |}.

Definition set_restart_flag (c : XianyuLive) (b : bool) : XianyuLive :=
  {| ws := ws c; heartbeat := heartbeat c;
     token_refresh_interval := token_refresh_interval c;
     token_retry_interval := token_retry_interval c;
     last_token_refresh_time := last_token_refresh_time c;
     current_token := current_token c;
     token_refresh_task := token_refresh_task c;
     connection_restart_flag := b;
     handler := handler c |}.

Definition set_handler (c : XianyuLive) (h : MessageHandler) : XianyuLive :=
  {| ws := ws c; heartbeat := heartbeat c;
     token_refresh_interval := token_refresh_interval c;
     token_retry_interval := token_retry_interval c;
     last_token_refresh_time := last_token_refresh_time c;
     current_token := current_token c;
     token_refresh_task := token_refresh_task c;
     connection_restart_flag := connection_restart_flag c;
     handler := h |}.

(** The access token inside what [get_token] returned, when the result
    has the shape [{"data": {"accessToken": ...}}]. *)
Definition access_token (token_result : pyval) : exc (option pyval) :=
  has_data ← contains "data" token_result;
  if has_data : bool then
    data ← getitem token_result "data";
    has_token ← contains "accessToken" data;
    if has_token : bool then
      token ← getitem data "accessToken";
      mret (Some token)
    else mret None
  else mret None.

(** [refresh_token]: [token_result] is what [self.xianyu.get_token] does,
    [now] the clock read after a token was found. Returns the new token,
    or [None]. *)
Definition refresh_token (c : XianyuLive) (token_result : exc pyval) (now : Q)
  : XianyuLive * list event * pyval :=
  match token_result ≫= access_token with
  | Ok (Some token) =>
      (set_token c token now,
       [EvLog Info "refreshing token"; EvLog Info "token refreshed"],
       token)
  | Ok None =>
      (c, [EvLog Info "refreshing token"; EvLog Error "token refresh failed"],
       PNone)
  | Raise _ =>
      (c, [EvLog Info "refreshing token"; EvLog Error "token refresh raised"],
       PNone)
  end.

(** How one pass through the body of [token_refresh_loop] ends. *)
Inductive refresh_exit : Type :=
| RefreshBreak                 (* the token was rotated: [break] *)
| RefreshAgainAfter (s : Z).   (* sleep [s] seconds, then the next pass *)

Definition close_socket (c : XianyuLive) : XianyuLive * list event :=
  match ws c with
  | Some s => (set_ws c (Some {| sock_id := sock_id s; sock_open := false |}),
               [EvClose (sock_id s)])
  | None => (c, [])
  end.

(** One pass through the body of [token_refresh_loop]. [now] is the clock
    read by the test, [token_result] and [refreshed_at] are handed to
    [refresh_token] when the refresh is due. *)
Definition token_refresh_pass (c : XianyuLive) (now : Q)
    (token_result : exc pyval) (refreshed_at : Q)
  : XianyuLive * list event * refresh_exit :=
  if Qgeb (now - last_token_refresh_time c)
          (inject_Z (token_refresh_interval c))
  then
    let '(c1, ev1, token) := refresh_token c token_result refreshed_at in
    if truthy token then
      let c2 := set_restart_flag c1 true in
      let '(c3, ev3) := close_socket c2 in
      (c3, EvLog Info "token about to expire" :: ev1 ++ ev3, RefreshBreak)
    else
      (c1, EvLog Info "token about to expire" :: ev1
           ++ [EvSleep (token_retry_interval c1)],
       RefreshAgainAfter (token_retry_interval c1))
  else (c, [EvSleep 60], RefreshAgainAfter 60).

(** *** The tasks of one connection *)

(** One pass of the heartbeat loop of the connection [self.ws] refers to.
    A pass that breaks ends the task. There is no loop without a
    connection. *)
Definition heartbeat_pass (c : XianyuLive) (mid : string) (current sent_at : Q)
  : option (XianyuLive * list event * loop_exit) :=
  s ← ws c;
  let '(hb, evs, exit) :=
    loop_body (heartbeat c) (sock_id s) (sock_open s) mid current sent_at in
  let hb' := match exit with
             | Sleep1 => hb
             | _ => set_task hb (Some Finished)
             end in
  Some (set_heartbeat c hb', evs, exit).

(** [main], from the socket being there to the receive loop: the two
    tasks are started on the socket [sock], the clock being read twice by
    [heartbeat.start]. *)
Definition start_tasks (c : XianyuLive) (sock : nat) (t1 t2 : Q) : XianyuLive :=
  let c1 := set_ws c (Some {| sock_id := sock; sock_open := true |}) in
  let c2 := set_heartbeat c1 (Heartbeat.start (heartbeat c1) t1 t2) in
  set_refresh_task c2 (Some Running).

Inductive recv_exit : Type :=
| RecvBreak   (* leave the receive loop *)
| RecvNext.   (* wait for the next frame *)

(** The body of the receive loop for one frame off the socket [sock].
    [parsed] is what [json.loads] makes of the frame, [now] the clock when
    the heartbeat manager looks at it, [e] what [handle] meets. Whatever
    is raised inside is logged, and the loop goes on. *)
Definition recv_step (c : XianyuLive) (sock : nat) (parsed : exc pyval)
    (now : Q) (e : env) : XianyuLive * list event * recv_exit :=
  if connection_restart_flag c then (c, [], RecvBreak)
  else
    match parsed with
    | Raise _ => (c, [EvLog Error "frame is not JSON"], RecvNext)
    | Ok message_data =>
        match handle_response (heartbeat c) message_data now with
        | Raise _ => (c, [EvLog Error "frame handling raised"], RecvNext)
        | Ok (hb, true) =>
            (set_heartbeat c hb, [EvLog Debug "heartbeat response"], RecvNext)
        | Ok (hb, false) =>
            let '(r, h, evs) := handle e sock message_data (handler c) in
            (set_handler (set_heartbeat c hb) h,
             evs ++ (if raised r then [EvLog Error "frame handling raised"]
                     else []),
             RecvNext)
        end
    end.

(** How the [try] block of [main] is left. *)
Inductive connection_end : Type :=
| EndClosed                (* [websockets.exceptions.ConnectionClosed] *)
| EndError (x : pyexc)     (* any other exception: connect, init, loop *)
| EndLoop.                 (* the receive loop ended or was left *)

(** [task.cancel()] then [await task]. *)
Definition cancel_and_await (t : option task_state) : option task_state :=
  match t with
  | Some Running => Some Cancelled
  | ended => ended
  end.

(** The [finally] block of [main]. *)
Definition finally_block (c : XianyuLive) : XianyuLive * list event :=
  let c1 := set_heartbeat c (Heartbeat.stop (heartbeat c)) in
  let c2 := set_refresh_task c1 (cancel_and_await (token_refresh_task c1)) in
  if connection_restart_flag c2
  then (c2, [EvLog Info "restarting the connection"])
  else (c2, [EvLog Info "reconnecting in 5 seconds"; EvSleep 5]).

(** The end of one turn of [main]'s loop: the [except] clause that
    matches, then the [finally] block. *)
Definition connection_ended (c : XianyuLive) (how : connection_end)
  : XianyuLive * list event :=
  let logged := match how with
                | EndClosed => [EvLog Warning "connection closed"]
                | EndError _ => [EvLog Error "connection error"]
                | EndLoop => []
                end in
  let '(c', evs) := finally_block c in
  (c', logged ++ evs).

End Client.


(** * The vocabulary of the properties *)

Module Spec.

Import Heartbeat Handler Client.

(** ** The registry's operations, each with the clock values it reads *)
Inductive registry_op : Type :=
| OpEnter (chat_id : string) (now : Q)
| OpExit (chat_id : string)
| OpToggle (chat_id : string) (now entered : Q)
| OpIsActive (chat_id : string) (now : Q).

Definition apply_op (h : MessageHandler) (op : registry_op) : MessageHandler :=
  match op with
  | OpEnter chat_id now => enter_manual_mode h chat_id now
  | OpExit chat_id => exit_manual_mode h chat_id
  | OpToggle chat_id now entered => (toggle_manual_mode h chat_id now entered).1
  | OpIsActive chat_id now => (is_manual_mode h chat_id now).1
  end.

Definition run_ops (h : MessageHandler) (ops : list registry_op)
  : MessageHandler :=
  fold_left apply_op ops h.

(** The conversations in manual mode are those with an entered-at time. *)
Definition consistent (h : MessageHandler) : Prop :=
  manual_mode_conversations h = dom (manual_mode_timestamps h).

(** ** From the frame to the payload *)

(** The payload [handle] goes on with after the acknowledgement: the
    frame is a sync package, its first entry has data, and the data had
    to be decrypted and parsed. *)
Definition payload_of (e : env) (message_data : pyval) : option pyval :=
  if is_sync_package message_data then
    match (body ← getitem message_data "body";
           pkg ← getitem body "syncPushPackage";
           data ← getitem pkg "data";
           sync_data ← getitem0 data;
           has_data ← contains "data" sync_data;
           if has_data : bool then decode e sync_data else mret None)
    with
    | Ok (Some message) => Some message
    | _ => None
    end
  else None.

(** ** Reading a trace *)

(** The effects that make an automated reply: work handed to the worker
    pool, and a frame written (or attempted) on a socket. *)
Definition is_reply_effect (ev : event) : bool :=
  match ev with
  | EvSubmit _ | EvSend _ _ | EvSendFailed _ _ => true
  | _ => false
  end.

Definition is_record (ev : event) : bool :=
  match ev with EvRecord _ _ _ _ _ => true | _ => false end.

Definition is_toggle (ev : event) : bool :=
  match ev with EvToggle _ _ => true | _ => false end.

Definition is_submit (ev : event) : bool :=
  match ev with EvSubmit _ => true | _ => false end.

Definition is_delivery (ev : event) : bool :=
  match ev with EvSend _ _ => true | _ => false end.

Definition is_close (ev : event) : bool :=
  match ev with EvClose _ => true | _ => false end.

Definition none_of (p : event -> bool) (evs : list event) : Prop :=
  Forall (fun ev => p ev = false) evs.

Definition no_reply : list event -> Prop := none_of is_reply_effect.
Definition no_record : list event -> Prop := none_of is_record.
Definition no_toggle : list event -> Prop := none_of is_toggle.

(** Every write, delivered or not, is on the socket [ws]. *)
Definition only_on (ws : nat) (evs : list event) : Prop :=
  Forall (fun ev => match ev with
                    | EvSend s _ | EvSendFailed s _ => s = ws
                    | _ => True
                    end) evs.

(** The calls of the webhook in a trace, in order. *)
Definition notifications (evs : list event) : list (string * order_card) :=
  omap (fun ev => match ev with
                  | EvNotify url card => Some (url, card)
                  | _ => None
                  end) evs.

(** The sleeps in a trace, in order. *)
Definition sleeps (evs : list event) : list Z :=
  omap (fun ev => match ev with EvSleep s => Some s | _ => None end) evs.

(** The correlation ids of the heartbeat frames written in a trace. *)
Definition sent_heartbeat_mids (evs : list event) : list string :=
  omap (fun ev =>
          match ev with
          | EvSend _ (PDict [("lwp", PStr "/!");
                             ("headers", PDict [("mid", PStr mid)])]) =>
              Some mid
          | _ => None
          end) evs.


(** ** Frames the heartbeat manager takes for responses *)

(** ["mid" in headers]: a key of an object, an element of a list, a part
    of a str. *)
Definition has_mid (headers : pyval) : Prop :=
  match headers with
  | PDict hs => is_Some (assoc "mid" hs)
  | PList l => PStr "mid" ∈ l
  | PStr s => str_contains "mid" s = true
  | _ => False
  end.

(** An object whose [headers] hold [mid] and whose [code] equals 200. *)
Definition acknowledges (frame : pyval) : Prop :=
  ∃ d headers code,
    frame = PDict d
    ∧ assoc "headers" d = Some headers
    ∧ has_mid headers
    ∧ assoc "code" d = Some code
    ∧ eq_int code 200 = true.

(** ** The session as the tasks leave it *)

(** A teardown has been asked for: the socket is closed, or is being
    closed, or the restart flag is up. *)
Definition teardown_signalled (c : XianyuLive) (evs : list event) : bool :=
  match ws c with
  | Some s => negb (sock_open s)
  | None => true
  end
  || connection_restart_flag c
  || existsb is_close evs.

(** A token result of the expected shape:
    [{"data": {"accessToken": token, ...}, ...}]. *)
Definition well_formed_token (token_result : pyval) : Prop :=
  ∃ d data token,
    token_result = PDict d
    ∧ assoc "data" d = Some (PDict data)
    ∧ assoc "accessToken" data = Some token.

(** The token-issuing call raises, or returns something that is not of
    the expected shape. *)
Definition malformed (token_result : exc pyval) : Prop :=
  match token_result with
  | Raise _ => True
  | Ok r => ¬ well_formed_token r
  end.

(** A refresh attempt fails when the token-issuing call gives no token
    that counts as true: it raises, its result is not of the expected
    shape, or the token in it is empty or null. *)
Definition refresh_fails (token_result : exc pyval) : Prop :=
  ∀ d data token,
    token_result = Ok (PDict d) →
    assoc "data" d = Some (PDict data) →
    assoc "accessToken" data = Some token →
    truthy token = false.

(** The first piece of [s.split(sep)]. *)
Definition before (sep s : string) : string :=
  default EmptyString (head (str_split sep s)).

End Spec.

(** * Sample inputs *)

Module Sample.

Import Heartbeat Handler Client Spec.

(** A handler with the default tunables: one hour of takeover, the toggle
    phrase "。", five minutes of message life. *)
Definition seller : MessageHandler := Handler.init "seller" 3600 "。" 300000.

(** A decoded chat payload. *)
Definition chat (conversation : string) (create_time : Z)
    (sender_name sender_id text url : string) : pyval :=
  PDict [("1", PDict [("2", PStr conversation);
                      ("5", PInt create_time);
                      ("10", PDict [("reminderTitle", PStr sender_name);
                                    ("senderUserId", PStr sender_id);
                                    ("reminderContent", PStr text);
                                    ("reminderUrl", PStr url)])])].

Definition item_url : string := "fleamarket://message_chat?itemId=42&peer=7".

(** A buyer's message, one second old when it is handled. *)
Definition buyer_says_hi : pyval :=
  chat "c1@goofish" 999000 "buyer" "buyer-7" "hi" item_url.

(** The seller typing only blanks. *)
Definition seller_types_blanks : pyval :=
  chat "c1@goofish" 999000 "me" "seller" "   " item_url.

(** A payload with the reminder content and nothing else. *)
Definition bare_reminder : pyval :=
  PDict [("1", PDict [("10", PDict [("reminderContent", PStr "hi")])])].

(** An order payload with the given status label. *)
Definition order (label : string) : pyval :=
  PDict [("1", PStr "buyer-7@goofish");
         ("3", PDict [("redReminder", PStr label);
                      ("title", PStr "a phone");
                      ("price", PStr "100")])].

(** The frame that carries a payload: the sample environments take the
    data of the sync package for the payload itself. *)
Definition sync_frame (payload : pyval) : pyval :=
  PDict [("headers", PDict [("mid", PStr "m-17"); ("sid", PStr "s-3")]);
         ("body", PDict [("syncPushPackage",
                          PDict [("data", PList [PDict [("data", payload)]])])])].

Definition phone : pyval :=
  PDict [("desc", PStr "a phone"); ("soldPrice", PStr "100")].

(** Everything answers, the clock stands at 1000.0 s, the socket is open. *)
Definition calm : env :=
  {| now_expire := float_of_Z 1000; now_mode := 1000; now_enter := 1000;
     ws_open_ack := true; ws_open_reply := true;
     generate_mid := "mid-1"; generate_uuid := "uuid-1";
     str_of := fun _ => "?"; b64_json := fun _ => "e30=";
     is_plain_json := fun _ => false;
     decrypt_json := fun data => Ok data;
     webhook_url := "https://hook.example/notify";
     post_webhook := fun _ _ => Ok (PInt 200);
     add_message_by_chat := fun _ _ _ _ _ => Ok ();
     db_get_item_info := fun _ => Ok phone;
     db_save_item_info := fun _ _ => Ok ();
     api_get_item_info := fun _ => Raise (ExternalError "api");
     process_message := fun _ => Ok (PStr "hello") |}.

(** The same, but the socket is closed by the time the reply is there. *)
Definition closed_meanwhile : env :=
  {| now_expire := float_of_Z 1000; now_mode := 1000; now_enter := 1000;
     ws_open_ack := true; ws_open_reply := false;
     generate_mid := "mid-1"; generate_uuid := "uuid-1";
     str_of := fun _ => "?"; b64_json := fun _ => "e30=";
     is_plain_json := fun _ => false;
     decrypt_json := fun data => Ok data;
     webhook_url := "https://hook.example/notify";
     post_webhook := fun _ _ => Ok (PInt 200);
     add_message_by_chat := fun _ _ _ _ _ => Ok ();
     db_get_item_info := fun _ => Ok phone;
     db_save_item_info := fun _ _ => Ok ();
     api_get_item_info := fun _ => Raise (ExternalError "api");
     process_message := fun _ => Ok (PStr "hello") |}.

(** The same as [calm], but no webhook is configured. *)
Definition no_webhook : env :=
  {| now_expire := float_of_Z 1000; now_mode := 1000; now_enter := 1000;
     ws_open_ack := true; ws_open_reply := true;
     generate_mid := "mid-1"; generate_uuid := "uuid-1";
     str_of := fun _ => "?"; b64_json := fun _ => "e30=";
     is_plain_json := fun _ => false;
     decrypt_json := fun data => Ok data;
     webhook_url := "";
     post_webhook := fun _ _ => Ok (PInt 200);
     add_message_by_chat := fun _ _ _ _ _ => Ok ();
     db_get_item_info := fun _ => Ok phone;
     db_save_item_info := fun _ _ => Ok ();
     api_get_item_info := fun _ => Raise (ExternalError "api");
     process_message := fun _ => Ok (PStr "hello") |}.

(** A client that has not connected yet, with the default tunables. *)
Definition fresh_client : XianyuLive :=
  {| ws := None;
     heartbeat := Heartbeat.init 15 5;
     token_refresh_interval := 3600;
     token_retry_interval := 300;
     last_token_refresh_time := 0;
     current_token := PNone;
     token_refresh_task := None;
     connection_restart_flag := false;
     handler := seller |}.

(** Connected on socket 1 at time 100 with a token issued then. *)
Definition connected : XianyuLive :=
  start_tasks (set_token fresh_client (PStr "token-1") 100) 1 100 100.

(** A frame that looks like an acknowledgement, with a correlation id
    that no heartbeat carried. *)
Definition stray_ack : pyval :=
  PDict [("headers", PDict [("mid", PStr "never-sent")]); ("code", PInt 200)].

End Sample.

(** * The rest of the session layer, and what the reply path calls *)

(** ** [core/websocket_client.py]: registration and the turn of [main] *)

Module Session.

Import Heartbeat Handler Client.

(** [int(time.time() * 1000)] *)
Definition millis (now : float) : exc Z :=
  now_ms ← float_mul_int now 1000;
  int_of_float now_ms.

(** What a call of [init] meets: the clock of the staleness test, what
    [get_token] does and the clock after it, the generated correlation
    id, whether the socket takes each of the two frames, and the two
    clock values read for the second frame. *)
Record init_env : Type := {
  init_now : Q;
  init_token_result : exc pyval;
  init_refreshed_at : Q;
  init_mid : string;
  init_open_reg : bool;
  init_open_sync : bool;
  init_pts_now : float;
  init_stamp_now : float;
}.

Definition APP_KEY : string := "444e9908a51d1cb236a27862abc769c9".

Definition USER_AGENT : string :=
  "Mozilla/5.0 (Windows NT 10.0; Win64; x64) AppleWebKit/537.36 Chrome/133.0.0.0 Safari/537.36 DingTalk(2.1.5)".

Definition reg_frame (token : pyval) (device_id mid : string) : pyval :=
  PDict [("lwp", PStr "/reg");
         ("headers", PDict [("cache-header", PStr "app-key token ua wv");
                            ("app-key", PStr APP_KEY);
                            ("token", token);
                            ("ua", PStr USER_AGENT);
                            ("dt", PStr "j");
                            ("wv", PStr "im:3,au:3,sy:6");
                            ("sync", PStr "0,0;0;0;");
                            ("did", PStr device_id);
                            ("mid", PStr mid)])].

(** The second frame of [init]: [pts_now] and [stamp_now] are the two
    readings of the clock, in the order the dict is built. The [int] of a
    product that is not finite raises. *)
Definition sync_frame (pts_now stamp_now : float) : exc pyval :=
  pts_ms ← millis pts_now;
  stamp_ms ← millis stamp_now;
  mret (PDict [("lwp", PStr "/r/SyncStatus/ackDiff");
               ("headers", PDict [("mid", PStr "5701741704675979 0")]);
               ("body", PList [PDict [
                  ("pipeline", PStr "sync"); ("tooLong2Tag", PStr "PNM,1");
                  ("channel", PStr "sync"); ("topic", PStr "sync");
                  ("highPts", PInt 0);
                  ("pts", PInt (pts_ms * 1000));
                  ("seq", PInt 0);
                  ("timestamp", PInt stamp_ms)]])]).

(** [not self.current_token or (time.time() - self.last_token_refresh_time)
    >= self.token_refresh_interval] *)
Definition wants_token (c : XianyuLive) (now : Q) : bool :=
  negb (truthy (current_token c))
  || Qgeb (now - last_token_refresh_time c)
          (inject_Z (token_refresh_interval c)).

(** [init]: [device_id] is [self.device_id], fixed when the client is
    built; [ws] the socket just opened. *)
Definition init (c : XianyuLive) (device_id : string) (ws : nat)
    (ie : init_env) : XianyuLive * list event * exc unit :=
  let '(c1, ev1) :=
    if wants_token c (init_now ie)
    then let '(c1, ev1, _) :=
           refresh_token c (init_token_result ie) (init_refreshed_at ie) in
         (c1, ev1)
    else (c, []) in
  if negb (truthy (current_token c1))
  then (c1, ev1, Raise (ExternalError "Token获取失败"))
  else
    let reg := reg_frame (current_token c1) device_id (init_mid ie) in
    if negb (init_open_reg ie)
    then (c1, ev1 ++ [EvSendFailed ws reg], Raise ConnectionClosed)
    else
      match sync_frame (init_pts_now ie) (init_stamp_now ie) with
      | Raise x => (c1, ev1 ++ [EvSend ws reg; EvSleep 1], Raise x)
      | Ok sync =>
          if negb (init_open_sync ie)
          then (c1, ev1 ++ [EvSend ws reg; EvSleep 1; EvSendFailed ws sync],
                Raise ConnectionClosed)
          else (c1, ev1 ++ [EvSend ws reg; EvSleep 1; EvSend ws sync;
                            EvLog Info "registered"],
                Ok ())
      end.

(** The [except] clause an exception of the [try] block of [main] falls
    into. *)
Definition end_of (x : pyexc) : connection_end :=
  match x with
  | ConnectionClosed => EndClosed
  | _ => EndError x
  end.

(** A turn of [main] up to the receive loop: the flag is lowered, the
    socket [sock] is opened ([connected] tells whether
    [websockets.connect] succeeds), the client registers, and the two
    tasks are started. [None] when the receive loop is entered, otherwise
    how the [try] block was left. *)
Definition open_turn (c : XianyuLive) (device_id : string) (sock : nat)
    (connected : exc unit) (ie : init_env) (t1 t2 : Q)
  : XianyuLive * list event * option connection_end :=
  let c0 := set_restart_flag c false in
  match connected with
  | Raise x => (c0, [], Some (end_of x))
  | Ok _ =>
      let c1 := set_ws c0 (Some {| sock_id := sock; sock_open := true |}) in
      let '(c2, evs, r) := init c1 device_id sock ie in
      match r with
      | Raise x => (c2, evs, Some (end_of x))
      | Ok _ => (start_tasks c2 sock t1 t2, evs, None)
      end
  end.

End Session.

(** ** [core/websocket_client.py]: [main] from turn to turn

    The three coroutines of the client, [main] with its receive loop, the
    heartbeat loop and the refresh loop, run on one event loop: what
    happens on a connection is a sequence of frames handled and of passes
    of the two loops. A handling may overlap with passes of the loops: the
    handling reads nothing of the client but the handler, what the passes
    do to the socket meanwhile is in the environment of the handling, and
    their events are listed after those of the handling. Each event of a
    run is paired with the socket [self.ws] refers to when it happens;
    [self.ws] is assigned by [main] only, at the start of a turn. *)

Module Run.

Import Heartbeat Handler Client Session.

Inductive happening : Type :=
| Frame (parsed : exc pyval) (now : Q) (e : env)
| HeartbeatPass (mid : string) (current sent_at : Q)
| RefreshPass (now : Q) (token_result : exc pyval) (refreshed_at : Q).

(** One turn of [main]: the socket [websockets.connect] opens, whether it
    does, what [init] meets, the two readings of the clock by
    [heartbeat.start], what happens on the connection, and how the receive
    loop ends if nothing makes it leave. *)
Record turn : Type := {
  turn_sock : nat;
  turn_connected : exc unit;
  turn_init : init_env;
  turn_started : Q * Q;
  turn_happenings : list happening;
  turn_end : connection_end;
}.

(** The socket [self.ws] refers to. *)
Definition current (c : XianyuLive) : option nat := sock_id <$> ws c.

Definition tag (c : XianyuLive) (evs : list event)
  : list (option nat * event) :=
  (fun ev => (current c, ev)) <$> evs.

(** A pass of the heartbeat loop, while its task runs. *)
Definition background_heartbeat (c : XianyuLive) (mid : string)
    (now sent_at : Q) : XianyuLive * list event :=
  match task (heartbeat c), heartbeat_pass c mid now sent_at with
  | Some Running, Some (c1, evs, _) => (c1, evs)
  | _, _ => (c, [])
  end.

(** A pass of the refresh loop, while its task runs; the pass that
    rotates the token ends the task. *)
Definition background_refresh (c : XianyuLive) (now : Q)
    (token_result : exc pyval) (refreshed_at : Q) : XianyuLive * list event :=
  match token_refresh_task c with
  | Some Running =>
      let '(c1, evs, exit) :=
        token_refresh_pass c now token_result refreshed_at in
      (match exit with
       | RefreshBreak => set_refresh_task c1 (Some Finished)
       | RefreshAgainAfter _ => c1
       end, evs)
  | _ => (c, [])
  end.

(** The receive loop on the socket [sock], with the passes of the two
    tasks in between. *)
Fixpoint receive (c : XianyuLive) (sock : nat) (hs : list happening)
    (ended : connection_end)
  : XianyuLive * list (option nat * event) * connection_end :=
  match hs with
  | [] => (c, [], ended)
  | Frame parsed now e :: rest =>
      let '(c1, evs, exit) := recv_step c sock parsed now e in
      match exit with
      | RecvBreak => (c1, tag c evs, EndLoop)
      | RecvNext =>
          let '(c2, evs2, how) := receive c1 sock rest ended in
          (c2, tag c evs ++ evs2, how)
      end
  | HeartbeatPass mid now sent_at :: rest =>
      let '(c1, evs) := background_heartbeat c mid now sent_at in
      let '(c2, evs2, how) := receive c1 sock rest ended in
      (c2, tag c evs ++ evs2, how)
  | RefreshPass now token_result refreshed_at :: rest =>
      let '(c1, evs) := background_refresh c now token_result refreshed_at in
      let '(c2, evs2, how) := receive c1 sock rest ended in
      (c2, tag c evs ++ evs2, how)
  end.

(** [main]: one turn after the other. *)
Fixpoint main (c : XianyuLive) (device_id : string) (turns : list turn)
  : list (option nat * event) :=
  match turns with
  | [] => []
  | t :: rest =>
      let '(c1, evs1, gone) :=
        open_turn c device_id (turn_sock t) (turn_connected t) (turn_init t)
          (turn_started t).1 (turn_started t).2 in
      let '(c2, evs2, how) :=
        match gone with
        | Some how => (c1, [], how)
        | None => receive c1 (turn_sock t) (turn_happenings t) (turn_end t)
        end in
      let '(c3, evs3) := connection_ended c2 how in
      tag c1 evs1 ++ evs2 ++ tag c2 evs3 ++ main c3 device_id rest
  end.

End Run.

(** ** [agent/monitor.py] *)

Module Monitor.

(** The call being recorded: [self._current_call]. *)
Record call : Type := {
  start_time : float;
  thread_id : string;
  stage : string;
  tools_called : list string;
  input_tokens : Z;
  output_tokens : Z;
}.

Record Monitor : Type := {
  current_call : option call;
  fallback_index : nat;
}.

(** The row handed to [save_metrics]. *)
Record metrics : Type := {
  m_timestamp : string;
  m_thread_id : string;
  m_stage : string;
  m_input_tokens : Z;
  m_output_tokens : Z;
  m_total_tokens : Z;
  m_latency_ms : float;
  m_success : bool;
  m_error : option string;
  m_tools_called : list string;
}.

Inductive monitor_event : Type :=
| SaveMetrics (row : metrics)       (* [self._get_db().save_metrics(...)] *)
| SaveFailed                        (* the warning of the [except] clause *)
| CallDone (total : Z) (success : bool).  (* the closing info log *)

Definition FALLBACK_RESPONSES : list string :=
  ["稍等一下，我确认一下再回复你～";
   "不好意思，系统有点忙，稍后回复你";
   "让我想想，稍等哈～"].

Definition new : Monitor := {| current_call := None; fallback_index := 0 |}.

Definition start_call (m : Monitor) (now : float) (thread_id stage : string)
  : Monitor :=
  {| current_call := Some {| start_time := now; thread_id := thread_id;
                             stage := stage; tools_called := [];
                             input_tokens := 0; output_tokens := 0 |};
     fallback_index := fallback_index m |}.

Definition record_tokens (m : Monitor) (input output : Z) : Monitor :=
  match current_call m with
  | Some k =>
      {| current_call := Some {| start_time := start_time k;
                                 thread_id := thread_id k;
                                 stage := stage k;
                                 tools_called := tools_called k;
                                 input_tokens := input;
                                 output_tokens := output |};
         fallback_index := fallback_index m |}
  | None => m
  end.

Definition record_tool_call (m : Monitor) (tool_name : string) : Monitor :=
  match current_call m with
  | Some k =>
      {| current_call := Some {| start_time := start_time k;
                                 thread_id := thread_id k;
                                 stage := stage k;
                                 tools_called := tools_called k ++ [tool_name];
                                 input_tokens := input_tokens k;
                                 output_tokens := output_tokens k |};
         fallback_index := fallback_index m |}
  | None => m
  end.

(** [(time.time() - start_time) * 1000] *)
Definition latency (start now : float) : float :=
  SFmul prec emax (SFsub prec emax now start) (float_of_Z 1000).

(** [end_call]: [now] is the clock, [stamp] the ISO time of the row,
    [round2] the rounding of the latency to two places, [saved] what
    [save_metrics] does. *)
Definition end_call (m : Monitor) (now : float) (stamp : string)
    (round2 : float -> float) (saved : exc unit) (success : bool)
    (error : option string) : Monitor * list monitor_event :=
  match current_call m with
  | None => (m, [])
  | Some k =>
      let latency_ms := latency (start_time k) now in
      let total := (input_tokens k + output_tokens k)%Z in
      let row := {| m_timestamp := stamp;
                    m_thread_id := thread_id k;
                    m_stage := stage k;
                    m_input_tokens := input_tokens k;
                    m_output_tokens := output_tokens k;
                    m_total_tokens := total;
                    m_latency_ms := round2 latency_ms;
                    m_success := success;
                    m_error := error;
                    m_tools_called := tools_called k |} in
      ({| current_call := None; fallback_index := fallback_index m |},
       SaveMetrics row
       :: (if raised saved then [SaveFailed] else [])
       ++ [CallDone total success])
  end.

Definition get_fallback_response (m : Monitor) : exc (Monitor * string) :=
  match FALLBACK_RESPONSES !! fallback_index m with
  | Some response =>
      Ok ({| current_call := current_call m;
             fallback_index :=
               (fallback_index m + 1) mod length FALLBACK_RESPONSES |},
          response)
  | None => Raise IndexError
  end.

End Monitor.

(** ** [agent/evaluation.py] *)

Module Evaluator.

Record Evaluator : Type := {
  round_counts : gmap string Z;
}.

Definition new : Evaluator := {| round_counts := ∅ |}.

Inductive evaluator_event : Type :=
| UpdateStats (thread_id : string) (total_rounds : Z)
    (stage bargain_count : pyval)
| UpdateFailed.

(** [update_conversation]: [updated] is what
    [update_conversation_stats] does. *)
Definition update_conversation (ev : Evaluator) (thread_id : string)
    (stage bargain_count : pyval) (updated : exc unit)
  : Evaluator * list evaluator_event :=
  let rounds := (default 0 (round_counts ev !! thread_id) + 1)%Z in
  ({| round_counts := <[thread_id := rounds]> (round_counts ev) |},
   UpdateStats thread_id rounds stage bargain_count
   :: (if raised updated then [UpdateFailed] else [])).

End Evaluator.

(** ** [agent/notify.py] *)

Module Notify.

(** What [requests.post] returns: the status code, and what [resp.json()]
    does. *)
Record response : Type := {
  status_code : pyval;
  json : exc pyval;
}.

Record outcome : Type := {
  success : bool;
  message : pyval;
}.

(** The card for a message; [message] and [notice_type] are strs, as the
    signature and the tool that calls it have them. *)
Definition card_of (message notice_type : string) : pyval :=
  let handover := String.eqb notice_type "handover" in
  let template := if handover then "orange" else "yellow" in
  let title := if handover then "需要转人工" else "准备接单" in
  PDict [("msg_type", PStr "interactive");
         ("card", PDict [
            ("header", PDict [
               ("title", PDict [("tag", PStr "plain_text");
                                ("content", PStr title)]);
               ("template", PStr template)]);
            ("elements", PList (
               PDict [("tag", PStr "div");
                      ("text", PDict [("tag", PStr "lark_md");
                                      ("content", PStr message)])]
               :: (if handover
                   then [PDict [("tag", PStr "note");
                                ("elements", PList [
                                   PDict [("tag", PStr "plain_text");
                                          ("content",
                                           PStr "请及时跟进，可能需要人工定价或确认需求")]])]]
                   else [])))])].

(** [_send_feishu_card]: [webhook_url] is [FEISHU_WEBHOOK_URL], [post]
    what [requests.post] does with the card, [str_of_exc] the text of an
    exception. The second component lists the cards posted. *)
Definition send_feishu_card (webhook_url : string)
    (post : pyval -> exc response) (str_of_exc : pyexc -> string)
    (message notice_type : string) : outcome * list pyval :=
  if String.eqb webhook_url ""
  then ({| success := true; message := PStr "通知已记录（Webhook未配置）" |}, [])
  else
    let card := card_of message notice_type in
    let result :=
      resp ← post card;
      ok ← (if eq_int (status_code resp) 200
            then body ← json resp;
                 code ← get body "code" PNone;
                 mret (eq_int code 0)
            else mret false);
      if ok : bool
      then mret {| success := true; message := PStr "通知已发送" |}
      else body ← json resp;
           msg ← get body "msg" (PStr "发送失败");
           mret {| success := false; message := msg |} in
    (match result with
     | Ok r => r
     | Raise x => {| success := false; message := PStr (str_of_exc x) |}
     end, [card]).

End Notify.

(** * More vocabulary *)

Module Spec2.

Import Heartbeat Handler Client Spec.

(** [sep.join(pieces)] *)
Fixpoint str_join (sep : string) (pieces : list string) : string :=
  match pieces with
  | [] => EmptyString
  | [piece] => piece
  | piece :: rest => String.append piece (String.append sep (str_join sep rest))
  end.

(** [s[n:]] *)
Fixpoint str_drop (n : nat) (s : string) : string :=
  match n, s with
  | O, _ => s
  | S n', String _ s' => str_drop n' s'
  | S _, EmptyString => EmptyString
  end.

(** The character [c] occurs in [s]. *)
Fixpoint has_char (c : ascii) (s : string) : bool :=
  match s with
  | EmptyString => false
  | String a s' => Ascii.eqb a c || has_char c s'
  end.

(** The environment [e] with the socket taking the acknowledgement or
    not. *)
Definition with_ack_open (e : env) (b : bool) : env :=
  {| now_expire := now_expire e; now_mode := now_mode e;
     now_enter := now_enter e;
     ws_open_ack := b; ws_open_reply := ws_open_reply e;
     generate_mid := generate_mid e; generate_uuid := generate_uuid e;
     str_of := str_of e; b64_json := b64_json e;
     is_plain_json := is_plain_json e; decrypt_json := decrypt_json e;
     webhook_url := webhook_url e; post_webhook := post_webhook e;
     add_message_by_chat := add_message_by_chat e;
     db_get_item_info := db_get_item_info e;
     db_save_item_info := db_save_item_info e;
     api_get_item_info := api_get_item_info e;
     process_message := process_message e |}.

(** The environment [e] with the clock of the expiry test at [now]. *)
Definition with_clock (e : env) (now : float) : env :=
  {| now_expire := now; now_mode := now_mode e;
     now_enter := now_enter e;
     ws_open_ack := ws_open_ack e; ws_open_reply := ws_open_reply e;
     generate_mid := generate_mid e; generate_uuid := generate_uuid e;
     str_of := str_of e; b64_json := b64_json e;
     is_plain_json := is_plain_json e; decrypt_json := decrypt_json e;
     webhook_url := webhook_url e; post_webhook := post_webhook e;
     add_message_by_chat := add_message_by_chat e;
     db_get_item_info := db_get_item_info e;
     db_save_item_info := db_save_item_info e;
     api_get_item_info := api_get_item_info e;
     process_message := process_message e |}.

(** The environment [e] with another marketplace API. *)
Definition with_api (e : env) (api : string -> exc pyval) : env :=
  {| now_expire := now_expire e; now_mode := now_mode e;
     now_enter := now_enter e;
     ws_open_ack := ws_open_ack e; ws_open_reply := ws_open_reply e;
     generate_mid := generate_mid e; generate_uuid := generate_uuid e;
     str_of := str_of e; b64_json := b64_json e;
     is_plain_json := is_plain_json e; decrypt_json := decrypt_json e;
     webhook_url := webhook_url e; post_webhook := post_webhook e;
     add_message_by_chat := add_message_by_chat e;
     db_get_item_info := db_get_item_info e;
     db_save_item_info := db_save_item_info e;
     api_get_item_info := api;
     process_message := process_message e |}.

Definition is_save (ev : event) : bool :=
  match ev with EvSaveItem _ _ => true | _ => false end.

Definition is_write (ev : event) : bool :=
  match ev with EvSend _ _ | EvSendFailed _ _ => true | _ => false end.

Definition is_sleep (ev : event) : bool :=
  match ev with EvSleep _ => true | _ => false end.

(** The writes and the sleeps of a trace, in order. *)
Definition wire (evs : list event) : list event :=
  List.filter (fun ev => is_write ev || is_sleep ev) evs.

(** The frames delivered in a trace, in order. *)
Definition delivered (evs : list event) : list pyval :=
  omap (fun ev => match ev with EvSend _ f => Some f | _ => None end) evs.

(** The rows saved in a run of the monitor, in order. *)
Definition rows (evs : list Monitor.monitor_event) : list Monitor.metrics :=
  omap (fun ev => match ev with
                  | Monitor.SaveMetrics row => Some row
                  | _ => None
                  end) evs.

(** Running the fallback [n] times, collecting the responses. *)
Fixpoint fallbacks (m : Monitor.Monitor) (n : nat)
  : exc (Monitor.Monitor * list string) :=
  match n with
  | O => Ok (m, [])
  | S n' =>
      '(m1, r) ← Monitor.get_fallback_response m;
      '(m2, rs) ← fallbacks m1 n';
      mret (m2, r :: rs)
  end.

(** A run of [update_conversation] calls: thread id, stage, bargain
    count, and what the store does. *)
Fixpoint updates (ev : Evaluator.Evaluator)
    (calls : list (string * pyval * pyval * exc unit)) : Evaluator.Evaluator :=
  match calls with
  | [] => ev
  | (thread_id, stage, bargain_count, updated) :: rest =>
      updates (Evaluator.update_conversation ev thread_id stage bargain_count
                 updated).1 rest
  end.

(** The number of calls of a run that are for [thread_id]. *)
Definition calls_for (thread_id : string)
    (calls : list (string * pyval * pyval * exc unit)) : Z :=
  Z.of_nat (length (filter (fun k => k.1.1.1 = thread_id) calls)).

(** The conversation a registry operation is about. *)
Definition target (op : registry_op) : string :=
  match op with
  | OpEnter chat_id _ | OpExit chat_id | OpToggle chat_id _ _
  | OpIsActive chat_id _ => chat_id
  end.

(** [message_data["body"]["syncPushPackage"]["data"][0]] *)
Definition sync_entry (message_data : pyval) : exc pyval :=
  body ← getitem message_data "body";
  pkg ← getitem body "syncPushPackage";
  data ← getitem pkg "data";
  getitem0 data.


(** The writes of a run, in order: the socket that was current, and the
    socket written to. *)
Definition written (tevs : list (option nat * event))
  : list (option nat * nat) :=
  omap (fun tev => match tev.2 with
                   | EvSend s _ | EvSendFailed s _ => Some (tev.1, s)
                   | _ => None
                   end) tevs.

(** The headers an acknowledgement can carry. *)
Definition ACK_KEYS : list string := ["mid"; "sid"; "app-key"; "ua"; "dt"].

End Spec2.

(** * More sample inputs *)

Module Sample2.

Import Heartbeat Handler Client Spec Session Spec2.

(** As [Sample.calm], but nothing decrypts. *)
Definition garbled : env :=
  {| now_expire := float_of_Z 1000;
     now_mode := 1000;
     now_enter := 1000;
     ws_open_ack := true;
     ws_open_reply := true;
     generate_mid := "mid-1";
     generate_uuid := "uuid-1";
     str_of := fun _ => "?";
     b64_json := fun _ => "e30=";
     is_plain_json := fun _ => false;
     decrypt_json := fun _ => Raise ValueError;
     webhook_url := "https://hook.example/notify";
     post_webhook := fun _ _ => Ok (PInt 200);
     add_message_by_chat := fun _ _ _ _ _ => Ok ();
     db_get_item_info := fun _ => Ok Sample.phone;
     db_save_item_info := fun _ _ => Ok ();
     api_get_item_info := fun _ => Raise (ExternalError "api");
     process_message := fun _ => Ok (PStr "hello") |}.

(** As [Sample.calm], but the clock of the expiry test stands at 2000 s. *)
Definition late : env :=
  {| now_expire := float_of_Z 2000;
     now_mode := 1000;
     now_enter := 1000;
     ws_open_ack := true;
     ws_open_reply := true;
     generate_mid := "mid-1";
     generate_uuid := "uuid-1";
     str_of := fun _ => "?";
     b64_json := fun _ => "e30=";
     is_plain_json := fun _ => false;
     decrypt_json := fun data => Ok data;
     webhook_url := "https://hook.example/notify";
     post_webhook := fun _ _ => Ok (PInt 200);
     add_message_by_chat := fun _ _ _ _ _ => Ok ();
     db_get_item_info := fun _ => Ok Sample.phone;
     db_save_item_info := fun _ _ => Ok ();
     api_get_item_info := fun _ => Raise (ExternalError "api");
     process_message := fun _ => Ok (PStr "hello") |}.

(** As [Sample.calm], but the store has no item, and the API has. *)
Definition empty_store : env :=
  {| now_expire := float_of_Z 1000;
     now_mode := 1000;
     now_enter := 1000;
     ws_open_ack := true;
     ws_open_reply := true;
     generate_mid := "mid-1";
     generate_uuid := "uuid-1";
     str_of := fun _ => "?";
     b64_json := fun _ => "e30=";
     is_plain_json := fun _ => false;
     decrypt_json := fun data => Ok data;
     webhook_url := "https://hook.example/notify";
     post_webhook := fun _ _ => Ok (PInt 200);
     add_message_by_chat := fun _ _ _ _ _ => Ok ();
     db_get_item_info := fun _ => Ok PNone;
     db_save_item_info := fun _ _ => Ok ();
     api_get_item_info := fun _ => Ok (PDict [("data", PDict [("itemDO", Sample.phone)])]);
     process_message := fun _ => Ok (PStr "hello") |}.

(** As [Sample.calm], but the agent raises. *)
Definition agent_down : env :=
  {| now_expire := float_of_Z 1000;
     now_mode := 1000;
     now_enter := 1000;
     ws_open_ack := true;
     ws_open_reply := true;
     generate_mid := "mid-1";
     generate_uuid := "uuid-1";
     str_of := fun _ => "?";
     b64_json := fun _ => "e30=";
     is_plain_json := fun _ => false;
     decrypt_json := fun data => Ok data;
     webhook_url := "https://hook.example/notify";
     post_webhook := fun _ _ => Ok (PInt 200);
     add_message_by_chat := fun _ _ _ _ _ => Ok ();
     db_get_item_info := fun _ => Ok Sample.phone;
     db_save_item_info := fun _ _ => Ok ();
     api_get_item_info := fun _ => Raise (ExternalError "api");
     process_message := fun _ => Raise (ExternalError "llm") |}.

(** The seller answering by hand. *)
Definition seller_replies : pyval :=
  Sample.chat "c1@goofish" 999000 "me" "seller" "on my way" Sample.item_url.

(** A buyer's message whose reminder URL names no item. *)
Definition no_item : pyval :=
  Sample.chat "c1@goofish" 999000 "buyer" "buyer-7" "hi"
    "fleamarket://message_chat?peer=7".

(** A buyer's message marked as not to be pushed. *)
Definition notice : pyval :=
  PDict [("1", PDict [("2", PStr "c1@goofish");
                      ("5", PInt 999000);
                      ("10", PDict [("reminderTitle", PStr "buyer");
                                    ("senderUserId", PStr "buyer-7");
                                    ("reminderContent", PStr "hi");
                                    ("reminderUrl", PStr Sample.item_url)])]);
         ("3", PDict [("needPush", PStr "false")])].

(** The job the buyer's "hi" makes. *)
Definition hi_job : reply_job :=
  {| job_message := PStr "hi";
     job_item_description := (PStr "a phone", PStr "100");
     job_user_id := PStr "buyer-7";
     job_user_name := PStr "buyer";
     job_chat_id := "c1" |}.

(** Registering at time 200 on an open socket, the token-issuing call
    being down. *)
Definition token_down : init_env :=
  {| init_now := 200;
     init_token_result := Raise (ExternalError "down");
     init_refreshed_at := 201;
     init_mid := "reg-1";
     init_open_reg := true;
     init_open_sync := true;
     init_pts_now := float_of_Z 202;
     init_stamp_now := float_of_Z 202 |}.

(** The same, the token-issuing call answering. *)
Definition token_up : init_env :=
  {| init_now := 200;
     init_token_result :=
       Ok (PDict [("data", PDict [("accessToken", PStr "token-2")])]);
     init_refreshed_at := 201;
     init_mid := "reg-1";
     init_open_reg := true;
     init_open_sync := true;
     init_pts_now := float_of_Z 202;
     init_stamp_now := float_of_Z 202 |}.

(** A turn of [main] on the socket [sock]: the client registers with a
    token just issued, a buyer writes, the heartbeat is due at 218, the
    refresher has a look, and the peer closes the connection. *)
Definition turn_on (sock : nat) (e : env) : Run.turn :=
  {| Run.turn_sock := sock;
     Run.turn_connected := Ok ();
     Run.turn_init := token_up;
     Run.turn_started := (203%Q, 203%Q);
     Run.turn_happenings :=
       [Run.Frame (Ok (Sample.sync_frame Sample.buyer_says_hi)) 204 e;
        Run.HeartbeatPass "hb-1" 218 218;
        Run.RefreshPass 219 (Raise (ExternalError "down")) 219];
     Run.turn_end := EndClosed |}.

(** Two turns: on the first the socket is closed while the reply is
    computed. *)
Definition two_turns : list Run.turn :=
  [turn_on 1 Sample.closed_meanwhile; turn_on 2 Sample.calm].

(** A clock of the year 2025, 1762257600.002 s, and a message created
    300000 ms and a bit before it. *)
Definition clock_2025 : float := S754_finite false 0x1a427ab00020c5 (-22).
Definition created_2025 : Z := 1762257300002.

(** A webhook that answers 200 with the code 0. *)
Definition webhook_ok (card : pyval) : exc Notify.response :=
  Ok {| Notify.status_code := PInt 200;
        Notify.json := Ok (PDict [("code", PInt 0)]) |}.

End Sample2.

(** * Properties *)

Import Heartbeat Handler Client Spec.

(** Unfolding the handler's computations down to pairs and lists. *)
Ltac run_M :=
  unfold mbind, M_bind, bind, mret, M_ret, ret, ask, lift, emit, state,
    trace, outcome, handler_after in *; simpl in *.

(** A trace that is written out has none of the events looked for. *)
Ltac quiet :=
  unfold no_reply, no_record, no_toggle, none_of, only_on;
  simpl; repeat constructor.

(** ** The manual-mode registry *)

Lemma init_consistent myid timeout keywords expire :
  consistent (Handler.init myid timeout keywords expire).
Proof. unfold consistent; simpl. by rewrite dom_empty_L. Qed.

Lemma enter_consistent h chat_id now :
  consistent h → consistent (enter_manual_mode h chat_id now).
Proof.
  unfold consistent; simpl; intros ->. by rewrite dom_insert_L.
Qed.

Lemma exit_consistent h chat_id :
  consistent h → consistent (exit_manual_mode h chat_id).
Proof.
  unfold consistent; simpl; intros ->. by rewrite dom_delete_L.
Qed.

Lemma is_manual_mode_consistent h chat_id now :
  consistent h → consistent (is_manual_mode h chat_id now).1.
Proof.
  intros Hc. unfold is_manual_mode.
  case_bool_decide; [|done].
  destruct (manual_mode_timestamps h !! chat_id); [|done].
  destruct (Qgtb _ _); [|done].
  by apply exit_consistent.
Qed.

Lemma toggle_consistent h chat_id now entered :
  consistent h → consistent (toggle_manual_mode h chat_id now entered).1.
Proof.
  intros Hc. unfold toggle_manual_mode.
  pose proof (is_manual_mode_consistent h chat_id now Hc) as H1.
  destruct (is_manual_mode h chat_id now) as [h1 active]; simpl in H1.
  destruct active; simpl.
  - by apply exit_consistent.
  - by apply enter_consistent.
Qed.

Lemma apply_op_consistent h op : consistent h → consistent (apply_op h op).
Proof.
  destruct op; simpl.
  - apply enter_consistent.
  - apply exit_consistent.
  - apply toggle_consistent.
  - apply is_manual_mode_consistent.
Qed.

Lemma run_ops_consistent ops : ∀ h, consistent h → consistent (run_ops h ops).
Proof.
  unfold run_ops. induction ops as [|op ops IH]; intros h Hc; simpl.
  - done.
  - apply IH. by apply apply_op_consistent.
Qed.

(** An active answer of [is_manual_mode] on a consistent registry comes
    from an entry that has a time and is within the timeout. *)
Lemma active_has_fresh_entry h chat_id now :
  consistent h →
  (is_manual_mode h chat_id now).2 = true →
  ∃ entered, manual_mode_timestamps h !! chat_id = Some entered
             ∧ (now - entered <= inject_Z (manual_mode_timeout h))%Q.
Proof.
  unfold consistent, is_manual_mode. intros Hc.
  case_bool_decide as Hin; [|done].
  rewrite Hc in Hin. apply elem_of_dom in Hin as [entered Hl].
  rewrite Hl. unfold Qgtb.
  destruct (Qle_bool (now - entered) _) eqn:Hle; simpl; [|done].
  intros _. exists entered. split; [done|]. by apply Qle_bool_iff.
Qed.

(** C10. Starting from the empty registry, whatever sequence of enter,
    exit, toggle and isActive operations is run, the set of conversations
    in manual mode is the key set of the entered-at times; so every
    conversation reported active has an entered-at time, and that time is
    within the timeout. *)
Theorem registry_invariant myid timeout keywords expire ops :
  let h := run_ops (Handler.init myid timeout keywords expire) ops in
  manual_mode_conversations h = dom (manual_mode_timestamps h)
  ∧ ∀ chat_id now,
      (is_manual_mode h chat_id now).2 = true →
      ∃ entered, manual_mode_timestamps h !! chat_id = Some entered
                 ∧ (now - entered <= inject_Z (manual_mode_timeout h))%Q.
Proof.
  intros h.
  assert (consistent h) as Hc
    by (apply run_ops_consistent, init_consistent).
  split; [exact Hc|].
  intros chat_id now. by apply active_has_fresh_entry.
Qed.

(** The invariant at work: a toggle at time 10, a look at time 20. *)
Lemma registry_invariant_witness :
  let h := run_ops Sample.seller [OpToggle "c1" 10 10; OpIsActive "c1" 20] in
  manual_mode_conversations h = dom (manual_mode_timestamps h)
  ∧ ∃ entered, manual_mode_timestamps h !! "c1" = Some entered
               ∧ (20 - entered <= inject_Z (manual_mode_timeout h))%Q.
Proof.
  pose proof (registry_invariant "seller" 3600 "。" 300000
                [OpToggle "c1" 10 10; OpIsActive "c1" 20]) as [Hdom Hact].
  split; [exact Hdom|].
  apply (Hact "c1" 20%Q). vm_compute. reflexivity.
Defined.

(** ** Traces of the handler's computations *)

Lemma trace_bind {A B} (m : M A) (k : A → M B) h :
  trace ((m ≫= k) h)
  = trace (m h) ++ match outcome (m h) with
                   | Ok a => trace (k a (handler_after (m h)))
                   | Raise _ => []
                   end.
Proof.
  run_M. destruct (m h) as [[[a|x] h1] t1]; simpl.
  - by destruct (k a h1) as [[r2 h2] t2].
  - by rewrite app_nil_r.
Qed.

Lemma outcome_bind {A B} (m : M A) (k : A → M B) h :
  outcome ((m ≫= k) h)
  = match outcome (m h) with
    | Ok a => outcome (k a (handler_after (m h)))
    | Raise x => Raise x
    end.
Proof.
  run_M. destruct (m h) as [[[a|x] h1] t1]; simpl; [|done].
  by destruct (k a h1) as [[r2 h2] t2].
Qed.

Lemma handler_after_bind {A B} (m : M A) (k : A → M B) h :
  handler_after ((m ≫= k) h)
  = match outcome (m h) with
    | Ok a => handler_after (k a (handler_after (m h)))
    | Raise x => handler_after (m h)
    end.
Proof.
  run_M. destruct (m h) as [[[a|x] h1] t1]; simpl; [|done].
  by destruct (k a h1) as [[r2 h2] t2].
Qed.

Lemma after_lift {A} (x : exc A) h : handler_after (lift x h) = h.
Proof. done. Qed.
Lemma after_emit evs h : handler_after (emit evs h) = h.
Proof. done. Qed.
Lemma after_ask h : handler_after (ask h) = h.
Proof. done. Qed.
Lemma outcome_lift {A} (x : exc A) h : outcome (lift x h) = x.
Proof. done. Qed.
Lemma outcome_emit evs h : outcome (emit evs h) = Ok ().
Proof. done. Qed.
Lemma outcome_ask h : outcome (ask h) = Ok h.
Proof. done. Qed.

Create Rewrite HintDb handler_run.
#[local] Hint Rewrite @outcome_bind @after_lift @after_emit @after_ask
  @outcome_lift @outcome_emit @outcome_ask : handler_run.

(** A property of every event of a trace goes through a bind. *)
Lemma Forall_bind {A B} (P : event → Prop) (m : M A) (k : A → M B) h :
  Forall P (trace (m h)) →
  (∀ a, outcome (m h) = Ok a → Forall P (trace (k a (handler_after (m h))))) →
  Forall P (trace ((m ≫= k) h)).
Proof.
  intros Hm Hk. rewrite trace_bind. apply Forall_app; split; [done|].
  destruct (outcome (m h)) as [a|x]; [by apply Hk|constructor].
Qed.

(** A step [x ← lift m; ...]: nothing is done, and a raise ends the
    computation. *)
Ltac lift_step x H :=
  apply Forall_bind; [quiet|];
  intros x H; unfold outcome, lift in H; simpl in H;
  unfold handler_after, lift; simpl.

Ltac ask_step :=
  apply Forall_bind; [quiet|];
  let h := fresh "h" in intros h [= <-]; simpl.

Lemma send_order_notification_no_reply e user_id user_url message :
  no_reply (send_order_notification e user_id user_url message).
Proof.
  unfold send_order_notification.
  destruct (String.eqb _ _); [quiet|].
  destruct (try_except _ _) as [title price].
  destruct (post_webhook e _ _) as [status|]; [|quiet].
  destruct (eq_int status 200); quiet.
Qed.

Lemma handle_order_message_no_reply e message :
  no_reply (handle_order_message e message).1.
Proof.
  unfold handle_order_message.
  destruct (_ ≫= _) as [[[red user_id]|]|]; simpl; [|quiet|quiet].
  destruct (eq_str red WAIT_BUYER_PAY); [quiet|].
  destruct (eq_str red TRADE_CLOSED); [quiet|].
  destruct (eq_str red WAIT_SELLER_SHIP); [|quiet].
  simpl. constructor; [done|]. apply send_order_notification_no_reply.
Qed.

Lemma dispatch_suppressed e ws message name uid text item_id chat_id h :
  (is_manual_mode h chat_id (now_mode e)).2 = true →
  no_reply (trace (dispatch e ws message name uid text item_id chat_id h)).
Proof.
  intros Hact.
  destruct (is_manual_mode h chat_id (now_mode e)) as [h1 active] eqn:Hm.
  simpl in Hact; subst active.
  unfold dispatch, toggle_manual_mode. run_M.
  destruct (eq_str uid (myid h)).
  - destruct (check_toggle_keywords h text) as [[|]|]; simpl.
    + rewrite Hm; simpl. quiet.
    + destruct (add_message_by_chat e _ _ _ _ _); simpl; quiet.
    + quiet.
  - destruct (add_message_by_chat e _ _ _ _ _); simpl; [|quiet].
    rewrite Hm; simpl. quiet.
Qed.

Lemma decoded_suppressed e ws message h chat_id :
  chat_id_of message = Ok chat_id →
  (is_manual_mode h chat_id (now_mode e)).2 = true →
  no_reply (trace (handle_decoded e ws message h)).
Proof.
  intros Hcid Hact. unfold handle_decoded.
  pose proof (handle_order_message_no_reply e message) as Hord.
  destruct (handle_order_message e message) as [order_events handled].
  simpl in Hord.
  apply Forall_bind; [exact Hord|]. intros [] _; simpl.
  destruct handled; [quiet|].
  destruct (is_typing_status message); [quiet|].
  destruct (is_chat_message message); simpl; [|quiet].
  lift_step fields Hfields. destruct fields as [[[create_time name] uid] text].
  ask_step.
  lift_step is_expired Hexpired. destruct is_expired; [quiet|].
  unfold read_routing. rewrite Hcid.
  lift_step routing Hrouting. destruct routing as [item_id cid].
  assert (cid = chat_id) as ->.
  { destruct (reminder_field message "reminderUrl") as [url|]; [|done].
    simpl in Hrouting. destruct (item_id_of url); [|done].
    simpl in Hrouting. by injection Hrouting as _ <-. }
  destruct item_id as [[|c item_id]|]; [quiet| |quiet].
  by apply dispatch_suppressed.
Qed.

(** After the acknowledgement, [handle] is [handle_decoded] on the
    payload of the frame. *)
Lemma handle_payload e ws message_data message h :
  payload_of e message_data = Some message →
  handle e ws message_data h
  = ((send_ack e ws message_data;; handle_decoded e ws message) h).
Proof.
  unfold payload_of, handle. intros Hpay.
  destruct (is_sync_package message_data); [simpl|done].
  run_M.
  destruct (send_ack e ws message_data h) as [[[[]|x] h1] t1]; [|done].
  destruct (getitem message_data "body") as [body|]; [simpl in *|done].
  destruct (getitem body "syncPushPackage") as [pkg|]; [simpl in *|done].
  destruct (getitem pkg "data") as [data|]; [simpl in *|done].
  destruct (getitem0 data) as [sync_data|]; [simpl in *|done].
  destruct (contains "data" sync_data) as [[|]|]; [simpl in *|done..].
  destruct (decode e sync_data) as [[m|]|]; [|done..].
  injection Hpay as ->.
  by destruct (handle_decoded e ws message h1) as [[r2 h2] t2].
Qed.

Lemma send_ack_returns e ws message_data h :
  outcome (send_ack e ws message_data h) = Ok ()
  ∧ handler_after (send_ack e ws message_data h) = h.
Proof.
  unfold send_ack. by destruct (ack_frame e message_data) as [[frame|]|].
Qed.

(** C1. A frame comes in whose payload is a message of a conversation
    that the registry reports as being in manual mode at the time it is
    handled. Beyond the acknowledgement of the frame, handling it hands no
    work to the worker pool and writes no frame to the socket: a
    conversation in active takeover gets no automated reply. *)
Theorem takeover_suppression e ws message_data message h chat_id :
  payload_of e message_data = Some message →
  chat_id_of message = Ok chat_id →
  (is_manual_mode h chat_id (now_mode e)).2 = true →
  no_reply (trace (handle_decoded e ws message h))
  ∧ trace (handle e ws message_data h)
    = trace (send_ack e ws message_data h)
      ++ trace (handle_decoded e ws message h).
Proof.
  intros Hpay Hcid Hact. split; [by eapply decoded_suppressed|].
  rewrite (handle_payload _ _ _ _ _ Hpay), trace_bind.
  by destruct (send_ack_returns e ws message_data h) as [-> ->].
Qed.

(** A buyer writes into a conversation taken over a hundred seconds ago. *)
Lemma takeover_suppression_witness :
  let h := enter_manual_mode Sample.seller "c1" 900 in
  let frame := Sample.sync_frame Sample.buyer_says_hi in
  payload_of Sample.calm frame = Some Sample.buyer_says_hi
  ∧ (is_manual_mode h "c1" (now_mode Sample.calm)).2 = true
  ∧ no_reply (trace (handle_decoded Sample.calm 1 Sample.buyer_says_hi h))
  ∧ existsb is_submit (trace (handle Sample.calm 1 frame h)) = false.
Proof.
  intros h frame.
  split; [reflexivity|]. split; [vm_compute; reflexivity|].
  destruct (takeover_suppression Sample.calm 1 frame Sample.buyer_says_hi
              h "c1") as [Hquiet Htrace].
  - reflexivity.
  - reflexivity.
  - vm_compute; reflexivity.
  - split; [exact Hquiet|]. vm_compute; reflexivity.
Defined.

(** Without the takeover the same message is answered. *)
Example buyer_is_answered :
  existsb is_submit
    (trace (handle_decoded Sample.calm 1 Sample.buyer_says_hi Sample.seller))
  = true
  ∧ existsb is_delivery
      (trace (handle_decoded Sample.calm 1 Sample.buyer_says_hi Sample.seller))
    = true.
Proof. split; vm_compute; reflexivity. Qed.

(** ** Recognition and field extraction *)

Lemma is_chat_message_inv message :
  is_chat_message message = true →
  ∃ d d1 d10,
    message = PDict d
    ∧ assoc "1" d = Some (PDict d1)
    ∧ assoc "10" d1 = Some (PDict d10)
    ∧ is_Some (assoc "reminderContent" d10).
Proof.
  unfold is_chat_message.
  destruct message as [| | | | | |d]; simpl; try done.
  unfold getitem.
  destruct (assoc "1" d) as [m1|] eqn:H1; simpl; [|done].
  destruct m1 as [| | | | | |d1]; simpl; try done.
  destruct (assoc "10" d1) as [m10|] eqn:H10; simpl; [|done].
  destruct m10 as [| | | | | |d10]; simpl; try done.
  case_bool_decide; [|done]. intros _. by exists d, d1, d10.
Qed.

(** A chat payload is neither an order message nor a typing status. *)
Lemma chat_message_not_order e message :
  is_chat_message message = true → (handle_order_message e message).2 = false.
Proof.
  intros (d & d1 & d10 & -> & H1 & _)%is_chat_message_inv.
  unfold handle_order_message; simpl.
  destruct (get (default (PDict []) (assoc "3" d)) "redReminder" (PStr ""))
    as [red|]; simpl; [|done].
  destruct (truthy red); simpl; [|done].
  by rewrite H1.
Qed.

Lemma chat_message_not_typing message :
  is_chat_message message = true → is_typing_status message = false.
Proof.
  intros (d & d1 & d10 & -> & H1 & _)%is_chat_message_inv.
  unfold is_typing_status; simpl. by rewrite H1.
Qed.

(** What is not a chat payload is dropped, and nothing is raised. *)
Lemma not_chat_dropped e ws message h :
  is_chat_message message = false →
  outcome (handle_decoded e ws message h) = Ok ().
Proof.
  intros Hchat. unfold handle_decoded.
  destruct (handle_order_message e message) as [order_events handled].
  rewrite outcome_bind; simpl.
  destruct handled; [done|].
  destruct (is_typing_status message); [done|].
  by rewrite Hchat.
Qed.

(** A chat payload, up to the reads of its fields. *)
Lemma chat_message_reads e ws message h :
  is_chat_message message = true →
  handle_decoded e ws message h
  = ((emit (handle_order_message e message).1;;
      '(create_time, send_user_name, send_user_id, send_message) ←
        lift (read_chat_fields message);
      h ← ask;
      is_expired ← lift (expired e h create_time);
      if is_expired : bool
      then emit [EvLog Debug "expired message dropped"]
      else
        '(item_id, chat_id) ← lift (read_routing message);
        match item_id with
        | None | Some "" => emit [EvLog Warning "no item id"]
        | Some item_id =>
            dispatch e ws message send_user_name send_user_id send_message
                     item_id chat_id
        end) h).
Proof.
  intros Hchat. unfold handle_decoded.
  pose proof (chat_message_not_order e message Hchat) as Hord.
  destruct (handle_order_message e message) as [order_events handled].
  simpl in Hord; subst handled.
  by rewrite (chat_message_not_typing _ Hchat), Hchat.
Qed.

Lemma early_read_raises e ws message h x :
  is_chat_message message = true →
  read_chat_fields message = Raise x →
  outcome (handle_decoded e ws message h) = Raise x
  ∧ no_reply (trace (handle_decoded e ws message h)).
Proof.
  intros Hchat Hread. rewrite chat_message_reads by done. split.
  - autorewrite with handler_run. by rewrite Hread.
  - apply Forall_bind; [apply handle_order_message_no_reply|].
    intros [] _; simpl.
    apply Forall_bind; [quiet|].
    intros a Ha. unfold outcome, lift in Ha; simpl in Ha. congruence.
Qed.

(** The expiry test raises on a creation time too large for a float. *)
Lemma expiry_test_raises e ws message h create_time name uid text x :
  is_chat_message message = true →
  read_chat_fields message = Ok (create_time, name, uid, text) →
  expired e h create_time = Raise x →
  outcome (handle_decoded e ws message h) = Raise x
  ∧ no_reply (trace (handle_decoded e ws message h)).
Proof.
  intros Hchat Hread Hexp. rewrite chat_message_reads by done. split.
  - autorewrite with handler_run. rewrite Hread.
    autorewrite with handler_run. by rewrite Hexp.
  - apply Forall_bind; [apply handle_order_message_no_reply|].
    intros [] _; simpl.
    lift_step fields Hfields. rewrite Hread in Hfields.
    injection Hfields as <-.
    ask_step.
    apply Forall_bind; [quiet|].
    intros a Ha. unfold outcome, lift in Ha; simpl in Ha. congruence.
Qed.

Lemma late_read_raises e ws message h create_time name uid text x :
  is_chat_message message = true →
  read_chat_fields message = Ok (create_time, name, uid, text) →
  expired e h create_time = Ok false →
  read_routing message = Raise x →
  outcome (handle_decoded e ws message h) = Raise x
  ∧ no_reply (trace (handle_decoded e ws message h)).
Proof.
  intros Hchat Hread Hfresh Hroute. rewrite chat_message_reads by done. split.
  - autorewrite with handler_run. rewrite Hread.
    autorewrite with handler_run. rewrite Hfresh.
    autorewrite with handler_run. by rewrite Hroute.
  - apply Forall_bind; [apply handle_order_message_no_reply|].
    intros [] _; simpl.
    lift_step fields Hfields. rewrite Hread in Hfields.
    injection Hfields as <-.
    ask_step.
    lift_step is_expired Hexpired. rewrite Hfresh in Hexpired.
    injection Hexpired as <-.
    apply Forall_bind; [quiet|].
    intros a Ha. unfold outcome, lift in Ha; simpl in Ha. congruence.
Qed.

(** The receive loop outlives whatever a frame does to it. *)
Lemma recv_step_goes_on c sock parsed now e :
  connection_restart_flag c = false →
  (recv_step c sock parsed now e).2 = RecvNext.
Proof.
  intros Hflag. unfold recv_step. rewrite Hflag.
  destruct parsed as [message_data|]; [|done].
  destruct (handle_response _ _ _) as [[hb []]|]; try done.
  by destruct (handle e sock message_data (handler c)) as [[r h] evs].
Qed.

(** When [handle] raises, the receive loop logs the error. *)
Lemma recv_step_logs_raise c sock message_data now e hb :
  connection_restart_flag c = false →
  handle_response (heartbeat c) message_data now = Ok (hb, false) →
  raised (outcome (handle e sock message_data (handler c))) = true →
  last (recv_step c sock (Ok message_data) now e).1.2
  = Some (EvLog Error "frame handling raised").
Proof.
  intros Hflag Hhb Hraise. unfold recv_step. rewrite Hflag, Hhb.
  unfold outcome in Hraise.
  destruct (handle e sock message_data (handler c)) as [[r h] evs].
  simpl in *. rewrite Hraise. by rewrite last_snoc.
Qed.

(** The frame [handle] raises on is logged by the receive loop, which goes
    on. *)
Lemma raising_frame_logged c sock message_data message now e hb x :
  connection_restart_flag c = false →
  handle_response (heartbeat c) message_data now = Ok (hb, false) →
  payload_of e message_data = Some message →
  outcome (handle_decoded e sock message (handler c)) = Raise x →
  (recv_step c sock (Ok message_data) now e).2 = RecvNext
  ∧ last (recv_step c sock (Ok message_data) now e).1.2
    = Some (EvLog Error "frame handling raised").
Proof.
  intros Hflag Hhb Hpay Hraise.
  split; [by apply recv_step_goes_on|].
  apply (recv_step_logs_raise _ _ _ _ _ hb); [done..|].
  rewrite (handle_payload _ _ _ _ _ Hpay). autorewrite with handler_run.
  destruct (send_ack_returns e sock message_data (handler c)) as [-> ->].
  by rewrite Hraise.
Qed.

(** C2, as the code has it. The recognisers catch what they raise, and a
    payload that is not a chat message is dropped without a raise. The
    reads of the fields of a chat message are not guarded: when the
    creation time, the sender or the text cannot be read, or the expiry
    test raises, or, for a fresh message, the reminder URL or the
    conversation id cannot be read, the exception leaves the handler and
    nothing is replied. The receive loop catches the exception, logs it,
    and goes on with the next frame, as it does after any frame. *)
Theorem extraction_raises_and_loop_goes_on e ws message h :
  (is_chat_message message = false →
   outcome (handle_decoded e ws message h) = Ok ())
  ∧ (∀ x, is_chat_message message = true →
          read_chat_fields message = Raise x →
          outcome (handle_decoded e ws message h) = Raise x
          ∧ no_reply (trace (handle_decoded e ws message h)))
  ∧ (∀ create_time name uid text x,
       is_chat_message message = true →
       read_chat_fields message = Ok (create_time, name, uid, text) →
       expired e h create_time = Raise x →
       outcome (handle_decoded e ws message h) = Raise x
       ∧ no_reply (trace (handle_decoded e ws message h)))
  ∧ (∀ create_time name uid text x,
       is_chat_message message = true →
       read_chat_fields message = Ok (create_time, name, uid, text) →
       expired e h create_time = Ok false →
       read_routing message = Raise x →
       outcome (handle_decoded e ws message h) = Raise x
       ∧ no_reply (trace (handle_decoded e ws message h)))
  ∧ (∀ c message_data now hb x,
       connection_restart_flag c = false →
       handler c = h →
       handle_response (heartbeat c) message_data now = Ok (hb, false) →
       payload_of e message_data = Some message →
       outcome (handle_decoded e ws message h) = Raise x →
       (recv_step c ws (Ok message_data) now e).2 = RecvNext
       ∧ last (recv_step c ws (Ok message_data) now e).1.2
         = Some (EvLog Error "frame handling raised"))
  ∧ (∀ c sock parsed now,
       connection_restart_flag c = false →
       (recv_step c sock parsed now e).2 = RecvNext).
Proof.
  split; [apply not_chat_dropped|].
  split; [intros x; apply early_read_raises|].
  split; [intros create_time name uid text x; apply expiry_test_raises|].
  split; [intros create_time name uid text x; apply late_read_raises|].
  split.
  - intros c message_data now hb x Hflag <- Hhb Hpay Hraise.
    by eapply raising_frame_logged.
  - intros c sock parsed now. apply recv_step_goes_on.
Qed.

(** A chat payload without a conversation id, in a frame off socket 1. *)
Lemma extraction_raises_and_loop_goes_on_witness :
  let message :=
    PDict [("1", PDict [("5", PInt 999000);
                        ("10", PDict [("reminderTitle", PStr "buyer");
                                      ("senderUserId", PStr "buyer-7");
                                      ("reminderContent", PStr "hi");
                                      ("reminderUrl", PStr Sample.item_url)])])]
  in
  let step :=
    recv_step Sample.connected 1 (Ok (Sample.sync_frame message)) 101
      Sample.calm in
  is_chat_message message = true
  ∧ expired Sample.calm Sample.seller 999000 = Ok false
  ∧ outcome (handle_decoded Sample.calm 1 message Sample.seller)
    = Raise (KeyError "2")
  ∧ no_reply (trace (handle_decoded Sample.calm 1 message Sample.seller))
  ∧ step.2 = RecvNext
  ∧ last step.1.2 = Some (EvLog Error "frame handling raised").
Proof.
  intros message step.
  destruct (extraction_raises_and_loop_goes_on Sample.calm 1 message
              Sample.seller) as (_ & _ & _ & Hlate & Hloop & _).
  destruct (Hlate 999000%Z (PStr "buyer") (PStr "buyer-7") (PStr "hi")
              (KeyError "2")) as [Hout Hquiet];
    [reflexivity|reflexivity|vm_compute; reflexivity|reflexivity|].
  split; [reflexivity|]. split; [vm_compute; reflexivity|].
  split; [exact Hout|]. split; [exact Hquiet|].
  apply (Hloop Sample.connected (Sample.sync_frame message) 101%Q
           (heartbeat Sample.connected) (KeyError "2"));
    [reflexivity|reflexivity|reflexivity|reflexivity|exact Hout].
Defined.

(** C2, as stated, fails: a payload with the reminder content and no
    creation time is recognised as a chat message, and reading it raises
    [KeyError] out of the handler. *)
Lemma bare_reminder_raises :
  is_chat_message Sample.bare_reminder = true
  ∧ outcome (handle_decoded Sample.calm 1 Sample.bare_reminder Sample.seller)
    = Raise (KeyError "5").
Proof. split; reflexivity. Qed.

(** ** The heartbeat *)

Lemma Qgtb_true x y : Qgtb x y = true ↔ (y < x)%Q.
Proof.
  unfold Qgtb. rewrite negb_true_iff, <- not_true_iff_false, Qle_bool_iff.
  split; [apply Qnot_le_lt|apply Qlt_not_le].
Qed.

Lemma Qgtb_false x y : Qgtb x y = false ↔ (x <= y)%Q.
Proof.
  unfold Qgtb. by rewrite negb_false_iff, Qle_bool_iff.
Qed.

(** C3, as the code has it. A pass of the heartbeat loop that finds
    [now - last_heartbeat_response] strictly above [interval + timeout]
    ends the loop: with the timeout warning, or with the error of a send
    on a closed socket. Ending the loop is all it does: the socket is
    open or closed as it was, the restart flag is as it was, and nothing
    is closed. At or below the bound the pass does not time out. *)
Theorem heartbeat_expiry_ends_loop c s mid current sent_at :
  ws c = Some s →
  ∃ c' evs exit,
    heartbeat_pass c mid current sent_at = Some (c', evs, exit)
    ∧ ((inject_Z (interval (heartbeat c) + timeout (heartbeat c))
        < current - last_heartbeat_response (heartbeat c))%Q →
       (exit = BreakTimeout ∨ exit = BreakError ∧ sock_open s = false)
       ∧ task (heartbeat c') = Some Finished
       ∧ teardown_signalled c' evs = teardown_signalled c [])
    ∧ ((current - last_heartbeat_response (heartbeat c)
        <= inject_Z (interval (heartbeat c) + timeout (heartbeat c)))%Q →
       exit ≠ BreakTimeout).
Proof.
  intros Hws. unfold heartbeat_pass. rewrite Hws; simpl.
  unfold loop_body, send, teardown_signalled.
  destruct (Qgeb _ _); [destruct (sock_open s) eqn:Hopen|]; simpl.
  - destruct (Qgtb _ _) eqn:Hgt; simpl; do 3 eexists; (split; [done|]);
      simpl; rewrite Hws; simpl.
    + split; [intros _; rewrite ?Hopen; by auto|].
      intros Hle%Qgtb_false. congruence.
    + split; [|done]. intros Hlt%Qgtb_true. congruence.
  - do 3 eexists. split; [done|]. simpl; rewrite Hws; simpl.
    split; [|done]. intros _. rewrite ?Hopen; simpl. by auto.
  - destruct (Qgtb _ _) eqn:Hgt; simpl; do 3 eexists; (split; [done|]);
      simpl; rewrite Hws; simpl.
    + split; [intros _; by auto|].
      intros Hle%Qgtb_false. congruence.
    + split; [|done]. intros Hlt%Qgtb_true. congruence.
Qed.

(** Twenty-one seconds without a response, with the defaults 15 + 5. *)
Lemma heartbeat_expiry_ends_loop_witness :
  ∃ c' evs exit,
    heartbeat_pass Sample.connected "hb-1" 121 121 = Some (c', evs, exit)
    ∧ (exit = BreakTimeout ∨ exit = BreakError)
    ∧ task (heartbeat c') = Some Finished.
Proof.
  destruct (heartbeat_expiry_ends_loop Sample.connected
              {| sock_id := 1; sock_open := true |} "hb-1" 121 121 eq_refl)
    as (c' & evs & exit & Hpass & Hover & _).
  exists c', evs, exit. split; [exact Hpass|].
  destruct Hover as ([Hexit|[Hexit _]] & Htask & _);
    [reflexivity|by auto..].
Defined.

(** C3, as stated, fails: the pass that finds the response overdue ends
    the heartbeat task, and the session is told nothing: the socket stays
    open, the restart flag stays down, and the receive loop takes the next
    frame as before. *)
Lemma heartbeat_expiry_no_teardown :
  ∃ c' evs,
    (inject_Z (15 + 5) < 121 - last_heartbeat_response
                                 (heartbeat Sample.connected))%Q
    ∧ heartbeat_pass Sample.connected "hb-1" 121 121
      = Some (c', evs, BreakTimeout)
    ∧ teardown_signalled c' evs = false
    ∧ (recv_step c' 1 (Ok (PDict [])) 122 Sample.calm).2 = RecvNext.
Proof.
  do 2 eexists. split; [reflexivity|]. split; [reflexivity|].
  split; reflexivity.
Qed.

Lemma eq_str_true v s : eq_str v s = true → v = PStr s.
Proof.
  destruct v; simpl; try done. by intros ->%String.eqb_eq.
Qed.

Lemma has_mid_contains headers :
  has_mid headers ↔ contains "mid" headers = Ok true.
Proof.
  destruct headers as [| | | |s|l|hs]; simpl; try (split; [done|discriminate]).
  - split; [by intros ->|by intros [= ->]].
  - split.
    + intros Hin. f_equal. apply existsb_exists. exists (PStr "mid").
      split; [by apply list_elem_of_In|done].
    + intros [= (x & Hin & ->%eq_str_true)%existsb_exists].
      by apply list_elem_of_In.
  - split.
    + intros Hsome. by rewrite bool_decide_true.
    + intros [= Hsome]. by apply bool_decide_eq_true in Hsome.
Qed.

Lemma handle_response_inv hb frame now :
  (∃ d headers code,
     frame = PDict d ∧ assoc "headers" d = Some headers
     ∧ contains "mid" headers = Ok true
     ∧ assoc "code" d = Some code ∧ eq_int code 200 = true
     ∧ handle_response hb frame now = Ok (set_last_response hb now, true))
  ∨ handle_response hb frame now = Ok (hb, false)
  ∨ handle_response hb frame now = Raise TypeError.
Proof.
  unfold handle_response.
  destruct frame as [| | | | | |d]; simpl; try by auto.
  destruct (assoc "headers" d) as [headers|] eqn:Hh; simpl; [|by auto].
  destruct (contains "mid" headers) as [[|]|x] eqn:Hm; simpl; [|by auto|].
  - destruct (assoc "code" d) as [code|] eqn:Hc; simpl; [|by auto].
    destruct (eq_int code 200) eqn:H200; [|by auto].
    left. by exists d, headers, code.
  - right; right. destruct headers; simpl in Hm; by simplify_eq.
Qed.

(** C5, as the code has it. The heartbeat manager keeps no correlation
    ids. It sets the last-response time exactly when the frame is an
    object whose [headers] hold [mid], as a key of an object, an element
    of a list or a part of a str, and whose [code] equals 200, whatever
    the value of [mid]. On any other frame [handle_response] answers no or
    raises [TypeError], and the last-response time of the client is after
    the frame what it was before. *)
Theorem ack_shape_decides hb frame now :
  (acknowledges frame →
   handle_response hb frame now = Ok (set_last_response hb now, true))
  ∧ (¬ acknowledges frame →
     handle_response hb frame now = Ok (hb, false)
     ∨ handle_response hb frame now = Raise TypeError)
  ∧ (∀ c sock e,
       heartbeat c = hb →
       ¬ acknowledges frame →
       heartbeat (recv_step c sock (Ok frame) now e).1.1 = hb).
Proof.
  assert (¬ acknowledges frame →
          handle_response hb frame now = Ok (hb, false)
          ∨ handle_response hb frame now = Raise TypeError) as Hother.
  { intros Hno.
    destruct (handle_response_inv hb frame now)
      as [(d & headers & code & -> & Hh & Hm & Hc & H200 & _)|H]; [|done].
    destruct Hno. exists d, headers, code.
    by rewrite has_mid_contains. }
  split; [|split; [exact Hother|]].
  - intros (d & headers & code & -> & Hh & Hm%has_mid_contains & Hc & H200).
    unfold handle_response; simpl. rewrite Hh; simpl. rewrite Hm; simpl.
    by rewrite Hc; simpl; rewrite H200.
  - intros c sock e <- Hno. unfold recv_step.
    destruct (connection_restart_flag c); [done|].
    destruct (Hother Hno) as [-> | ->]; [|done].
    by destruct (handle e sock frame (handler c)) as [[r h] evs].
Qed.

(** A frame with headers, a [mid] and the code 200; and one whose headers
    are a list. *)
Lemma ack_shape_decides_witness :
  handle_response (heartbeat Sample.connected) Sample.stray_ack 107
  = Ok (set_last_response (heartbeat Sample.connected) 107, true)
  ∧ handle_response (heartbeat Sample.connected)
      (PDict [("headers", PList [PStr "mid"]); ("code", PInt 200)]) 107
    = Ok (set_last_response (heartbeat Sample.connected) 107, true)
  ∧ heartbeat (recv_step Sample.connected 1
                 (Ok (PDict [("headers", PInt 5); ("code", PInt 200)])) 107
                 Sample.calm).1.1
    = heartbeat Sample.connected.
Proof.
  split; [|split].
  - apply (proj1 (ack_shape_decides (heartbeat Sample.connected)
                    Sample.stray_ack 107)).
    exists [("headers", PDict [("mid", PStr "never-sent")]);
            ("code", PInt 200)],
           (PDict [("mid", PStr "never-sent")]), (PInt 200).
    repeat split; by eexists.
  - apply (proj1 (ack_shape_decides (heartbeat Sample.connected) _ 107)).
    exists [("headers", PList [PStr "mid"]); ("code", PInt 200)],
           (PList [PStr "mid"]), (PInt 200).
    repeat split. apply list_elem_of_here.
  - apply (proj2 (proj2 (ack_shape_decides (heartbeat Sample.connected)
                           _ 107))); [reflexivity|].
    intros (d & headers & code & [= <-] & [= <-] & Hmid & _). exact Hmid.
Defined.

(** C5, as stated, fails: one heartbeat has gone out, with the
    correlation id "hb-1"; a frame with the id "never-sent" comes in and
    moves the last-response time all the same. *)
Lemma unmatched_ack_updates :
  ∃ hb evs exit,
    loop_body (heartbeat Sample.connected) 1 true "hb-1" 115 115
    = (hb, evs, exit)
    ∧ sent_heartbeat_mids evs = ["hb-1"]
    ∧ getitem Sample.stray_ack "headers" ≫= (λ hs, getitem hs "mid")
      = Ok (PStr "never-sent")
    ∧ handle_response hb Sample.stray_ack 116
      = Ok (set_last_response hb 116, true)
    ∧ last_heartbeat_response hb = 100%Q
    ∧ last_heartbeat_response (set_last_response hb 116) = 116%Q.
Proof.
  do 3 eexists. split; [reflexivity|]. repeat split; reflexivity.
Qed.

(** ** The credential refresher *)

Lemma access_token_some token_result token :
  access_token token_result = Ok (Some token) →
  well_formed_token token_result.
Proof.
  unfold access_token, well_formed_token.
  destruct token_result as [| | | |s|l|d]; simpl; try done.
  - by destruct (str_contains "data" s).
  - by destruct (existsb _ l).
  - destruct (assoc "data" d) as [data|] eqn:Hd; simpl; [|done].
    destruct data as [| | | |s|l|inner]; simpl; try done.
    + by destruct (str_contains "accessToken" s).
    + by destruct (existsb _ l).
    + destruct (assoc "accessToken" inner) as [tok|] eqn:Ht; simpl; [|done].
      intros _. by exists d, inner, tok.
Qed.

Lemma access_token_of_shape d data token :
  assoc "data" d = Some (PDict data) →
  assoc "accessToken" data = Some token →
  access_token (PDict d) = Ok (Some token).
Proof.
  intros Hd Ht. unfold access_token; simpl. rewrite Hd; simpl.
  by rewrite Ht.
Qed.

Lemma refresh_token_malformed c token_result now :
  malformed token_result →
  ∃ evs, refresh_token c token_result now = (c, evs, PNone)
         ∧ none_of is_close evs ∧ sleeps evs = [].
Proof.
  unfold refresh_token. destruct token_result as [r|x]; simpl.
  - intros Hbad.
    destruct (access_token r) as [[token|]|] eqn:Ha.
    + by apply access_token_some in Ha.
    + eexists. split; [done|]. split; [quiet|done].
    + eexists. split; [done|]. split; [quiet|done].
  - intros _. eexists. split; [done|]. split; [quiet|done].
Qed.

(** A failed attempt is a malformed one, or one with a token that counts
    as false. *)
Lemma refresh_fails_cases token_result :
  refresh_fails token_result ↔
  malformed token_result
  ∨ ∃ d data token,
      token_result = Ok (PDict d)
      ∧ assoc "data" d = Some (PDict data)
      ∧ assoc "accessToken" data = Some token
      ∧ truthy token = false.
Proof.
  split.
  - intros Hfail. destruct token_result as [r|x]; [|by left].
    destruct (access_token r) as [[token|]|] eqn:Ha.
    + apply access_token_some in Ha as Hshape.
      destruct Hshape as (d & data & token' & -> & Hd & Ht).
      right. exists d, data, token'. by eauto.
    + left. intros (d & data & token & -> & Hd & Ht).
      by rewrite (access_token_of_shape _ _ _ Hd Ht) in Ha.
    + left. intros (d & data & token & -> & Hd & Ht).
      by rewrite (access_token_of_shape _ _ _ Hd Ht) in Ha.
  - intros [Hbad|(d & data & token & -> & Hd & Ht & Hfalsy)]
      d' data' token' Heq Hd' Ht'.
    + subst. destruct Hbad. by exists d', data', token'.
    + by simplify_eq.
Qed.

(** [refresh_token] returns a value that counts as false exactly when the
    attempt fails. *)
Lemma refresh_token_returns c token_result now :
  truthy (refresh_token c token_result now).2 = false
  ↔ refresh_fails token_result.
Proof.
  rewrite refresh_fails_cases. split.
  - unfold refresh_token. destruct token_result as [r|x]; simpl; [|by left].
    destruct (access_token r) as [[token|]|] eqn:Ha; simpl.
    + intros Hfalsy. apply access_token_some in Ha as Hshape.
      destruct Hshape as (d & data & token' & -> & Hd & Ht).
      rewrite (access_token_of_shape _ _ _ Hd Ht) in Ha. simplify_eq.
      right. by exists d, data, token.
    + intros _. left. intros (d & data & token & -> & Hd & Ht).
      by rewrite (access_token_of_shape _ _ _ Hd Ht) in Ha.
    + intros _. left. intros (d & data & token & -> & Hd & Ht).
      by rewrite (access_token_of_shape _ _ _ Hd Ht) in Ha.
  - intros [Hbad|(d & data & token & -> & Hd & Ht & Hfalsy)].
    + by destruct (refresh_token_malformed c token_result now Hbad)
        as (evs & -> & _).
    + unfold refresh_token; simpl.
      by rewrite (access_token_of_shape _ _ _ Hd Ht).
Qed.

(** When the refresh is due and the token-issuing call raises, or its
    result is not of the form [{"data": {"accessToken": ...}}], the pass
    of the refresh loop leaves the client as it was, token, issued-at
    time, restart flag and socket, closes nothing, and sleeps for the
    retry interval; the pass after that finds the refresh due again. *)
Lemma malformed_refresh_undisturbed c now token_result refreshed_at :
  (inject_Z (token_refresh_interval c) <= now - last_token_refresh_time c)%Q →
  malformed token_result →
  ∃ evs,
    token_refresh_pass c now token_result refreshed_at
    = (c, evs, RefreshAgainAfter (token_retry_interval c))
    ∧ none_of is_close evs
    ∧ sleeps evs = [token_retry_interval c]
    ∧ ∀ later, (now <= later)%Q →
        Qgeb (later - last_token_refresh_time c)
             (inject_Z (token_refresh_interval c)) = true.
Proof.
  intros Hdue Hfail. unfold token_refresh_pass, Qgeb.
  pose proof Hdue as Hdue'. apply Qle_bool_iff in Hdue'. rewrite Hdue'.
  destruct (refresh_token_malformed c token_result refreshed_at Hfail)
    as (evs & -> & Hclose & Hsleep); simpl.
  eexists. split; [done|]. split; [|split].
  - constructor; [done|]. apply Forall_app; split; [done|quiet].
  - unfold sleeps in *. simpl. rewrite omap_app, Hsleep. done.
  - intros later Hlater. apply Qle_bool_iff. lra.
Qed.

(** C6, where the code departs from it. The client holds "token-1",
    issued at 100; at 4000 the refresh is due, and the token-issuing call
    returns a result of the right form with an empty token. The attempt
    fails: the loop sleeps the retry interval, the restart flag stays
    down and the socket open. But the credential and its issued-at time
    have been overwritten, by the empty token and by 4001; and the pass
    after the sleep, whatever the token-issuing call would answer then,
    finds the refresh not due and sleeps on: there is no retry. *)
Theorem empty_token_overwrites_credential :
  let result := Ok (PDict [("data", PDict [("accessToken", PStr "")])]) in
  let c := Sample.connected in
  let c' := (token_refresh_pass c 4000 result 4001).1.1 in
  refresh_fails result
  ∧ (token_refresh_pass c 4000 result 4001).2 = RefreshAgainAfter 300
  ∧ sleeps (token_refresh_pass c 4000 result 4001).1.2 = [300%Z]
  ∧ connection_restart_flag c' = false
  ∧ ws c' = ws c
  ∧ current_token c = PStr "token-1"
  ∧ current_token c' = PStr ""
  ∧ last_token_refresh_time c = 100%Q
  ∧ last_token_refresh_time c' = 4001%Q
  ∧ ∀ token_result refreshed_at,
      token_refresh_pass c' 4301 token_result refreshed_at
      = (c', [EvSleep 60], RefreshAgainAfter 60).
Proof.
  intros result c c'. split.
  { intros d data token [= <-] [= <-] [= <-]. reflexivity. }
  repeat split; reflexivity.
Qed.

(** With a token in the result the same pass rotates it, raises the flag
    and closes the socket. *)
Example refresh_success_restarts :
  let result := Ok (PDict [("data", PDict [("accessToken", PStr "token-2")])]) in
  let '(c', evs, exit) := token_refresh_pass Sample.connected 4000 result 4001 in
  current_token c' = PStr "token-2"
  ∧ connection_restart_flag c' = true
  ∧ ws c' = Some {| sock_id := 1; sock_open := false |}
  ∧ exit = RefreshBreak.
Proof. vm_compute. by repeat split. Qed.

(** ** Order-status payloads *)

Lemma split_go_cons sep s : ∀ skip cur,
  ∃ piece rest, split_go sep skip cur s = piece :: rest.
Proof.
  induction s as [|c s IH]; intros skip cur; simpl; [by eauto|].
  destruct skip; [|by apply IH].
  destruct (str_prefix sep (String c s)); [by eauto|by apply IH].
Qed.

Lemma first_piece sep s : nth_str (str_split sep s) 0 = Ok (before sep s).
Proof.
  unfold before, str_split.
  by destruct (split_go_cons sep s 0 EmptyString) as (piece & rest & ->).
Qed.

(** What the order handler does with a payload that has a status label
    and a sender that is a str. *)
Lemma handle_order_message_labelled e d m3 label sender :
  assoc "3" d = Some (PDict m3) →
  assoc "redReminder" m3 = Some label →
  truthy label = true →
  assoc "1" d = Some (PStr sender) →
  let user_id := before "@" sender in
  let user_url :=
    String.append "https://www.goofish.com/personal?userId=" user_id in
  handle_order_message e (PDict d)
  = if eq_str label WAIT_BUYER_PAY
    then ([EvLog Info "order: waiting for payment"], true)
    else if eq_str label TRADE_CLOSED
    then ([EvLog Info "order: closed"], true)
    else if eq_str label WAIT_SELLER_SHIP
    then (EvLog Info "order: paid"
          :: send_order_notification e user_id user_url (PDict d), true)
    else ([], false).
Proof.
  intros H3 Hred Htruthy H1 user_id user_url.
  unfold handle_order_message; simpl.
  rewrite H3; simpl. rewrite Hred; simpl. rewrite Htruthy; simpl.
  rewrite H1; simpl. by rewrite first_piece.
Qed.

(** C7, as the code has it. For an order payload with a status label and
    a sender that is a str: the label "等待卖家发货" (waiting for the
    seller to ship) calls the webhook once, with the buyer id, the item
    title and the price, when a webhook URL is configured, and not at all
    when none is. Every other label calls nothing and is logged only: the
    handling of the payload is one log line, and nothing else. In every
    case the handling returns, and leaves the handler as it was. *)
Theorem order_notification e ws h d m3 label sender :
  assoc "3" d = Some (PDict m3) →
  assoc "redReminder" m3 = Some label →
  truthy label = true →
  assoc "1" d = Some (PStr sender) →
  let user_id := before "@" sender in
  let card :=
    {| card_user_id := user_id;
       card_user_url :=
         String.append "https://www.goofish.com/personal?userId=" user_id;
       card_price := default (PStr UNKNOWN_PRICE) (assoc "price" m3);
       card_item_title := default (PStr UNKNOWN_ITEM) (assoc "title" m3) |} in
  let r := handle_decoded e ws (PDict d) h in
  outcome r = Ok ()
  ∧ handler_after r = h
  ∧ notifications (trace r)
    = (if eq_str label WAIT_SELLER_SHIP && negb (String.eqb (webhook_url e) "")
       then [(webhook_url e, card)] else [])
  ∧ (eq_str label WAIT_SELLER_SHIP = false →
     ∃ level what, trace r = [EvLog level what]).
Proof.
  intros H3 Hred Htruthy H1 user_id card r. subst r.
  unfold handle_decoded.
  rewrite (handle_order_message_labelled e d m3 label sender) by done.
  fold user_id.
  assert (is_typing_status (PDict d) = false) as Htyping
    by (unfold is_typing_status; simpl; by rewrite H1).
  assert (is_chat_message (PDict d) = false) as Hchat
    by (unfold is_chat_message; simpl; by rewrite H1).
  destruct (eq_str label WAIT_BUYER_PAY) eqn:Ha.
  { apply eq_str_true in Ha as ->. repeat split; by eauto. }
  destruct (eq_str label TRADE_CLOSED) eqn:Hb.
  { apply eq_str_true in Hb as ->. repeat split; by eauto. }
  destruct (eq_str label WAIT_SELLER_SHIP) eqn:Hc.
  - unfold send_order_notification.
    destruct (String.eqb (webhook_url e) "") eqn:Hurl; simpl;
      [by repeat split|].
    rewrite H3; simpl. run_M.
    destruct (post_webhook e _ _) as [status|]; [|by repeat split].
    destruct (eq_int status 200); by repeat split.
  - run_M. rewrite Htyping, Hchat. simpl. repeat split; by eauto.
Qed.

(** The webhook is called once for a paid order, and an order that has
    been shipped is logged only. *)
Lemma order_notification_witness :
  notifications (trace (handle_decoded Sample.calm 1
                          (Sample.order WAIT_SELLER_SHIP) Sample.seller))
  = [("https://hook.example/notify",
      {| card_user_id := "buyer-7";
         card_user_url := "https://www.goofish.com/personal?userId=buyer-7";
         card_price := PStr "100";
         card_item_title := PStr "a phone" |})]
  ∧ ∃ level what,
      trace (handle_decoded Sample.calm 1 (Sample.order "已发货")
               Sample.seller)
      = [EvLog level what].
Proof.
  split.
  - exact (proj1 (proj2 (proj2
      (order_notification Sample.calm 1 Sample.seller
         [("1", PStr "buyer-7@goofish");
          ("3", PDict [("redReminder", PStr WAIT_SELLER_SHIP);
                       ("title", PStr "a phone");
                       ("price", PStr "100")])]
         [("redReminder", PStr WAIT_SELLER_SHIP);
          ("title", PStr "a phone"); ("price", PStr "100")]
         (PStr WAIT_SELLER_SHIP) "buyer-7@goofish"
         eq_refl eq_refl eq_refl eq_refl)))).
  - exact (proj2 (proj2 (proj2
      (order_notification Sample.calm 1 Sample.seller
         [("1", PStr "buyer-7@goofish");
          ("3", PDict [("redReminder", PStr "已发货");
                       ("title", PStr "a phone");
                       ("price", PStr "100")])]
         [("redReminder", PStr "已发货");
          ("title", PStr "a phone"); ("price", PStr "100")]
         (PStr "已发货") "buyer-7@goofish"
         eq_refl eq_refl eq_refl eq_refl))) eq_refl).
Defined.

(** C7, as stated, fails: with no webhook URL configured a paid order is
    taken as handled and logged, and the webhook is not called. *)
Lemma paid_order_without_webhook :
  webhook_url Sample.no_webhook = ""
  ∧ handle_order_message Sample.no_webhook (Sample.order WAIT_SELLER_SHIP)
    = ([EvLog Info "order: paid"], true)
  ∧ notifications (trace (handle_decoded Sample.no_webhook 1
                            (Sample.order WAIT_SELLER_SHIP) Sample.seller))
    = [].
Proof. repeat split; reflexivity. Qed.

(** ** The reply and its socket *)

Lemma lookup_item_quiet e item_id h :
  ∃ r evs, lookup_item e item_id h = (r, h, evs) ∧ no_reply evs.
Proof.
  unfold lookup_item. run_M.
  destruct (db_get_item_info e item_id) as [info|]; simpl;
    [|do 2 eexists; split; [done|quiet]].
  destruct (truthy info); simpl; [do 2 eexists; split; [done|quiet]|].
  destruct (api_get_item_info e item_id) as [api|]; simpl;
    [|do 2 eexists; split; [done|quiet]].
  destruct (exc_bind _ _ _ _) as [[|]|]; simpl;
    [|do 2 eexists; split; [done|quiet]..].
  destruct (exc_bind _ _ _ _) as [info'|]; simpl;
    [|do 2 eexists; split; [done|quiet]].
  destruct (db_save_item_info e item_id info'); simpl;
    do 2 eexists; (split; [done|quiet]).
Qed.



Lemma no_reply_not_submitted evs job : no_reply evs → EvSubmit job ∉ evs.
Proof.
  unfold no_reply, none_of. rewrite Forall_forall.
  intros Hall Hin. by apply Hall in Hin.
Qed.



(** An [EvSubmit] found in a trace written out is the one written. *)
Ltac find_submit Hin Hq :=
  repeat first
    [ apply elem_of_nil in Hin; destruct Hin
    | apply elem_of_cons in Hin as [Hin|Hin]; [try discriminate Hin|]
    | apply elem_of_app in Hin as [Hin|Hin];
        [by apply (no_reply_not_submitted _ _ Hq) in Hin|]
    | by apply (no_reply_not_submitted _ _ Hq) in Hin ].



(** The socket the message came from is closed by the time the reply is
    there: the write is tried on it all the same, and raises. *)
Example reply_written_to_closed_socket :
  let r := handle_decoded Sample.closed_meanwhile 1 Sample.buyer_says_hi
             Sample.seller in
  ws_open_reply Sample.closed_meanwhile = false
  ∧ existsb is_submit (trace r) = true
  ∧ last (trace r)
    = Some (EvSendFailed 1
              (chat_frame Sample.closed_meanwhile Sample.seller "c1"
                 (PStr "buyer-7") (PStr "hello")))
  ∧ outcome r = Raise ConnectionClosed.
Proof. repeat split; reflexivity. Qed.


(** *** The socket of a turn *)












(** The writes of the two turns: registration, sync acknowledgement,
    acknowledgement of the frame, reply and heartbeat, on socket 1 while
    it is current, then on socket 2. *)
Example two_turns_written :
  Spec2.written (Run.main Sample.fresh_client "device-1" Sample2.two_turns)
  = [(Some 1, 1); (Some 1, 1); (Some 1, 1); (Some 1, 1); (Some 1, 1);
     (Some 2, 2); (Some 2, 2); (Some 2, 2); (Some 2, 2); (Some 2, 2)].
Proof. vm_compute. reflexivity. Qed.

(** ** Teardown and reconnection *)

(** C9. However the connection ends, by [ConnectionClosed], by another
    error or by the receive loop being left, the heartbeat task and the
    refresh task are cancelled and awaited, so that neither is running
    afterwards; then the next connection is tried at once when the
    restart flag is up, and after a sleep of 5 seconds, and no other
    sleep, when it is not. *)
Theorem teardown_then_reconnect c how :
  let '(c', evs) := connection_ended c how in
  task (heartbeat c') ≠ Some Running
  ∧ token_refresh_task c' ≠ Some Running
  ∧ (task (heartbeat c) = Some Running →
     task (heartbeat c') = Some Cancelled)
  ∧ (token_refresh_task c = Some Running →
     token_refresh_task c' = Some Cancelled)
  ∧ sleeps evs = (if connection_restart_flag c then [] else [5%Z])
  ∧ (sleeps evs = [] ↔ connection_restart_flag c = true).
Proof.
  unfold connection_ended, finally_block, Heartbeat.stop, cancel_and_await.
  simpl.
  destruct (connection_restart_flag c); simpl;
    destruct (task (heartbeat c)) as [[]|] eqn:Hhb;
    destruct (token_refresh_task c) as [[]|] eqn:Htok;
    destruct how; simpl; rewrite ?Hhb; naive_solver.
Qed.

(** An unexpected close with both tasks running, and a planned restart. *)
Lemma teardown_then_reconnect_witness :
  task (heartbeat (connection_ended Sample.connected EndClosed).1)
  = Some Cancelled
  ∧ token_refresh_task (connection_ended Sample.connected EndClosed).1
    = Some Cancelled
  ∧ sleeps (connection_ended Sample.connected EndClosed).2 = [5%Z]
  ∧ sleeps (connection_ended (set_restart_flag Sample.connected true)
              EndLoop).2 = [].
Proof.
  pose proof (teardown_then_reconnect Sample.connected EndClosed) as H1.
  pose proof (teardown_then_reconnect
                (set_restart_flag Sample.connected true) EndLoop) as H2.
  destruct H1 as (_ & _ & Hhb & Htok & Hsleep & _).
  destruct H2 as (_ & _ & _ & _ & _ & Himm).
  split; [exact (Hhb eq_refl)|]. split; [exact (Htok eq_refl)|].
  split; [exact Hsleep|]. exact (proj2 Himm eq_refl).
Defined.

(** ** The seller's toggle *)

Lemma str_prefix_refl s : str_prefix s s = true.
Proof.
  induction s as [|c s IH]; simpl; [done|]. by rewrite Ascii.eqb_refl.
Qed.

Lemma str_contains_refl s : str_contains s s = true.
Proof. destruct s; simpl; [done|]. by rewrite Ascii.eqb_refl, str_prefix_refl. Qed.

Lemma no_toggle_not_in evs chat_id mode :
  no_toggle evs → EvToggle chat_id mode ∉ evs.
Proof.
  unfold no_toggle, none_of. rewrite Forall_forall.
  intros Hall Hin. by apply Hall in Hin.
Qed.

Lemma lookup_item_no_toggle e item_id h :
  no_toggle (trace (lookup_item e item_id h))
  ∧ no_record (trace (lookup_item e item_id h)).
Proof.
  unfold lookup_item. run_M.
  destruct (db_get_item_info e item_id) as [info|]; simpl; [|split; quiet].
  destruct (truthy info); simpl; [split; quiet|].
  destruct (api_get_item_info e item_id) as [api|]; simpl; [|split; quiet].
  destruct (exc_bind _ _ _ _) as [[|]|]; simpl; [|split; quiet..].
  destruct (exc_bind _ _ _ _) as [info'|]; simpl; [|split; quiet].
  destruct (db_save_item_info e item_id info'); simpl; split; quiet.
Qed.

Lemma handle_order_message_no_toggle e message :
  no_toggle (handle_order_message e message).1
  ∧ no_record (handle_order_message e message).1.
Proof.
  unfold handle_order_message.
  destruct (_ ≫= _) as [[[red user_id]|]|]; simpl; [|split; quiet..].
  destruct (eq_str red WAIT_BUYER_PAY); [split; quiet|].
  destruct (eq_str red TRADE_CLOSED); [split; quiet|].
  destruct (eq_str red WAIT_SELLER_SHIP); [|split; quiet].
  simpl. unfold send_order_notification.
  destruct (String.eqb _ _); [split; quiet|].
  destruct (try_except _ _) as [title price].
  destruct (post_webhook e _ _) as [status|]; [|split; quiet].
  destruct (eq_int status 200); split; quiet.
Qed.

(** A toggle found in a trace written out around the trace of the item
    lookup, which has none. *)
Ltac find_toggle Hin Hq :=
  repeat first
    [ apply elem_of_nil in Hin; destruct Hin
    | apply elem_of_cons in Hin as [Hin|Hin]; [try discriminate Hin|]
    | apply elem_of_app in Hin as [Hin|Hin];
        [by apply (no_toggle_not_in _ _ _ Hq) in Hin|]
    | by apply (no_toggle_not_in _ _ _ Hq) in Hin ].

Lemma dispatch_toggle e ws message name uid text item_id chat_id h :
  let r := dispatch e ws message name uid text item_id chat_id h in
  (∀ cid mode,
     EvToggle cid mode ∈ trace r →
     eq_str uid (myid h) = true
     ∧ check_toggle_keywords h text = Ok true
     ∧ no_record (trace r) ∧ no_reply (trace r))
  ∧ (eq_str uid (myid h) = true →
     check_toggle_keywords h text = Ok true →
     ∃ mode,
       toggle_manual_mode h chat_id (now_mode e) (now_enter e)
       = (handler_after r, mode)
       ∧ EvToggle chat_id mode ∈ trace r
       ∧ outcome r = Ok ()).
Proof.
  assert (no_toggle []) as Hnil by quiet.
  unfold dispatch, send_msg, ws_send. run_M.
  destruct (eq_str uid (myid h)).
  { destruct (check_toggle_keywords h text) as [[|]|]; simpl.
    - destruct (toggle_manual_mode h chat_id (now_mode e) (now_enter e))
        as [h1 mode]; simpl.
      split; [intros cid m _; split; [done|split; [done|split; quiet]]|].
      intros _ _. exists mode. split; [done|]. split; [|done].
      apply list_elem_of_here.
    - split; [|done]. intros cid m Hin.
      destruct (add_message_by_chat e _ _ _ _ _); simpl in Hin;
        find_toggle Hin Hnil.
    - split; [|done]. intros cid m Hin. find_toggle Hin Hnil. }
  split; [|done]. intros cid m Hin. exfalso.
  destruct (add_message_by_chat e _ _ _ _ _); simpl in Hin;
    [|find_toggle Hin Hnil].
  destruct (is_manual_mode h chat_id (now_mode e)) as [h1 active];
    simpl in Hin.
  destruct active; simpl in Hin; [find_toggle Hin Hnil|].
  destruct (is_system_message message); simpl in Hin; [find_toggle Hin Hnil|].
  pose proof (proj1 (lookup_item_no_toggle e item_id h1)) as Hq.
  unfold trace in Hq.
  destruct (lookup_item e item_id h1) as [[[[info|]|x] h2] evs];
    simpl in Hin, Hq; [|find_toggle Hin Hq..].
  destruct (item_description_of info) as [description|]; simpl in Hin;
    [|find_toggle Hin Hq].
  destruct (process_message e _) as [bot_reply|]; simpl in Hin;
    [|find_toggle Hin Hq].
  destruct (ws_open_reply e); simpl in Hin; find_toggle Hin Hq.
Qed.

(** A message of the owner that is no toggle leaves the registry as it
    was. *)
Lemma owner_message_keeps_handler e ws message h create_time name text :
  read_chat_fields message = Ok (create_time, name, PStr (myid h), text) →
  check_toggle_keywords h text ≠ Ok true →
  handler_after (handle_decoded e ws message h) = h.
Proof.
  intros Hread Hkw. unfold handle_decoded.
  destruct (handle_order_message e message) as [order_events handled].
  run_M.
  destruct handled; [done|]. destruct (is_typing_status message); [done|].
  destruct (is_chat_message message); simpl; [|done].
  rewrite Hread; simpl.
  destruct (expired e h create_time) as [[|]|]; simpl; try done.
  destruct (read_routing message) as [[item_id chat_id]|]; simpl; [|done].
  destruct item_id as [[|c item_id]|]; simpl; try done.
  unfold dispatch. run_M. rewrite String.eqb_refl.
  destruct (check_toggle_keywords h text) as [[|]|]; simpl; [done| |done].
  by destruct (add_message_by_chat e _ _ _ _ _).
Qed.

Lemma check_toggle_keywords_true h text :
  check_toggle_keywords h text = Ok true →
  ∃ s, text = PStr s ∧ str_contains (str_strip s) (toggle_keywords h) = true.
Proof.
  unfold check_toggle_keywords. destruct text as [| | | |s| |]; simpl; try done.
  intros [= Hin]. by exists s.
Qed.

(** C4, as the code has it. A toggle is only ever triggered by a message
    whose sender is the account owner and whose trimmed text is contained
    in the configured toggle phrase, and the message that triggers it is
    neither recorded nor replied to. A message of the owner that is
    within the expiry window, carries an item id, and whose trimmed text
    equals the configured toggle phrase does trigger the toggle. A
    message of the owner whose trimmed text is not contained in the
    phrase triggers none. *)
Theorem toggle_by_owner e ws message h :
  let r := handle_decoded e ws message h in
  (∀ cid mode,
     EvToggle cid mode ∈ trace r →
     (∃ create_time name text,
        read_chat_fields message
        = Ok (create_time, name, PStr (myid h), PStr text)
        ∧ str_contains (str_strip text) (toggle_keywords h) = true)
     ∧ no_record (trace r) ∧ no_reply (trace r))
  ∧ (∀ create_time name text item_id chat_id,
       is_chat_message message = true →
       read_chat_fields message
       = Ok (create_time, name, PStr (myid h), PStr text) →
       expired e h create_time = Ok false →
       read_routing message = Ok (Some item_id, chat_id) →
       item_id ≠ EmptyString →
       str_strip text = toggle_keywords h →
       ∃ mode,
         toggle_manual_mode h chat_id (now_mode e) (now_enter e)
         = (handler_after r, mode)
         ∧ EvToggle chat_id mode ∈ trace r
         ∧ outcome r = Ok ())
  ∧ (∀ create_time name text,
       read_chat_fields message
       = Ok (create_time, name, PStr (myid h), PStr text) →
       str_contains (str_strip text) (toggle_keywords h) = false →
       no_toggle (trace r) ∧ handler_after r = h).
Proof.
  pose proof (handle_order_message_no_reply e message) as Hord.
  pose proof (handle_order_message_no_toggle e message) as [Hordt Hordr].
  assert (∀ cid mode,
            EvToggle cid mode ∈ trace (handle_decoded e ws message h) →
            (∃ create_time name text,
               read_chat_fields message
               = Ok (create_time, name, PStr (myid h), PStr text)
               ∧ str_contains (str_strip text) (toggle_keywords h) = true)
            ∧ no_record (trace (handle_decoded e ws message h))
            ∧ no_reply (trace (handle_decoded e ws message h))) as Honly.
  { destruct (is_chat_message message) eqn:Hchat.
    - rewrite chat_message_reads by done.
      destruct (handle_order_message e message) as [order_events handled].
      simpl in Hord, Hordt, Hordr. run_M.
      intros cid mode Hin.
      destruct (read_chat_fields message)
        as [[[[create_time name] uid] text]|]; simpl in *;
        [|rewrite app_nil_r in Hin; find_toggle Hin Hordt].
      destruct (expired e h create_time) as [[|]|]; simpl in *;
        [find_toggle Hin Hordt| |rewrite app_nil_r in Hin;
                                  find_toggle Hin Hordt].
      destruct (read_routing message) as [[item_id chat_id]|]; simpl in *;
        [|rewrite app_nil_r in Hin; find_toggle Hin Hordt].
      destruct item_id as [[|c item_id]|]; simpl in *;
        [find_toggle Hin Hordt| |find_toggle Hin Hordt].
      pose proof (dispatch_toggle e ws message name uid text
                    (String c item_id) chat_id h) as [Hown _].
      destruct (dispatch _ _ _ _ _ _ _ _ _) as [[r h'] evs]; simpl in *.
      apply elem_of_app in Hin as [Hin|Hin];
        [by apply (no_toggle_not_in _ _ _ Hordt) in Hin|].
      destruct (Hown cid mode Hin) as (->%eq_str_true & Hkw & Hrec & Hrep).
      apply check_toggle_keywords_true in Hkw as (s & -> & Hkw).
      split; [by eauto 6|]. split; by apply Forall_app_2.
    - intros cid mode Hin. exfalso.
      unfold handle_decoded in Hin.
      destruct (handle_order_message e message) as [order_events handled].
      simpl in Hordt. run_M.
      destruct handled; simpl in Hin;
        [rewrite app_nil_r in Hin; find_toggle Hin Hordt|].
      destruct (is_typing_status message); simpl in Hin;
        [rewrite app_nil_r in Hin; find_toggle Hin Hordt|].
      rewrite Hchat in Hin; simpl in Hin. find_toggle Hin Hordt. }
  intros r. subst r. split; [exact Honly|]. split.
  - intros create_time name text item_id chat_id Hchat Hread Hfresh Hroute
      Hitem Hkw.
    rewrite chat_message_reads by done.
    destruct (handle_order_message e message) as [order_events handled].
    run_M. rewrite Hread. simpl. rewrite Hfresh. simpl. rewrite Hroute. simpl.
    destruct item_id as [|c item_id]; [done|].
    pose proof (dispatch_toggle e ws message name (PStr (myid h))
                  (PStr text) (String c item_id) chat_id h) as [_ Htog].
    destruct (dispatch _ _ _ _ _ _ _ _ _) as [[r h'] evs]; simpl in *.
    destruct Htog as (mode & Hmode & Hin & Hout).
    { by rewrite String.eqb_refl. }
    { unfold check_toggle_keywords; simpl.
      by rewrite Hkw, str_contains_refl. }
    exists mode. split; [done|]. split; [|done].
    apply elem_of_app. by right.
  - intros create_time name text Hread Hout.
    assert (no_toggle (trace (handle_decoded e ws message h))) as Hnone.
    { unfold no_toggle, none_of. apply Forall_forall. intros [] Hin; try done.
      destruct (Honly _ _ Hin) as ((ct & nm & text' & Hread' & Hin') & _).
      rewrite Hread in Hread'. simplify_eq. congruence. }
    split; [done|].
    apply (owner_message_keeps_handler _ _ _ _ _ _ _ Hread).
    unfold check_toggle_keywords; simpl. by rewrite Hout.
Qed.

(** The seller sends the toggle phrase with blanks around it; and the
    seller's "on my way" toggles nothing. *)
Lemma toggle_by_owner_witness :
  let message :=
    Sample.chat "c1@goofish" 999000 "me" "seller" " 。 " Sample.item_url in
  let r := handle_decoded Sample.calm 1 message Sample.seller in
  (∃ mode,
     toggle_manual_mode Sample.seller "c1" 1000 1000 = (handler_after r, mode)
     ∧ EvToggle "c1" mode ∈ trace r
     ∧ outcome r = Ok ())
  ∧ no_toggle (trace (handle_decoded Sample.calm 1 Sample2.seller_replies
                        Sample.seller)).
Proof.
  intros message r. split.
  - apply (proj1 (proj2 (toggle_by_owner Sample.calm 1 message Sample.seller))
             999000%Z (PStr "me") " 。 " "42" "c1");
      try reflexivity. discriminate.
  - apply (proj2 (proj2 (toggle_by_owner Sample.calm 1 Sample2.seller_replies
                           Sample.seller))
             999000%Z (PStr "me") "on my way"); reflexivity.
Defined.

(** C4, as stated, fails: the test is [in] on a str, a substring test.
    The seller typing only blanks, whose trimmed text is empty, toggles
    the conversation under the default phrase; and under the phrase
    "manual" the seller's "a" toggles it too. *)
Lemma blank_text_toggles :
  let r := handle_decoded Sample.calm 1 Sample.seller_types_blanks
             Sample.seller in
  let h' := Handler.init "seller" 3600 "manual" 300000 in
  let r' := handle_decoded Sample.calm 1
              (Sample.chat "c1@goofish" 999000 "me" "seller" "a"
                 Sample.item_url) h' in
  str_strip "   " = ""
  ∧ str_strip "   " ≠ toggle_keywords Sample.seller
  ∧ existsb is_toggle (trace r) = true
  ∧ elements (manual_mode_conversations (handler_after r)) = ["c1"]
  ∧ str_strip "a" ≠ toggle_keywords h'
  ∧ existsb is_toggle (trace r') = true.
Proof.
  repeat split; try reflexivity; discriminate.
Qed.

(** * More properties *)

Import Session Spec2.

(** ** The registry: round trips, expiry, independence *)

Lemma handler_eta h :
  set_manual h (manual_mode_conversations h) (manual_mode_timestamps h) = h.
Proof. by destruct h. Qed.

Lemma toggle_absent h chat_id now entered :
  chat_id ∉ manual_mode_conversations h →
  toggle_manual_mode h chat_id now entered
  = (enter_manual_mode h chat_id entered, "manual").
Proof.
  intros Hout. unfold toggle_manual_mode, is_manual_mode.
  by rewrite bool_decide_false.
Qed.

Lemma entered_is_active h chat_id entered now :
  (now - entered <= inject_Z (manual_mode_timeout h))%Q →
  is_manual_mode (enter_manual_mode h chat_id entered) chat_id now
  = (enter_manual_mode h chat_id entered, true).
Proof.
  intros Hfresh%Qgtb_false. unfold is_manual_mode; simpl.
  rewrite bool_decide_true by set_solver.
  by rewrite lookup_insert_eq, Hfresh.
Qed.

Lemma add_then_remove (s : gset string) c : c ∉ s → ({[c]} ∪ s) ∖ {[c]} = s.
Proof.
  intros Hout. apply set_eq. intros x.
  rewrite elem_of_difference, elem_of_union, elem_of_singleton.
  split; [by intros [[->|?] ?]|].
  intros Hx. split; [by right|]. by intros ->.
Qed.

Lemma exit_enter h chat_id entered :
  chat_id ∉ manual_mode_conversations h →
  manual_mode_timestamps h !! chat_id = None →
  exit_manual_mode (enter_manual_mode h chat_id entered) chat_id = h.
Proof.
  intros Hout Hts. unfold exit_manual_mode, enter_manual_mode, set_manual.
  simpl. rewrite delete_insert_eq, delete_id, add_then_remove by done.
  by destruct h.
Qed.

(** X1. Toggling a conversation that is not in the registry, and toggling
    it again before the takeover has timed out, answers "manual" and then
    "auto", and leaves the handler as it was. *)
Theorem toggle_twice_restores h chat_id now1 entered1 now2 entered2 :
  chat_id ∉ manual_mode_conversations h →
  manual_mode_timestamps h !! chat_id = None →
  (now2 - entered1 <= inject_Z (manual_mode_timeout h))%Q →
  let first := toggle_manual_mode h chat_id now1 entered1 in
  let second := toggle_manual_mode first.1 chat_id now2 entered2 in
  first.2 = "manual" ∧ second.2 = "auto" ∧ second.1 = h.
Proof.
  intros Hout Hts Hfresh first second. subst second first.
  rewrite toggle_absent by done. simpl.
  unfold toggle_manual_mode. rewrite entered_is_active by done. simpl.
  by rewrite exit_enter.
Qed.

Lemma toggle_twice_restores_witness :
  (toggle_manual_mode
     (toggle_manual_mode Sample.seller "c1" 10 10).1 "c1" 500 500).1
  = Sample.seller.
Proof.
  refine (proj2 (proj2 (toggle_twice_restores Sample.seller "c1" 10 10 500 500
                          _ _ _))).
  - set_solver.
  - reflexivity.
  - vm_compute. discriminate.
Defined.

(** X2. A conversation whose takeover is older than the timeout is
    reported inactive by [is_manual_mode], and that very call removes it
    from the set and from the times; every other conversation is left as
    it was. *)
Theorem lazy_expiry_removes h chat_id entered now :
  chat_id ∈ manual_mode_conversations h →
  manual_mode_timestamps h !! chat_id = Some entered →
  (inject_Z (manual_mode_timeout h) < now - entered)%Q →
  let after := (is_manual_mode h chat_id now).1 in
  (is_manual_mode h chat_id now).2 = false
  ∧ (chat_id ∉ manual_mode_conversations after)
  ∧ manual_mode_timestamps after !! chat_id = None
  ∧ ∀ other, other ≠ chat_id →
      (other ∈ manual_mode_conversations after
       ↔ other ∈ manual_mode_conversations h)
      ∧ (manual_mode_timestamps after !! other
         = manual_mode_timestamps h !! other).
Proof.
  intros Hin Hts Hold%Qgtb_true after. subst after.
  unfold is_manual_mode. rewrite bool_decide_true, Hts, Hold by done. simpl.
  split; [done|]. split; [|split].
  - rewrite elem_of_difference, elem_of_singleton. by intros [_ []].
  - apply lookup_delete_eq.
  - intros other Hne. split.
    + rewrite elem_of_difference, elem_of_singleton.
      split; [by intros [? _]|by intros ?].
    + by apply lookup_delete_ne.
Qed.

Lemma lazy_expiry_removes_witness :
  let h := enter_manual_mode Sample.seller "c1" 100 in
  (is_manual_mode h "c1" 3701).2 = false
  ∧ "c1" ∉ manual_mode_conversations (is_manual_mode h "c1" 3701).1.
Proof.
  intros h.
  destruct (lazy_expiry_removes h "c1" 100 3701) as (Hoff & Hout & _).
  - apply elem_of_union_l, elem_of_singleton. reflexivity.
  - apply lookup_insert_eq.
  - vm_compute. reflexivity.
  - split; [exact Hoff|exact Hout].
Defined.

(** What [is_manual_mode] answers about a conversation depends on the
    handler only through the conversation's own entry and the timeout. *)
Lemma is_manual_mode_ext h h' other now :
  (other ∈ manual_mode_conversations h'
   ↔ other ∈ manual_mode_conversations h) →
  manual_mode_timestamps h' !! other = manual_mode_timestamps h !! other →
  manual_mode_timeout h' = manual_mode_timeout h →
  (is_manual_mode h' other now).2 = (is_manual_mode h other now).2.
Proof.
  intros Hin Hts Hto. unfold is_manual_mode.
  rewrite (bool_decide_ext _ _ Hin), Hts, Hto.
  destruct (bool_decide _); [|done].
  destruct (manual_mode_timestamps h !! other); [|done].
  by destruct (Qgtb _ _).
Qed.

Lemma enter_elsewhere h chat_id entered other now :
  other ≠ chat_id →
  (is_manual_mode (enter_manual_mode h chat_id entered) other now).2
  = (is_manual_mode h other now).2.
Proof.
  intros Hne. apply is_manual_mode_ext; simpl; [|by apply lookup_insert_ne|done].
  rewrite elem_of_union, elem_of_singleton.
  split; [by intros [?|?]|by right].
Qed.

Lemma exit_elsewhere h chat_id other now :
  other ≠ chat_id →
  (is_manual_mode (exit_manual_mode h chat_id) other now).2
  = (is_manual_mode h other now).2.
Proof.
  intros Hne. apply is_manual_mode_ext; simpl; [|by apply lookup_delete_ne|done].
  rewrite elem_of_difference, elem_of_singleton.
  split; [by intros [? _]|by intros ?].
Qed.

Lemma is_manual_mode_elsewhere h chat_id t other now :
  other ≠ chat_id →
  (is_manual_mode (is_manual_mode h chat_id t).1 other now).2
  = (is_manual_mode h other now).2.
Proof.
  intros Hne. unfold is_manual_mode at 2.
  destruct (bool_decide _); [|done].
  destruct (manual_mode_timestamps h !! chat_id); [|done].
  destruct (Qgtb _ _); [|done]. by apply exit_elsewhere.
Qed.

(** X3. The operations of the registry are local: entering, leaving,
    toggling or looking up one conversation does not change what
    [is_manual_mode] answers about any other conversation. *)
Theorem registry_ops_are_local h op other now :
  other ≠ target op →
  (is_manual_mode (apply_op h op) other now).2
  = (is_manual_mode h other now).2.
Proof.
  destruct op as [c t|c|c t entered|c t]; simpl; intros Hne.
  - by apply enter_elsewhere.
  - by apply exit_elsewhere.
  - unfold toggle_manual_mode.
    pose proof (is_manual_mode_elsewhere h c t other now Hne) as Hsame.
    destruct (is_manual_mode h c t) as [h1 []]; simpl in *.
    + by rewrite exit_elsewhere.
    + by rewrite enter_elsewhere.
  - by apply is_manual_mode_elsewhere.
Qed.

Lemma registry_ops_are_local_witness :
  let h := enter_manual_mode Sample.seller "c1" 100 in
  (is_manual_mode (apply_op h (OpToggle "c2" 200 200)) "c1" 300).2
  = (is_manual_mode h "c1" 300).2.
Proof.
  intros h.
  apply (registry_ops_are_local h (OpToggle "c2" 200 200) "c1" 300).
  discriminate.
Defined.

(** After [enter_manual_mode] at time [entered] the conversation is
    reported active exactly up to the timeout, the bound included, and
    after [exit_manual_mode] it is reported inactive at any time. *)
Theorem enter_then_lookup h chat_id entered now :
  ((is_manual_mode (enter_manual_mode h chat_id entered) chat_id now).2 = true
   ↔ (now - entered <= inject_Z (manual_mode_timeout h))%Q)
  ∧ (is_manual_mode (exit_manual_mode h chat_id) chat_id now).2 = false.
Proof.
  split.
  - unfold is_manual_mode; simpl.
    rewrite bool_decide_true, lookup_insert_eq
      by (rewrite elem_of_union, elem_of_singleton; by left).
    destruct (Qgtb _ _) eqn:Hgt; simpl.
    + apply Qgtb_true in Hgt. split; [done|]. intros Hle.
      by apply Qle_not_lt in Hle.
    + by apply Qgtb_false in Hgt.
  - unfold is_manual_mode; simpl.
    rewrite bool_decide_false; [done|].
    rewrite elem_of_difference, elem_of_singleton. by intros [_ []].
Qed.

Lemma enter_then_lookup_witness :
  (is_manual_mode (enter_manual_mode Sample.seller "c1" 100) "c1" 3700).2
  = true.
Proof.
  apply (proj1 (enter_then_lookup Sample.seller "c1" 100 3700)).
  vm_compute. discriminate.
Defined.

(** ** The kinds of payload *)

Lemma is_typing_status_inv message :
  is_typing_status message = true →
  ∃ d l, message = PDict d ∧ assoc "1" d = Some (PList l).
Proof.
  unfold is_typing_status.
  destruct message as [| | | | | |d]; simpl; try done.
  unfold getitem.
  destruct (assoc "1" d) as [m1|] eqn:H1; simpl; [|done].
  destruct m1 as [| | | | |l|]; simpl; try done.
  intros _. by exists d, l.
Qed.

(** X4. The three kinds of payload exclude each other: a chat message is
    not a typing status, and the order handler takes neither a chat
    message nor a typing status as handled. *)
Theorem payload_kinds_exclusive e message :
  (is_chat_message message = true →
   is_typing_status message = false
   ∧ (handle_order_message e message).2 = false)
  ∧ (is_typing_status message = true →
     is_chat_message message = false
     ∧ (handle_order_message e message).2 = false).
Proof.
  split.
  - intros Hchat. split;
      [by apply chat_message_not_typing|by apply chat_message_not_order].
  - intros Htyping. split.
    + destruct (is_chat_message message) eqn:Hchat; [|done].
      apply chat_message_not_typing in Hchat. congruence.
    + apply is_typing_status_inv in Htyping as (d & l & -> & H1).
      unfold handle_order_message; simpl.
      destruct (get (default (PDict []) (assoc "3" d)) "redReminder" (PStr ""))
        as [red|]; simpl; [|done].
      destruct (truthy red); simpl; [|done].
      by rewrite H1.
Qed.

Lemma payload_kinds_exclusive_witness :
  is_typing_status Sample.buyer_says_hi = false
  ∧ (handle_order_message Sample.calm Sample.buyer_says_hi).2 = false.
Proof.
  apply (proj1 (payload_kinds_exclusive Sample.calm Sample.buyer_says_hi)).
  reflexivity.
Defined.

(** ** The acknowledgement *)

(** X5. The acknowledgement of a frame whose headers are an object has
    the code 200 and mirrors the headers: [mid] is the frame's, or a
    generated one when the frame has none; [sid] is the frame's, or
    empty; [app-key], [ua] and [dt] are there exactly when the frame has
    them, with the frame's values; and there is no other header. *)
Theorem ack_mirrors_headers e d hs :
  assoc "headers" d = Some (PDict hs) →
  ∃ ack_hs,
    ack_frame e (PDict d)
    = Ok (Some (PDict [("code", PInt 200); ("headers", PDict ack_hs)]))
    ∧ assoc "mid" ack_hs
      = Some (default (PStr (generate_mid e)) (assoc "mid" hs))
    ∧ assoc "sid" ack_hs = Some (default (PStr "") (assoc "sid" hs))
    ∧ assoc "app-key" ack_hs = assoc "app-key" hs
    ∧ assoc "ua" ack_hs = assoc "ua" hs
    ∧ assoc "dt" ack_hs = assoc "dt" hs
    ∧ ∀ key, is_Some (assoc key ack_hs) → key ∈ ACK_KEYS.
Proof.
  intros Hh. unfold ack_frame; simpl. rewrite Hh; simpl.
  eexists. split; [reflexivity|].
  destruct (assoc "app-key" hs) as [k|] eqn:Hk;
    destruct (assoc "ua" hs) as [u|] eqn:Hu;
    destruct (assoc "dt" hs) as [t|] eqn:Ht; simpl;
    (repeat split; try done);
    intros key; unfold ACK_KEYS;
    repeat match goal with
           | |- context [String.eqb key ?k] =>
               destruct (String.eqb_spec key k) as [->|?];
               [intros _; rewrite !elem_of_cons; by auto 10|]
           end;
    by intros [? [=]].
Qed.

Lemma ack_mirrors_headers_witness :
  ack_frame Sample.calm (Sample.sync_frame Sample.buyer_says_hi)
  = Ok (Some (PDict [("code", PInt 200);
                     ("headers", PDict [("mid", PStr "m-17");
                                        ("sid", PStr "s-3")])])).
Proof.
  destruct (ack_mirrors_headers Sample.calm
              [("headers", PDict [("mid", PStr "m-17"); ("sid", PStr "s-3")]);
               ("body", PDict [("syncPushPackage",
                  PDict [("data",
                          PList [PDict [("data", Sample.buyer_says_hi)]])])])]
              [("mid", PStr "m-17"); ("sid", PStr "s-3")] eq_refl)
    as (ack_hs & Hack & _).
  reflexivity.
Defined.

(** After the acknowledgement, [handle] goes on as [after_ack]. *)
Lemma handle_after_ack e ws message_data h :
  handle e ws message_data h
  = ((send_ack e ws message_data;;
      if negb (is_sync_package message_data) then mret ()
      else
        sync_data ← lift (sync_entry message_data);
        has_data ← lift (contains "data" sync_data);
        if negb has_data then mret ()
        else
          match decode e sync_data with
          | Raise _ => emit [EvLog Error "decrypt failed"]
          | Ok None => mret ()
          | Ok (Some message) => handle_decoded e ws message
          end) h).
Proof. reflexivity. Qed.

(** X6. A failed acknowledgement is swallowed: whether or not the socket
    takes the acknowledgement, [handle] returns or raises the same,
    leaves the same handler, and does the same things after it. *)
Theorem ack_failure_is_swallowed e ws message_data h b :
  let r := handle e ws message_data h in
  let r' := handle (with_ack_open e b) ws message_data h in
  outcome r' = outcome r
  ∧ handler_after r' = handler_after r
  ∧ ∃ rest,
      trace r = trace (send_ack e ws message_data h) ++ rest
      ∧ trace r'
        = trace (send_ack (with_ack_open e b) ws message_data h) ++ rest.
Proof.
  intros r r'. subst r r'. rewrite !handle_after_ack.
  set (k := fun e0 (_ : ()) =>
    if negb (is_sync_package message_data) then mret ()
    else
      sync_data ← lift (sync_entry message_data);
      has_data ← lift (contains "data" sync_data);
      if negb has_data then mret ()
      else
        match decode e0 sync_data with
        | Raise _ => emit [EvLog Error "decrypt failed"]
        | Ok None => mret ()
        | Ok (Some message) => handle_decoded e0 ws message
        end).
  change (outcome ((send_ack (with_ack_open e b) ws message_data
                    ≫= k (with_ack_open e b)) h)
          = outcome ((send_ack e ws message_data ≫= k e) h)
          ∧ handler_after ((send_ack (with_ack_open e b) ws message_data
                            ≫= k (with_ack_open e b)) h)
            = handler_after ((send_ack e ws message_data ≫= k e) h)
          ∧ ∃ rest,
              trace ((send_ack e ws message_data ≫= k e) h)
              = trace (send_ack e ws message_data h) ++ rest
              ∧ trace ((send_ack (with_ack_open e b) ws message_data
                        ≫= k (with_ack_open e b)) h)
                = trace (send_ack (with_ack_open e b) ws message_data h)
                  ++ rest).
  assert (k (with_ack_open e b) = k e) as -> by reflexivity.
  rewrite !outcome_bind, !handler_after_bind, !trace_bind.
  destruct (send_ack_returns e ws message_data h) as [-> ->].
  destruct (send_ack_returns (with_ack_open e b) ws message_data h)
    as [-> ->].
  split; [done|]. split; [done|]. by eexists.
Qed.

(** A frame that is not a sync package with a non-empty data list is
    acknowledged and nothing else: nothing is raised, the handler stays as
    it was, and the trace is that of the acknowledgement. *)
Theorem non_sync_frame_only_acked e ws message_data h :
  is_sync_package message_data = false →
  outcome (handle e ws message_data h) = Ok ()
  ∧ handler_after (handle e ws message_data h) = h
  ∧ trace (handle e ws message_data h)
    = trace (send_ack e ws message_data h).
Proof.
  intros Hsync. rewrite handle_after_ack, Hsync. simpl.
  rewrite outcome_bind, handler_after_bind, trace_bind.
  destruct (send_ack_returns e ws message_data h) as [-> ->].
  by rewrite app_nil_r.
Qed.

Lemma non_sync_frame_only_acked_witness :
  trace (handle Sample.calm 1 Sample.stray_ack Sample.seller)
  = trace (send_ack Sample.calm 1 Sample.stray_ack Sample.seller).
Proof.
  apply (non_sync_frame_only_acked Sample.calm 1 Sample.stray_ack
           Sample.seller).
  reflexivity.
Defined.

(** X7. For a sync package whose first entry carries data: data that
    parses as it is is dropped without a word; data that cannot be
    decrypted and parsed is dropped with one error log. In both cases
    nothing is raised and the handler stays as it was. *)
Theorem undecodable_data_dropped e ws message_data sync_data data h :
  is_sync_package message_data = true →
  sync_entry message_data = Ok sync_data →
  contains "data" sync_data = Ok true →
  getitem sync_data "data" = Ok data →
  (is_plain_json e data = true ∨ raised (decrypt_json e data) = true) →
  outcome (handle e ws message_data h) = Ok ()
  ∧ handler_after (handle e ws message_data h) = h
  ∧ trace (handle e ws message_data h)
    = trace (send_ack e ws message_data h)
      ++ (if is_plain_json e data then []
          else [EvLog Error "decrypt failed"]).
Proof.
  intros Hsync Hentry Hhas Hdata Hbad.
  rewrite handle_after_ack, Hsync. simpl.
  rewrite outcome_bind, handler_after_bind, trace_bind.
  destruct (send_ack_returns e ws message_data h) as [-> ->].
  rewrite Hentry. unfold decode. run_M. rewrite Hhas, Hdata. simpl.
  destruct (is_plain_json e data); [done|].
  destruct Hbad as [|Hraise]; [done|].
  by destruct (decrypt_json e data).
Qed.

(** ** Messages that are dropped *)

(** The expiry test and [int] at sample inputs. At 1762257600.002 s a
    message created at 1762257300002 ms has the age 300000.0 as floats
    go, which is not above the window of 300000: it is not expired. A
    creation time of 10^400 is too large for a float. The creation time
    may be written in Arabic-Indic digits; a separator 0x1c before the
    digits is no white space for [int]. *)
Example expiry_test_and_int_at_samples :
  let e := with_clock Sample.calm Sample2.clock_2025 in
  valid_binary prec emax Sample2.clock_2025 = true
  ∧ expired e Sample.seller Sample2.created_2025 = Ok false
  ∧ expired e Sample.seller (Sample2.created_2025 - 1) = Ok true
  ∧ expired e Sample.seller (10 ^ 400) = Raise OverflowError
  ∧ millis (S754_finite false 0x1a427ab0001062 (-22)) = Ok 1762257600001%Z
  ∧ int_of (PStr "١٧٦٢٢٥٧٣٠٠٠٠٢") = Ok Sample2.created_2025
  ∧ int_of (PStr (String (ascii_of_nat 28) "5")) = Raise ValueError
  ∧ int_of (PStr " 1_000 ") = Ok 1000%Z.
Proof. vm_compute. by repeat split. Qed.

(** X8. A chat message older than the expiry window is dropped with a
    debug log: nothing is recorded, toggled, looked up or replied, the
    handler stays as it was, and the conversation id and the reminder URL
    are not even read. This holds for the seller's messages too. *)
Theorem expired_message_dropped e ws message h create_time name uid text :
  is_chat_message message = true →
  read_chat_fields message = Ok (create_time, name, uid, text) →
  expired e h create_time = Ok true →
  handle_decoded e ws message h
  = (Ok (), h,
     (handle_order_message e message).1
     ++ [EvLog Debug "expired message dropped"]).
Proof.
  intros Hchat Hread Hold. rewrite chat_message_reads by done.
  destruct (handle_order_message e message) as [order_events handled].
  run_M. rewrite Hread. simpl. by rewrite Hold.
Qed.

(** X9. A fresh chat message whose reminder URL has no item id, or an
    empty one, is dropped with a warning: nothing is recorded, toggled or
    replied, and the handler stays as it was. *)
Theorem message_without_item_dropped e ws message h create_time name uid text
    item_id chat_id :
  is_chat_message message = true →
  read_chat_fields message = Ok (create_time, name, uid, text) →
  expired e h create_time = Ok false →
  read_routing message = Ok (item_id, chat_id) →
  item_id = None ∨ item_id = Some EmptyString →
  handle_decoded e ws message h
  = (Ok (), h,
     (handle_order_message e message).1 ++ [EvLog Warning "no item id"]).
Proof.
  intros Hchat Hread Hfresh Hroute Hitem. rewrite chat_message_reads by done.
  destruct (handle_order_message e message) as [order_events handled].
  run_M. rewrite Hread. simpl. rewrite Hfresh, Hroute. simpl.
  by destruct Hitem as [->| ->].
Qed.

(** ** The seller's own messages *)

Lemma dispatch_owner_quiet e ws message name text item_id chat_id h :
  no_reply (trace (dispatch e ws message name (PStr (myid h)) text item_id
                     chat_id h)).
Proof.
  unfold dispatch. run_M. rewrite String.eqb_refl.
  destruct (check_toggle_keywords h text) as [[|]|]; simpl.
  - destruct (toggle_manual_mode h chat_id _ _) as [h1 mode]. quiet.
  - destruct (add_message_by_chat e _ _ _ _ _); quiet.
  - quiet.
Qed.

(** X10. A message whose sender is the account owner is never answered:
    whatever its text, handling it hands no work to the worker pool and
    writes nothing to the socket. *)
Theorem owner_message_never_answered e ws message h create_time name text :
  read_chat_fields message = Ok (create_time, name, PStr (myid h), text) →
  no_reply (trace (handle_decoded e ws message h)).
Proof.
  intros Hread. unfold handle_decoded.
  pose proof (handle_order_message_no_reply e message) as Hord.
  destruct (handle_order_message e message) as [order_events handled].
  simpl in Hord.
  apply Forall_bind; [exact Hord|]. intros [] _; simpl.
  destruct handled; [quiet|].
  destruct (is_typing_status message); [quiet|].
  destruct (is_chat_message message); simpl; [|quiet].
  rewrite Hread. lift_step fields Hfields. injection Hfields as <-.
  ask_step.
  lift_step is_expired Hexpired. destruct is_expired; [quiet|].
  lift_step routing Hrouting. destruct routing as [item_id cid].
  destruct item_id as [[|c item_id]|]; [quiet| |quiet].
  apply dispatch_owner_quiet.
Qed.

(** X11. A message of the owner that is fresh, has an item id and is not
    a toggle is recorded once, as an assistant turn of its conversation,
    and that is all: no toggle, no reply, the handler as it was. *)
Theorem owner_reply_recorded e ws message h create_time name text item_id
    chat_id :
  is_chat_message message = true →
  read_chat_fields message = Ok (create_time, name, PStr (myid h), text) →
  expired e h create_time = Ok false →
  read_routing message = Ok (Some item_id, chat_id) →
  item_id ≠ EmptyString →
  check_toggle_keywords h text = Ok false →
  add_message_by_chat e chat_id (PStr (myid h)) item_id "assistant" text
  = Ok () →
  handle_decoded e ws message h
  = (Ok (), h,
     (handle_order_message e message).1
     ++ [EvRecord chat_id (PStr (myid h)) item_id "assistant" text;
         EvLog Info "seller replied by hand"]).
Proof.
  intros Hchat Hread Hfresh Hroute Hitem Htoggle Hadd.
  rewrite chat_message_reads by done.
  destruct (handle_order_message e message) as [order_events handled].
  run_M. rewrite Hread. simpl. rewrite Hfresh, Hroute. simpl.
  destruct item_id as [|c item_id]; [done|].
  unfold dispatch. run_M. rewrite String.eqb_refl, Htoggle. simpl.
  by rewrite Hadd.
Qed.

(** X12. A fresh message of a buyer that carries the "do not push" mark
    of a system notice is recorded as a user turn and not answered, when
    the conversation is not in manual mode. *)
Theorem system_notice_not_answered e ws message h create_time name uid text
    item_id chat_id :
  is_chat_message message = true →
  read_chat_fields message = Ok (create_time, name, uid, text) →
  expired e h create_time = Ok false →
  read_routing message = Ok (Some item_id, chat_id) →
  item_id ≠ EmptyString →
  eq_str uid (myid h) = false →
  add_message_by_chat e chat_id uid item_id "user" text = Ok () →
  (is_manual_mode h chat_id (now_mode e)).2 = false →
  is_system_message message = true →
  handle_decoded e ws message h
  = (Ok (), (is_manual_mode h chat_id (now_mode e)).1,
     (handle_order_message e message).1
     ++ [EvLog Info "user message";
         EvRecord chat_id uid item_id "user" text]).
Proof.
  intros Hchat Hread Hfresh Hroute Hitem Hbuyer Hadd Hauto Hsys.
  rewrite chat_message_reads by done.
  destruct (handle_order_message e message) as [order_events handled].
  run_M. rewrite Hread. simpl. rewrite Hfresh, Hroute. simpl.
  destruct item_id as [|c item_id]; [done|].
  unfold dispatch. run_M. rewrite Hbuyer, Hadd. simpl.
  destruct (is_manual_mode h chat_id (now_mode e)) as [h1 active].
  simpl in *. subst active. by rewrite Hsys.
Qed.

(** ** The item lookup *)

(** When the store has the item, the lookup returns it and does
    nothing else: the marketplace API has no part in the result, and
    nothing is saved. *)
Theorem item_in_store_skips_api e api item_id info h :
  db_get_item_info e item_id = Ok info →
  truthy info = true →
  lookup_item (with_api e api) item_id h = (Ok (Some info), h, []).
Proof.
  intros Hdb Htruthy. unfold lookup_item. run_M.
  by rewrite Hdb, Htruthy.
Qed.

(** X13. When the store has nothing for the item, the API is asked: an
    answer of the form [{"data": {"itemDO": item}}] is saved to the store
    under the item id and returned; an answer that is an object without
    [data], or whose [data] is an object without [itemDO], gives "not
    found" with a warning, and nothing is saved. *)
Theorem item_fetched_is_saved e item_id nothing d h :
  db_get_item_info e item_id = Ok nothing →
  truthy nothing = false →
  api_get_item_info e item_id = Ok (PDict d) →
  (∀ data item,
     assoc "data" d = Some (PDict data) →
     assoc "itemDO" data = Some item →
     db_save_item_info e item_id item = Ok () →
     lookup_item e item_id h = (Ok (Some item), h, [EvSaveItem item_id item]))
  ∧ ((assoc "data" d = None
      ∨ ∃ data, assoc "data" d = Some (PDict data)
                ∧ assoc "itemDO" data = None) →
     lookup_item e item_id h
     = (Ok None, h, [EvLog Warning "item info unavailable"])).
Proof.
  intros Hdb Hfalsy Hapi. unfold lookup_item. run_M.
  rewrite Hdb, Hfalsy, Hapi. simpl. split.
  - intros data item -> Hi Hsave. simpl. by rewrite Hi, Hsave.
  - intros [->|(data & -> & Hi)]; simpl; [done|]. by rewrite Hi.
Qed.

(** ** What a reply computation is for *)

Lemma no_reply_no_write evs : no_reply evs → none_of is_write evs.
Proof.
  unfold no_reply, none_of. intros H.
  eapply Forall_impl; [exact H|]. by intros [].
Qed.

Lemma dispatch_submit_facts e ws message name uid text item_id chat_id h job :
  let r := dispatch e ws message name uid text item_id chat_id h in
  EvSubmit job ∈ trace r →
  (job_message job = text ∧ job_user_id job = uid
   ∧ job_user_name job = name ∧ job_chat_id job = chat_id)
  ∧ eq_str uid (myid h) = false
  ∧ (is_manual_mode h chat_id (now_mode e)).2 = false
  ∧ is_system_message message = false
  ∧ EvRecord chat_id uid item_id "user" text ∈ trace r
  ∧ ∀ x, process_message e job = Raise x →
         outcome r = Raise x ∧ none_of is_write (trace r).
Proof.
  assert (no_reply []) as Hnil by quiet.
  unfold dispatch, send_msg, ws_send, toggle_manual_mode.
  run_M. intros Hin.
  destruct (eq_str uid (myid h)).
  { destruct (check_toggle_keywords h text) as [[|]|]; simpl in Hin.
    - destruct (is_manual_mode h chat_id (now_mode e)) as [h1 []];
        simpl in Hin; find_submit Hin Hnil.
    - destruct (add_message_by_chat e _ _ _ _ _); simpl in Hin;
        find_submit Hin Hnil.
    - find_submit Hin Hnil. }
  destruct (add_message_by_chat e _ _ _ _ _); simpl in *;
    [|find_submit Hin Hnil].
  destruct (is_manual_mode h chat_id (now_mode e)) as [h1 active];
    simpl in *.
  destruct active; simpl in *; [find_submit Hin Hnil|].
  destruct (is_system_message message); simpl in *; [find_submit Hin Hnil|].
  destruct (lookup_item_quiet e item_id h1) as (r & evs & Hlook & Hq).
  rewrite Hlook in *.
  destruct r as [[info|]|x]; simpl in *; [|find_submit Hin Hq..].
  destruct (item_description_of info) as [description|]; simpl in *;
    [|find_submit Hin Hq].
  assert (EvRecord chat_id uid item_id "user" text
          ∈ EvLog Info "user message"
            :: EvRecord chat_id uid item_id "user" text :: evs) as Hrec
    by (apply list_elem_of_further, list_elem_of_here).
  destruct (process_message e _) as [bot_reply|y] eqn:Hreply; simpl in *.
  - destruct (ws_open_reply e); simpl in *; find_submit Hin Hq;
      injection Hin as ->; simpl;
      (split; [done|]); (do 3 (split; [done|]));
      (split; [rewrite !app_comm_cons; apply elem_of_app; by left|]);
      intros x Hx; congruence.
  - find_submit Hin Hq. injection Hin as ->. simpl.
    split; [done|]. do 3 (split; [done|]).
    split; [rewrite !app_comm_cons; apply elem_of_app; by left|].
    intros x Hx. rewrite Hreply in Hx. injection Hx as ->.
    split; [done|].
    unfold none_of. repeat (apply Forall_cons_2; [done|]).
    apply Forall_app_2; [by apply no_reply_no_write|].
    by repeat constructor.
Qed.

Lemma submit_facts e ws message h job :
  let r := handle_decoded e ws message h in
  EvSubmit job ∈ trace r →
  (∃ create_time item_id,
     read_chat_fields message
     = Ok (create_time, job_user_name job, job_user_id job, job_message job)
     ∧ expired e h create_time = Ok false
     ∧ read_routing message = Ok (Some item_id, job_chat_id job)
     ∧ eq_str (job_user_id job) (myid h) = false
     ∧ (is_manual_mode h (job_chat_id job) (now_mode e)).2 = false
     ∧ is_system_message message = false
     ∧ EvRecord (job_chat_id job) (job_user_id job) item_id "user"
         (job_message job) ∈ trace r)
  ∧ ∀ x, process_message e job = Raise x →
         outcome r = Raise x ∧ none_of is_write (trace r).
Proof.
  pose proof (handle_order_message_no_reply e message) as Hord.
  destruct (is_chat_message message) eqn:Hchat.
  - rewrite chat_message_reads by done.
    destruct (handle_order_message e message) as [order_events handled].
    simpl in Hord. run_M. intros Hin.
    destruct (read_chat_fields message) as [[[[create_time name] uid] text]|];
      simpl in *; [|rewrite app_nil_r in Hin; find_submit Hin Hord].
    destruct (expired e h create_time) as [[|]|] eqn:Hfresh; simpl in *;
      [find_submit Hin Hord| |rewrite app_nil_r in Hin; find_submit Hin Hord].
    destruct (read_routing message) as [[item_id chat_id]|]; simpl in *;
      [|rewrite app_nil_r in Hin; find_submit Hin Hord].
    destruct item_id as [[|c item_id]|]; simpl in *;
      [find_submit Hin Hord| |find_submit Hin Hord].
    pose proof (dispatch_submit_facts e ws message name uid text
                  (String c item_id) chat_id h job) as Hfacts.
    destruct (dispatch _ _ _ _ _ _ _ _ _) as [[r h'] evs].
    unfold outcome, trace in Hfacts. simpl in *.
    apply elem_of_app in Hin as [Hin|Hin];
      [by apply (no_reply_not_submitted _ _ Hord) in Hin|].
    destruct (Hfacts Hin)
      as ((<- & <- & <- & <-) & Hbuyer & Hauto & Hsys & Hrec & Hfail).
    split.
    + exists create_time, (String c item_id).
      do 6 (split; [done|]). apply elem_of_app. by right.
    + intros x Hx. destruct (Hfail x Hx) as [-> Hquiet].
      split; [done|]. apply Forall_app_2; [by apply no_reply_no_write|done].
  - assert (no_reply (trace (handle_decoded e ws message h))) as Hquiet.
    { unfold handle_decoded.
      destruct (handle_order_message e message) as [order_events handled].
      apply Forall_bind; [exact Hord|]. intros [] _; simpl.
      destruct handled; [quiet|].
      destruct (is_typing_status message); [quiet|].
      rewrite Hchat. quiet. }
    intros r Hin. by apply (no_reply_not_submitted _ _ Hquiet) in Hin.
Qed.


(** X15. When the reply computation raises, the exception leaves the
    handler as it is, and nothing is written to the socket for that
    message. *)
Theorem failed_reply_sends_nothing e ws message h job x :
  EvSubmit job ∈ trace (handle_decoded e ws message h) →
  process_message e job = Raise x →
  outcome (handle_decoded e ws message h) = Raise x
  ∧ none_of is_write (trace (handle_decoded e ws message h)).
Proof. intros Hin. by apply submit_facts. Qed.

(** ** Splitting strings *)

Lemma append_cons c s t :
  String.append (String c s) t = String c (String.append s t).
Proof. reflexivity. Qed.

Lemma append_nil_l t : String.append EmptyString t = t.
Proof. reflexivity. Qed.

Lemma append_nil_r s : String.append s EmptyString = s.
Proof.
  induction s as [|c s IH]; [done|]. by rewrite append_cons, IH.
Qed.

Lemma append_assoc s t u :
  String.append (String.append s t) u = String.append s (String.append t u).
Proof.
  induction s as [|c s IH]; [done|]. by rewrite !append_cons, IH.
Qed.

Lemma rev_onto_app s : ∀ acc,
  str_rev_onto s acc = String.append (str_rev s) acc.
Proof.
  unfold str_rev. induction s as [|c s IH]; intros acc; simpl; [done|].
  rewrite (IH (String c acc)), (IH (String c EmptyString)).
  by rewrite append_assoc.
Qed.

Lemma str_rev_cons c s :
  str_rev (String c s) = String.append (str_rev s) (String c EmptyString).
Proof. unfold str_rev at 1. simpl. apply rev_onto_app. Qed.

Lemma prefix_drop p : ∀ s,
  str_prefix p s = true → String.append p (str_drop (String.length p) s) = s.
Proof.
  induction p as [|a p IH]; intros [|b s]; simpl; try done.
  destruct (Ascii.eqb_spec a b) as [->|]; [|done].
  intros Hp. by rewrite append_cons, IH.
Qed.

Lemma str_join_cons sep piece rest :
  rest ≠ [] →
  str_join sep (piece :: rest)
  = String.append piece (String.append sep (str_join sep rest)).
Proof. by destruct rest. Qed.

Lemma drop_nil n : str_drop n EmptyString = EmptyString.
Proof. by destruct n. Qed.

Lemma split_go_join sep s :
  sep ≠ EmptyString →
  ∀ skip cur,
    str_join sep (split_go sep skip cur s)
    = String.append (str_rev cur) (str_drop skip s).
Proof.
  intros Hsep. induction s as [|c s IH]; intros skip cur.
  - simpl. by rewrite drop_nil, append_nil_r.
  - destruct skip as [|n]; [|by apply IH].
    simpl. destruct (str_prefix sep (String c s)) eqn:Hp.
    + destruct (split_go_cons sep s (String.length sep - 1) EmptyString)
        as (piece & rest & Hrest).
      rewrite str_join_cons by (by rewrite Hrest).
      rewrite IH. change (str_rev EmptyString) with EmptyString.
      rewrite append_nil_l.
      destruct sep as [|a p]; [done|]. simpl in *.
      destruct (Ascii.eqb_spec a c) as [->|]; [|done].
      rewrite Nat.sub_0_r, append_cons. by rewrite (prefix_drop p s Hp).
    + rewrite IH. simpl.
      by rewrite str_rev_cons, append_assoc.
Qed.

(** X16. Joining the pieces of [s.split(sep)] with [sep] gives [s] back,
    for every non-empty separator. *)
Theorem split_join_round_trip sep s :
  sep ≠ EmptyString → str_join sep (str_split sep s) = s.
Proof.
  intros Hsep. unfold str_split. by rewrite split_go_join.
Qed.

Lemma split_join_round_trip_witness :
  str_join "itemId=" (str_split "itemId=" Sample.item_url) = Sample.item_url.
Proof. apply split_join_round_trip. discriminate. Defined.

Lemma has_char_app c s t :
  has_char c (String.append s t) = has_char c s || has_char c t.
Proof.
  induction s as [|a s IH]; [done|].
  rewrite append_cons. simpl. by rewrite IH, orb_assoc.
Qed.

Lemma has_char_rev c s : has_char c (str_rev s) = has_char c s.
Proof.
  induction s as [|a s IH]; [done|].
  rewrite str_rev_cons, has_char_app, IH. simpl.
  by rewrite orb_false_r, orb_comm.
Qed.

Lemma first_piece_has_no_sep c s : ∀ cur,
  has_char c cur = false →
  ∃ piece rest,
    split_go (String c EmptyString) 0 cur s = piece :: rest
    ∧ has_char c piece = false.
Proof.
  induction s as [|a s IH]; intros cur Hcur; simpl.
  - do 2 eexists. split; [done|]. by rewrite has_char_rev.
  - destruct (Ascii.eqb_spec c a) as [->|Hne]; simpl.
    + do 2 eexists. split; [done|]. by rewrite has_char_rev.
    + apply IH. simpl. rewrite Hcur.
      destruct (Ascii.eqb_spec a c); [congruence|done].
Qed.

Lemma piece_before_sep c s rest : ∀ cur,
  has_char c s = false →
  ∃ pieces,
    split_go (String c EmptyString) 0 cur
      (String.append s (String c rest))
    = String.append (str_rev cur) s :: pieces.
Proof.
  induction s as [|a s IH]; intros cur Hs.
  - rewrite append_nil_l, append_nil_r. simpl. rewrite Ascii.eqb_refl.
    by eexists.
  - simpl in Hs. apply orb_false_iff in Hs as [Ha Hs].
    rewrite append_cons. simpl.
    destruct (Ascii.eqb_spec c a) as [->|Hne];
      [by rewrite Ascii.eqb_refl in Ha|].
    destruct (IH (String a cur) Hs) as (pieces & ->).
    rewrite str_rev_cons, append_assoc. by eexists.
Qed.

(** X17. The conversation id read from a payload has no "@" in it, and
    it survives the way out and back: the [cid] written into the reply
    frame, the id followed by "@goofish", read as inbound ids are read,
    is the id again. *)
Theorem conversation_id_round_trip message chat_id :
  chat_id_of message = Ok chat_id →
  has_char "@" chat_id = false
  ∧ before "@" (String.append chat_id "@goofish") = chat_id.
Proof.
  unfold chat_id_of. intros Hcid.
  destruct (getitem message "1") as [m1|]; [simpl in Hcid|done].
  destruct (getitem m1 "2") as [m2|]; [simpl in Hcid|done].
  destruct m2 as [| | | |s| |]; try done. simpl in Hcid.
  unfold nth_str, str_split in Hcid.
  destruct (first_piece_has_no_sep "@" s EmptyString eq_refl)
    as (piece & rest & Hsplit & Hclean).
  rewrite Hsplit in Hcid. simpl in Hcid. injection Hcid as <-.
  split; [done|].
  unfold before, str_split.
  destruct (piece_before_sep "@" piece "goofish" EmptyString Hclean)
    as (pieces & ->).
  done.
Qed.

Lemma conversation_id_round_trip_witness :
  before "@" (String.append "c1" "@goofish") = "c1".
Proof.
  apply (conversation_id_round_trip Sample.buyer_says_hi "c1"). reflexivity.
Defined.

(** ** The heartbeat's rhythm *)

Lemma Qgeb_true x y : Qgeb x y = true ↔ (y <= x)%Q.
Proof. unfold Qgeb. apply Qle_bool_iff. Qed.

Lemma Qgeb_false x y : Qgeb x y = false ↔ (x < y)%Q.
Proof.
  unfold Qgeb. rewrite <- not_true_iff_false, Qle_bool_iff.
  split; [apply Qnot_le_lt|apply Qlt_not_le].
Qed.

(** X18. One heartbeat per interval: a pass of the loop that finds the
    heartbeat due writes one heartbeat frame with the fresh id, and a
    later pass that comes less than [interval] after that send writes
    nothing, and leaves the send time as it is. *)
Theorem one_heartbeat_per_interval hb ws mid current sent_at
    ws_open' mid' current' sent_at' :
  (inject_Z (interval hb) <= current - last_heartbeat_time hb)%Q →
  (current' - sent_at < inject_Z (interval hb))%Q →
  let first := loop_body hb ws true mid current sent_at in
  let second := loop_body first.1.1 ws ws_open' mid' current' sent_at' in
  sent_heartbeat_mids first.1.2 = [mid]
  ∧ none_of is_write second.1.2
  ∧ last_heartbeat_time second.1.1 = sent_at.
Proof.
  intros Hdue%Qgeb_true Hsoon%Qgeb_false first second. subst second first.
  assert (∃ last_ev exit,
            loop_body hb ws true mid current sent_at
            = (set_last_time hb sent_at,
               [EvSend ws (heartbeat_frame mid); EvLog Debug "heartbeat sent";
                last_ev], exit)
            ∧ sent_heartbeat_mids [last_ev] = []) as (last_ev & exit & -> & Hl).
  { unfold loop_body. rewrite Hdue. simpl.
    destruct (Qgtb _ _); simpl; by do 2 eexists. }
  simpl. unfold sent_heartbeat_mids in *. simpl in *. rewrite Hl.
  split; [done|].
  unfold loop_body. simpl. rewrite Hsoon. simpl.
  destruct (Qgtb _ _); simpl; (split; [by repeat constructor|done]).
Qed.

Lemma one_heartbeat_per_interval_witness :
  let hb := heartbeat Sample.connected in
  let first := loop_body hb 1 true "hb-1" 115 115 in
  let second := loop_body first.1.1 1 true "hb-2" 116 116 in
  sent_heartbeat_mids first.1.2 = ["hb-1"] ∧ none_of is_write second.1.2.
Proof.
  intros hb first second.
  destruct (one_heartbeat_per_interval hb 1 "hb-1" 115 115 true "hb-2" 116 116)
    as (H1 & H2 & _).
  - vm_compute. discriminate.
  - vm_compute. reflexivity.
  - split; [exact H1|exact H2].
Defined.

(** ** The credential refresher *)

(** X19. When the refresh is due and the token-issuing call returns a
    result of the form [{"data": {"accessToken": token}}] with a token
    that counts as true, the pass installs the token with the time of the
    refresh, raises the restart flag, closes the socket of the connection
    and ends the refresh loop, without sleeping. *)
Theorem rotation_closes_connection c s now d data token refreshed_at :
  (inject_Z (token_refresh_interval c) <= now - last_token_refresh_time c)%Q →
  assoc "data" d = Some (PDict data) →
  assoc "accessToken" data = Some token →
  truthy token = true →
  ws c = Some s →
  ∃ c' evs,
    token_refresh_pass c now (Ok (PDict d)) refreshed_at
    = (c', evs, RefreshBreak)
    ∧ current_token c' = token
    ∧ last_token_refresh_time c' = refreshed_at
    ∧ connection_restart_flag c' = true
    ∧ ws c' = Some {| sock_id := sock_id s; sock_open := false |}
    ∧ filter (fun ev => is_close ev = true) evs = [EvClose (sock_id s)]
    ∧ sleeps evs = [].
Proof.
  intros Hdue%Qgeb_true Hd Ht Htruthy Hws.
  unfold token_refresh_pass, refresh_token, access_token, close_socket.
  rewrite Hdue. simpl. rewrite Hd. simpl. rewrite Ht. simpl.
  rewrite Htruthy, Hws. simpl.
  do 2 eexists. split; [done|]. by repeat split.
Qed.

Lemma rotation_closes_connection_witness :
  ∃ c' evs,
    token_refresh_pass Sample.connected 4000
      (Ok (PDict [("data", PDict [("accessToken", PStr "token-2")])])) 4001
    = (c', evs, RefreshBreak)
    ∧ current_token c' = PStr "token-2"
    ∧ connection_restart_flag c' = true.
Proof.
  destruct (rotation_closes_connection Sample.connected
              {| sock_id := 1; sock_open := true |} 4000
              [("data", PDict [("accessToken", PStr "token-2")])]
              [("accessToken", PStr "token-2")] (PStr "token-2") 4001)
    as (c' & evs & Hpass & Htok & _ & Hflag & _); try reflexivity.
  - vm_compute. discriminate.
  - by exists c', evs.
Defined.

(** While the token is younger than the refresh interval, a pass of
    the refresh loop only sleeps 60 seconds: the token-issuing call has no
    part in it, and the client is left as it was. *)
Theorem refresh_waits_until_due c now token_result refreshed_at :
  (now - last_token_refresh_time c < inject_Z (token_refresh_interval c))%Q →
  token_refresh_pass c now token_result refreshed_at
  = (c, [EvSleep 60], RefreshAgainAfter 60).
Proof.
  intros Hyoung%Qgeb_false. unfold token_refresh_pass. by rewrite Hyoung.
Qed.

Lemma refresh_waits_until_due_witness :
  token_refresh_pass Sample.connected 200 (Raise (ExternalError "down")) 201
  = (Sample.connected, [EvSleep 60], RefreshAgainAfter 60).
Proof.
  apply refresh_waits_until_due. vm_compute. reflexivity.
Defined.

(** X20. A result of the right form whose token counts as false (an empty
    str, [None]) is installed all the same, with the time of the refresh,
    and then treated as a failure: the restart flag and the socket are
    left alone, and the loop sleeps for the retry interval. *)
Theorem empty_token_is_installed c now d data token refreshed_at :
  (inject_Z (token_refresh_interval c) <= now - last_token_refresh_time c)%Q →
  assoc "data" d = Some (PDict data) →
  assoc "accessToken" data = Some token →
  truthy token = false →
  ∃ evs,
    token_refresh_pass c now (Ok (PDict d)) refreshed_at
    = (set_token c token refreshed_at, evs,
       RefreshAgainAfter (token_retry_interval c))
    ∧ none_of is_close evs
    ∧ sleeps evs = [token_retry_interval c].
Proof.
  intros Hdue%Qgeb_true Hd Ht Hfalsy.
  unfold token_refresh_pass, refresh_token, access_token.
  rewrite Hdue. simpl. rewrite Hd. simpl. rewrite Ht. simpl.
  rewrite Hfalsy. simpl.
  eexists. split; [done|]. split; [by repeat constructor|done].
Qed.

Lemma empty_token_is_installed_witness :
  ∃ evs,
    token_refresh_pass Sample.connected 4000
      (Ok (PDict [("data", PDict [("accessToken", PStr "")])])) 4001
    = (set_token Sample.connected (PStr "") 4001, evs, RefreshAgainAfter 300).
Proof.
  destruct (empty_token_is_installed Sample.connected 4000
              [("data", PDict [("accessToken", PStr "")])]
              [("accessToken", PStr "")] (PStr "") 4001)
    as (evs & Hpass & _); try reflexivity.
  - vm_compute. discriminate.
  - by exists evs.
Defined.

(** ** Planned restart, from the rotation to the next turn *)

(** The branches of [init] after the token. *)
Ltac init_cases :=
  repeat (match goal with
          | |- context [if ?b then _ else _] => destruct b
          | |- context [match Session.sync_frame ?x ?y with _ => _ end] =>
              destruct (Session.sync_frame x y)
          end; simpl).

Lemma init_keeps_flag c device_id sock ie :
  connection_restart_flag (init c device_id sock ie).1.1
  = connection_restart_flag c.
Proof.
  unfold init, refresh_token.
  destruct (wants_token c (init_now ie)); simpl.
  - destruct (init_token_result ie ≫= access_token) as [[token|]|]; simpl;
      init_cases; done.
  - init_cases; done.
Qed.

Lemma open_turn_lowers_flag c device_id sock connected ie t1 t2 :
  connection_restart_flag (open_turn c device_id sock connected ie t1 t2).1.1
  = false.
Proof.
  unfold open_turn. destruct connected as [[]|x]; [|done].
  pose proof (init_keeps_flag
                (set_ws (set_restart_flag c false)
                   (Some {| sock_id := sock; sock_open := true |}))
                device_id sock ie) as Hflag.
  destruct (init _ device_id sock ie) as [[c2 evs] [[]|x]]; simpl in *; done.
Qed.

(** X21. The planned restart, end to end. After a pass of the refresh
    loop has rotated the token, the receive loop leaves at the next frame
    without acknowledging or handling it; the teardown that follows does
    not sleep, however the connection ended; and the next turn of [main]
    lowers the restart flag again. *)
Theorem planned_restart c s now d data token refreshed_at :
  (inject_Z (token_refresh_interval c) <= now - last_token_refresh_time c)%Q →
  assoc "data" d = Some (PDict data) →
  assoc "accessToken" data = Some token →
  truthy token = true →
  ws c = Some s →
  let rotated :=
    (token_refresh_pass c now (Ok (PDict d)) refreshed_at).1.1 in
  (∀ parsed t e,
     recv_step rotated (sock_id s) parsed t e = (rotated, [], RecvBreak))
  ∧ (∀ how, sleeps (connection_ended rotated how).2 = [])
  ∧ (∀ how device_id sock connected ie t1 t2,
       connection_restart_flag
         (open_turn (connection_ended rotated how).1 device_id sock
            connected ie t1 t2).1.1 = false).
Proof.
  intros Hdue%Qgeb_true Hd Ht Htruthy Hws rotated.
  assert (connection_restart_flag rotated = true) as Hflag.
  { subst rotated.
    unfold token_refresh_pass, refresh_token, access_token, close_socket.
    rewrite Hdue. simpl. rewrite Hd. simpl. rewrite Ht. simpl.
    by rewrite Htruthy, Hws. }
  split; [|split].
  - intros parsed t e. unfold recv_step. by rewrite Hflag.
  - intros how. unfold connection_ended, finally_block. simpl.
    rewrite Hflag. by destruct how.
  - intros. apply open_turn_lowers_flag.
Qed.

Lemma planned_restart_witness :
  let rotated :=
    (token_refresh_pass Sample.connected 4000
       (Ok (PDict [("data", PDict [("accessToken", PStr "token-2")])]))
       4001).1.1 in
  recv_step rotated 1 (Ok (Sample.sync_frame Sample.buyer_says_hi)) 4002
    Sample.calm
  = (rotated, [], RecvBreak)
  ∧ sleeps (connection_ended rotated EndLoop).2 = [].
Proof.
  intros rotated.
  destruct (planned_restart Sample.connected
              {| sock_id := 1; sock_open := true |} 4000
              [("data", PDict [("accessToken", PStr "token-2")])]
              [("accessToken", PStr "token-2")] (PStr "token-2") 4001)
    as (Hrecv & Hsleep & _); try reflexivity.
  - vm_compute. discriminate.
  - split; [apply Hrecv|apply Hsleep].
Defined.

(** X22. Any frame that is an object whose [headers] are an object with
    a [mid] and whose [code] equals 200 is taken by the receive loop as a
    heartbeat response, whatever else it carries: the last-response time
    is set, and the frame is neither acknowledged nor handed to the
    handler. *)
Theorem code_200_frame_is_consumed c sock d hs mid code now e :
  connection_restart_flag c = false →
  assoc "headers" d = Some (PDict hs) →
  assoc "mid" hs = Some mid →
  assoc "code" d = Some code →
  eq_int code 200 = true →
  recv_step c sock (Ok (PDict d)) now e
  = (set_heartbeat c (set_last_response (heartbeat c) now),
     [EvLog Debug "heartbeat response"], RecvNext).
Proof.
  intros Hflag Hh Hm Hc H200. unfold recv_step, handle_response.
  rewrite Hflag. simpl. rewrite Hh. simpl. rewrite Hm. simpl.
  rewrite Hc. simpl. by rewrite H200.
Qed.

(** ** Registration *)

Lemma refresh_token_only_logs c token_result now :
  none_of is_write (refresh_token c token_result now).1.2
  ∧ wire (refresh_token c token_result now).1.2 = [].
Proof.
  unfold refresh_token.
  destruct (token_result ≫= access_token) as [[token|]|]; simpl;
    (split; [by repeat constructor|done]).
Qed.

Lemma wire_app evs evs' : wire (evs ++ evs') = wire evs ++ wire evs'.
Proof. apply List.filter_app. Qed.

(** X23. Registration without a token: when the client has no token and
    the refresh fails, [init] raises before anything is written to the
    socket. After a call that raised or a result of the wrong form the
    client is as it was; after a result with a token that counts as false
    that token has been installed, with the time of the refresh, and
    nothing else of the client has changed. *)
Theorem init_without_token c device_id ws ie :
  truthy (current_token c) = false →
  refresh_fails (init_token_result ie) →
  ∃ c' evs,
    init c device_id ws ie = (c', evs, Raise (ExternalError "Token获取失败"))
    ∧ none_of is_write evs
    ∧ (malformed (init_token_result ie) → c' = c)
    ∧ (∀ d data token,
         init_token_result ie = Ok (PDict d) →
         assoc "data" d = Some (PDict data) →
         assoc "accessToken" data = Some token →
         c' = set_token c token (init_refreshed_at ie)).
Proof.
  intros Hnone Hfail. unfold init, wants_token. rewrite Hnone. simpl.
  pose proof (refresh_token_only_logs c (init_token_result ie)
                (init_refreshed_at ie)) as [Hquiet _].
  apply refresh_fails_cases in Hfail
    as [Hbad|(d & data & token & Hres & Hd & Ht & Hfalsy)].
  - destruct (refresh_token_malformed c (init_token_result ie)
                (init_refreshed_at ie) Hbad) as (evs & Heq & _ & _).
    rewrite Heq in *. simpl in *. rewrite Hnone. simpl.
    exists c, evs. split; [done|]. split; [done|]. split; [done|].
    intros d data token Hres Hd Ht. rewrite Hres in Hbad.
    destruct Hbad. by exists d, data, token.
  - unfold refresh_token in *. rewrite Hres in *. simpl in *.
    rewrite (access_token_of_shape _ _ _ Hd Ht) in *. simpl in *.
    rewrite Hfalsy. simpl. do 2 eexists. split; [done|]. split; [done|].
    split.
    + intros Hbad. destruct Hbad. by exists d, data, token.
    + intros d' data' token' [= <-] Hd' Ht'. by simplify_eq.
Qed.

(** X24. Registration with the token at hand: when the client has a
    token, and either the token is younger than the refresh interval, or
    the refresh of an older one raises or returns a result of the wrong
    form, [init] registers with that token, old as it may be. With the
    socket open and the clock finite, what goes over the wire is the
    registration with the token, the device id and a fresh [mid], then a
    sleep of one second, then the sync acknowledgement, in this order and
    nothing else; and the client is left as it was. *)
Theorem init_registers_with_current_token c device_id ws ie sync :
  truthy (current_token c) = true →
  ((init_now ie - last_token_refresh_time c
    < inject_Z (token_refresh_interval c))%Q
   ∨ malformed (init_token_result ie)) →
  init_open_reg ie = true →
  init_open_sync ie = true →
  sync_frame (init_pts_now ie) (init_stamp_now ie) = Ok sync →
  ∃ evs,
    init c device_id ws ie = (c, evs, Ok ())
    ∧ wire evs
      = [EvSend ws (reg_frame (current_token c) device_id (init_mid ie));
         EvSleep 1;
         EvSend ws sync].
Proof.
  intros Htok Hkeep Hreg Hsync Hframe. unfold init, wants_token.
  rewrite Htok. simpl.
  destruct (Qgeb _ _) eqn:Hstale.
  - destruct Hkeep as [Hyoung%Qgeb_false|Hbad]; [congruence|].
    pose proof (refresh_token_only_logs c (init_token_result ie)
                  (init_refreshed_at ie)) as [_ Hnone].
    destruct (refresh_token_malformed c (init_token_result ie)
                (init_refreshed_at ie) Hbad) as (evs & Heq & _ & _).
    rewrite Heq in *. simpl in *. rewrite Htok, Hreg, Hframe, Hsync. simpl.
    eexists. split; [done|]. by rewrite wire_app, Hnone.
  - rewrite Htok, Hreg, Hframe, Hsync. simpl. by eexists.
Qed.

(** X25. Registration after a rotation: when [init] wants a token (the
    client has none, or its token is as old as the refresh interval) and
    the token-issuing call returns one that counts as true, the new token
    is installed with the time of the refresh, and the first thing
    written to the socket is the registration frame with the new
    token. *)
Theorem init_registers_with_new_token c device_id ws ie d data token :
  wants_token c (init_now ie) = true →
  init_token_result ie = Ok (PDict d) →
  assoc "data" d = Some (PDict data) →
  assoc "accessToken" data = Some token →
  truthy token = true →
  init_open_reg ie = true →
  ∃ logs rest r,
    init c device_id ws ie
    = (set_token c token (init_refreshed_at ie),
       logs ++ EvSend ws (reg_frame token device_id (init_mid ie)) :: rest,
       r)
    ∧ wire logs = [].
Proof.
  intros Hwant Hres Hd Ht Htruthy Hreg.
  unfold init, refresh_token, access_token. rewrite Hwant, Hres. simpl.
  rewrite Hd. simpl. rewrite Ht. simpl.
  rewrite Htruthy, Hreg. simpl.
  exists [EvLog Info "refreshing token"; EvLog Info "token refreshed"].
  destruct (sync_frame _ _) as [sync|x]; [destruct (init_open_sync ie)|];
    simpl; by do 2 eexists.
Qed.

(** X26. A turn of [main] that does not get as far as the receive loop,
    because the socket cannot be opened or the registration raises,
    starts neither task; and the teardown that follows sleeps the 5
    seconds, even when the turn before was a planned restart, the flag
    having been lowered at the start of the turn. *)
Theorem failed_turn_backs_off c device_id sock connected ie t1 t2 c' evs how :
  open_turn c device_id sock connected ie t1 t2 = (c', evs, Some how) →
  task (heartbeat c') = task (heartbeat c)
  ∧ token_refresh_task c' = token_refresh_task c
  ∧ sleeps (connection_ended c' how).2 = [5%Z].
Proof.
  intros Hturn.
  pose proof (open_turn_lowers_flag c device_id sock connected ie t1 t2)
    as Hflag.
  rewrite Hturn in Hflag. simpl in Hflag.
  assert (task (heartbeat c') = task (heartbeat c)
          ∧ token_refresh_task c' = token_refresh_task c) as [Hhb Htok].
  { unfold open_turn in Hturn. destruct connected as [[]|x].
    - unfold init, refresh_token in Hturn.
      destruct (wants_token _ _);
        [destruct (init_token_result ie ≫= access_token) as [[token|]|]|];
        simpl in Hturn;
        repeat (match type of Hturn with
                | context [if ?b then _ else _] => destruct b
                | context [match sync_frame ?x ?y with _ => _ end] =>
                    destruct (sync_frame x y)
                end; simpl in Hturn);
        by simplify_eq.
    - by simplify_eq. }
  split; [done|]. split; [done|].
  unfold connection_ended, finally_block. simpl. rewrite Hflag.
  by destruct how.
Qed.

(** ** The monitor *)

Lemma fallback_at m :
  Monitor.fallback_index m < 3 →
  ∃ response,
    Monitor.FALLBACK_RESPONSES !! Monitor.fallback_index m = Some response
    ∧ Monitor.get_fallback_response m
      = Ok ({| Monitor.current_call := Monitor.current_call m;
               Monitor.fallback_index := (Monitor.fallback_index m + 1) mod 3 |},
            response).
Proof.
  intros Hlt. unfold Monitor.get_fallback_response.
  destruct (Monitor.fallback_index m) as [|[|[|n]]] eqn:Hi; simpl;
    [by eexists..|lia].
Qed.

(** X27. The fallback replies go round: with the index within the list,
    as it is from the start, any number of calls of
    [get_fallback_response] return without an [IndexError], the call
    number [i] returning the reply at [(index + i) mod 3], and the index
    after [n] calls is [(index + n) mod 3]. *)
Theorem fallback_round_robin n : ∀ m,
  Monitor.fallback_index m < 3 →
  ∃ m' replies,
    fallbacks m n = Ok (m', replies)
    ∧ Monitor.fallback_index m' = (Monitor.fallback_index m + n) mod 3
    ∧ length replies = n
    ∧ ∀ i, i < n →
        replies !! i = Monitor.FALLBACK_RESPONSES !! ((Monitor.fallback_index m + i) mod 3).
Proof.
  induction n as [|n IH]; intros m Hlt.
  - exists m, []. split; [done|]. split.
    + rewrite Nat.add_0_r. by rewrite Nat.mod_small.
    + split; [done|]. intros i Hi. lia.
  - destruct (fallback_at m Hlt) as (response & Hresp & Hget).
    destruct (IH {| Monitor.current_call := Monitor.current_call m;
                    Monitor.fallback_index :=
                      (Monitor.fallback_index m + 1) mod 3 |})
      as (m' & replies & Hrun & Hidx & Hlen & Hnth).
    { cbn [Monitor.fallback_index]. apply Nat.mod_upper_bound. lia. }
    cbn [Monitor.fallback_index] in Hidx, Hnth.
    exists m', (response :: replies).
    split; [cbn [fallbacks]; rewrite Hget;
            unfold mbind, exc_bind, ebind; cbv beta iota; by rewrite Hrun|].
    split; [|split].
    + rewrite Hidx, Nat.Div0.add_mod_idemp_l. f_equal. lia.
    + cbn [length]. by rewrite Hlen.
    + intros [|i] Hi.
      * rewrite Nat.add_0_r, Nat.mod_small by done. done.
      * change ((response :: replies) !! S i) with (replies !! i).
        rewrite Hnth by lia.
        rewrite Nat.Div0.add_mod_idemp_l. do 2 f_equal. lia.
Qed.

Lemma fallback_round_robin_witness :
  ∃ m' replies,
    fallbacks Monitor.new 4 = Ok (m', replies)
    ∧ Monitor.fallback_index m' = 1
    ∧ replies !! 3 = Monitor.FALLBACK_RESPONSES !! 0.
Proof.
  destruct (fallback_round_robin 4 Monitor.new)
    as (m' & replies & Hrun & Hidx & _ & Hnth).
  - simpl. lia.
  - exists m', replies. split; [exact Hrun|]. split; [exact Hidx|].
    apply (Hnth 3). lia.
Defined.

Lemma tool_calls_accumulate names : ∀ m k,
  Monitor.current_call m = Some k →
  Monitor.current_call (fold_left Monitor.record_tool_call names m)
  = Some {| Monitor.start_time := Monitor.start_time k;
            Monitor.thread_id := Monitor.thread_id k;
            Monitor.stage := Monitor.stage k;
            Monitor.tools_called := Monitor.tools_called k ++ names;
            Monitor.input_tokens := Monitor.input_tokens k;
            Monitor.output_tokens := Monitor.output_tokens k |}
  ∧ Monitor.fallback_index (fold_left Monitor.record_tool_call names m)
    = Monitor.fallback_index m.
Proof.
  induction names as [|name names IH]; intros m k Hk; simpl.
  - rewrite app_nil_r. by destruct k.
  - unfold Monitor.record_tool_call at 2 4. rewrite Hk.
    edestruct IH as [-> ->]; [done|]. simpl.
    by rewrite <- app_assoc.
Qed.

(** X28. One row per call: after [start_call], [end_call] saves one row
    and no more, and the token counts and the tool names recorded in
    between are in it, the tools in the order they were recorded, the
    total being the sum of the two counts, the latency the rounded
    product of the time passed and 1000; [end_call] clears the call
    whether or not the save raises, so that a second [end_call], and any
    recording after it, changes nothing and saves nothing. *)
Theorem one_row_per_call m now thread stage input output names
    now' stamp round2 saved success error :
  let recorded :=
    fold_left Monitor.record_tool_call names
      (Monitor.record_tokens (Monitor.start_call m now thread stage)
         input output) in
  let ended :=
    Monitor.end_call recorded now' stamp round2 saved success error in
  (∃ row,
     rows ended.2 = [row]
     ∧ Monitor.m_thread_id row = thread
     ∧ Monitor.m_stage row = stage
     ∧ Monitor.m_tools_called row = names
     ∧ Monitor.m_input_tokens row = input
     ∧ Monitor.m_output_tokens row = output
     ∧ Monitor.m_total_tokens row = (input + output)%Z
     ∧ Monitor.m_latency_ms row = round2 (Monitor.latency now now')
     ∧ Monitor.m_success row = success
     ∧ Monitor.m_error row = error)
  ∧ Monitor.current_call ended.1 = None
  ∧ Monitor.fallback_index ended.1 = Monitor.fallback_index m
  ∧ (∀ t s r sv ok err,
       Monitor.end_call ended.1 t s r sv ok err = (ended.1, []))
  ∧ (∀ i o, Monitor.record_tokens ended.1 i o = ended.1)
  ∧ (∀ name, Monitor.record_tool_call ended.1 name = ended.1).
Proof.
  intros recorded ended. subst ended recorded.
  edestruct (tool_calls_accumulate names
               (Monitor.record_tokens (Monitor.start_call m now thread stage)
                  input output)) as [Hcall Hidx]; [reflexivity|].
  unfold Monitor.end_call. rewrite Hcall, Hidx. simpl.
  split; [|by repeat split].
  eexists. split.
  - unfold rows. simpl. rewrite omap_app. by destruct (raised saved).
  - by repeat split.
Qed.

(** ** The evaluator *)

Lemma updates_count calls thread_id : ∀ ev,
  default 0%Z (Evaluator.round_counts (updates ev calls) !! thread_id)
  = (default 0%Z (Evaluator.round_counts ev !! thread_id)
     + calls_for thread_id calls)%Z.
Proof.
  unfold calls_for.
  induction calls as [|[[[t stage] bargain] updated] calls IH]; intros ev.
  - simpl. lia.
  - simpl. rewrite IH. simpl. rewrite filter_cons. simpl.
    destruct (decide (t = thread_id)) as [->|Hne].
    + rewrite lookup_insert_eq. simpl. lia.
    + rewrite lookup_insert_ne by done. lia.
Qed.

(** X29. The round counter of a thread is the number of
    [update_conversation] calls made for it: the calls for other threads
    do not touch it, and a call whose store update raises counts all the
    same. *)
Theorem rounds_are_counted calls thread_id :
  default 0%Z
    (Evaluator.round_counts (updates Evaluator.new calls) !! thread_id)
  = calls_for thread_id calls.
Proof. rewrite updates_count. simpl. rewrite lookup_empty. simpl. lia. Qed.

(** ** The Feishu card *)

(** X30. With a webhook URL configured, [_send_feishu_card] posts one
    card and never raises; it reports success exactly when the post
    returns the status 200 and a body whose [code] is 0. With no URL
    configured it posts nothing, and reports success. *)
Theorem card_success post str_of_exc url message notice_type :
  (url ≠ EmptyString →
   let r := Notify.send_feishu_card url post str_of_exc message notice_type in
   r.2 = [Notify.card_of message notice_type]
   ∧ (Notify.success r.1 = true
      ↔ ∃ resp body code,
          post (Notify.card_of message notice_type) = Ok resp
          ∧ eq_int (Notify.status_code resp) 200 = true
          ∧ Notify.json resp = Ok body
          ∧ get body "code" PNone = Ok code
          ∧ eq_int code 0 = true))
  ∧ (let r := Notify.send_feishu_card EmptyString post str_of_exc message
                notice_type in
     r.2 = [] ∧ Notify.success r.1 = true).
Proof.
  split; [|done].
  intros Hurl r. subst r. unfold Notify.send_feishu_card.
  destruct (String.eqb_spec url EmptyString) as [|_]; [done|]. simpl.
  split; [done|].
  destruct (post _) as [resp|x] eqn:Hpost; simpl.
  2:{ split; [done|]. intros (? & ? & ? & ? & _). congruence. }
  destruct (eq_int (Notify.status_code resp) 200) eqn:H200; simpl.
  2:{ split.
      - destruct (Notify.json resp) as [body|x]; simpl; [|done].
        by destruct (get body "msg" _).
      - intros (? & ? & ? & ? & ? & _). simplify_eq. congruence. }
  destruct (Notify.json resp) as [body|x] eqn:Hj; simpl.
  2:{ split; [done|]. intros (? & ? & ? & ? & _ & ? & _).
      simplify_eq. congruence. }
  destruct (get body "code" PNone) as [code|x] eqn:Hc; simpl.
  2:{ split; [done|]. intros (? & ? & ? & ? & _ & ? & ? & _).
      simplify_eq. congruence. }
  destruct (eq_int code 0) eqn:H0; simpl.
  - split; [|done]. intros _. by exists resp, body, code.
  - split.
    + by destruct (get body "msg" _).
    + intros (? & ? & ? & ? & _ & ? & ? & ?). simplify_eq. congruence.
Qed.

(** ** The properties above at sample inputs *)

Lemma undecodable_data_dropped_witness :
  trace (handle Sample2.garbled 1 (Sample.sync_frame Sample.buyer_says_hi)
           Sample.seller)
  = trace (send_ack Sample2.garbled 1 (Sample.sync_frame Sample.buyer_says_hi)
             Sample.seller)
    ++ [EvLog Error "decrypt failed"].
Proof.
  refine (proj2 (proj2 (undecodable_data_dropped Sample2.garbled 1
            (Sample.sync_frame Sample.buyer_says_hi)
            (PDict [("data", Sample.buyer_says_hi)]) Sample.buyer_says_hi
            Sample.seller _ _ _ _ _))); try reflexivity.
  by right.
Defined.

Lemma expired_message_dropped_witness :
  handle_decoded Sample2.late 1 Sample.buyer_says_hi Sample.seller
  = (Ok (), Sample.seller, [EvLog Debug "expired message dropped"]).
Proof.
  apply (expired_message_dropped Sample2.late 1 Sample.buyer_says_hi
           Sample.seller 999000%Z (PStr "buyer") (PStr "buyer-7") (PStr "hi"));
    reflexivity.
Defined.

Lemma message_without_item_dropped_witness :
  handle_decoded Sample.calm 1 Sample2.no_item Sample.seller
  = (Ok (), Sample.seller, [EvLog Warning "no item id"]).
Proof.
  apply (message_without_item_dropped Sample.calm 1 Sample2.no_item
           Sample.seller 999000%Z (PStr "buyer") (PStr "buyer-7") (PStr "hi")
           None "c1"); try reflexivity.
  by left.
Defined.

Lemma owner_message_never_answered_witness :
  no_reply (trace (handle_decoded Sample.calm 1 Sample2.seller_replies
                     Sample.seller)).
Proof.
  apply (owner_message_never_answered Sample.calm 1 Sample2.seller_replies
           Sample.seller 999000%Z (PStr "me") (PStr "on my way")).
  reflexivity.
Defined.

Lemma owner_reply_recorded_witness :
  handle_decoded Sample.calm 1 Sample2.seller_replies Sample.seller
  = (Ok (), Sample.seller,
     [EvRecord "c1" (PStr "seller") "42" "assistant" (PStr "on my way");
      EvLog Info "seller replied by hand"]).
Proof.
  apply (owner_reply_recorded Sample.calm 1 Sample2.seller_replies
           Sample.seller 999000%Z (PStr "me") (PStr "on my way") "42" "c1");
    try reflexivity.
  discriminate.
Defined.

Lemma system_notice_not_answered_witness :
  trace (handle_decoded Sample.calm 1 Sample2.notice Sample.seller)
  = [EvLog Info "user message";
     EvRecord "c1" (PStr "buyer-7") "42" "user" (PStr "hi")].
Proof.
  pose proof (system_notice_not_answered Sample.calm 1 Sample2.notice
                Sample.seller 999000%Z (PStr "buyer") (PStr "buyer-7")
                (PStr "hi") "42" "c1") as H.
  rewrite H; try reflexivity. discriminate.
Defined.

Lemma item_in_store_skips_api_witness :
  lookup_item (with_api Sample.calm (fun _ => Ok PNone)) "42" Sample.seller
  = (Ok (Some Sample.phone), Sample.seller, []).
Proof.
  apply (item_in_store_skips_api Sample.calm (fun _ => Ok PNone) "42"
           Sample.phone Sample.seller); reflexivity.
Defined.

Lemma item_fetched_is_saved_witness :
  lookup_item Sample2.empty_store "42" Sample.seller
  = (Ok (Some Sample.phone), Sample.seller, [EvSaveItem "42" Sample.phone]).
Proof.
  apply (proj1 (item_fetched_is_saved Sample2.empty_store "42" PNone
                  [("data", PDict [("itemDO", Sample.phone)])] Sample.seller
                  eq_refl eq_refl eq_refl)
           [("itemDO", Sample.phone)] Sample.phone); reflexivity.
Defined.


Lemma failed_reply_sends_nothing_witness :
  outcome (handle_decoded Sample2.agent_down 1 Sample.buyer_says_hi
             Sample.seller) = Raise (ExternalError "llm").
Proof.
  apply (failed_reply_sends_nothing Sample2.agent_down 1 Sample.buyer_says_hi
           Sample.seller Sample2.hi_job (ExternalError "llm")).
  - vm_compute. do 2 apply list_elem_of_further. apply list_elem_of_here.
  - reflexivity.
Defined.

Lemma code_200_frame_is_consumed_witness :
  recv_step Sample.connected 1 (Ok Sample.stray_ack) 107 Sample.calm
  = (set_heartbeat Sample.connected
       (set_last_response (heartbeat Sample.connected) 107),
     [EvLog Debug "heartbeat response"], RecvNext).
Proof.
  apply (code_200_frame_is_consumed Sample.connected 1
           [("headers", PDict [("mid", PStr "never-sent")]);
            ("code", PInt 200)]
           [("mid", PStr "never-sent")] (PStr "never-sent") (PInt 200)
           107 Sample.calm); reflexivity.
Defined.

Lemma init_without_token_witness :
  ∃ evs,
    init Sample.fresh_client "device-1" 1 Sample2.token_down
    = (Sample.fresh_client, evs, Raise (ExternalError "Token获取失败")).
Proof.
  destruct (init_without_token Sample.fresh_client "device-1" 1
              Sample2.token_down) as (c' & evs & Hinit & _ & Hsame & _).
  - reflexivity.
  - intros d data token Hres. discriminate Hres.
  - rewrite (Hsame I) in Hinit. by exists evs.
Defined.

Lemma init_registers_with_current_token_witness :
  ∃ evs sync,
    init Sample.connected "device-1" 1 Sample2.token_down
    = (Sample.connected, evs, Ok ())
    ∧ wire evs
      = [EvSend 1 (reg_frame (PStr "token-1") "device-1" "reg-1");
         EvSleep 1;
         EvSend 1 sync].
Proof.
  destruct (sync_frame (float_of_Z 202) (float_of_Z 202)) as [sync|x]
    eqn:Hframe; [|vm_compute in Hframe; discriminate Hframe].
  destruct (init_registers_with_current_token Sample.connected "device-1" 1
              Sample2.token_down sync) as (evs & Hinit & Hwire);
    try reflexivity.
  - left. vm_compute. reflexivity.
  - exact Hframe.
  - by exists evs, sync.
Defined.

Lemma init_registers_with_new_token_witness :
  ∃ logs rest r,
    init Sample.fresh_client "device-1" 1 Sample2.token_up
    = (set_token Sample.fresh_client (PStr "token-2") 201,
       logs ++ EvSend 1 (reg_frame (PStr "token-2") "device-1" "reg-1")
               :: rest,
       r).
Proof.
  destruct (init_registers_with_new_token Sample.fresh_client "device-1" 1
              Sample2.token_up
              [("data", PDict [("accessToken", PStr "token-2")])]
              [("accessToken", PStr "token-2")] (PStr "token-2"))
    as (logs & rest & r & Hinit & _); try reflexivity.
  by exists logs, rest, r.
Defined.

Lemma failed_turn_backs_off_witness :
  sleeps (connection_ended
            (set_restart_flag Sample.fresh_client false)
            (EndError (ExternalError "refused"))).2 = [5%Z].
Proof.
  refine (proj2 (proj2 (failed_turn_backs_off Sample.fresh_client "device-1" 1
            (Raise (ExternalError "refused")) Sample2.token_down 100 100
            _ [] _ _))).
  reflexivity.
Defined.

Lemma card_success_witness :
  Notify.success
    (Notify.send_feishu_card "https://hook.example/notify" Sample2.webhook_ok
       (fun _ => "error") "deal at 100" "handover").1 = true.
Proof.
  apply (proj1 (card_success Sample2.webhook_ok (fun _ => "error")
                  "https://hook.example/notify" "deal at 100" "handover")).
  - discriminate.
  - do 3 eexists. repeat split; reflexivity.
Defined.
